(** * Yggdrasil smart peer finder: a shallow embedding and its properties

    The development follows [yggdrasil-peer-finder.py]:
    - [Py]: exceptions, character classes and [int()] on a run of digits;
    - [Url]: [SmartPeerTester.parse_peer_url], the two regular expressions
      written out as scanners;
    - [Prober]: [SmartPeerTester.test_connection] as state passing over the
      operating system;
    - [Runner]: [test_single_peer], [test_region_fast], [find_best_region]
      and [test_all_peers_in_region] over [as_completed], and the shortlist
      assembled at the end of [main];
    - [Sim]: a small machine on which the definitions run.
    The properties come after the definitions, part by part. *)

From Stdlib Require Import ZArith Lia Ascii String List Bool Sorted.
From stdpp Require Import base list strings gmap.

Local Open Scope Z_scope.

(** ** Python values shared by all parts *)

Module Py.

(** The exceptions that travel between the functions modelled here.
    [OSError] stands for whatever a socket operation raises. *)
Inductive exn : Type :=
  | TimeoutError
  | ValueError
  | OSError.

(** A call either returns a value or raises. *)
Inductive outcome (A : Type) : Type :=
  | Ret (a : A)
  | Raise (e : exn).
Arguments Ret {A} a.
Arguments Raise {A} e.

Definition bind {A B} (m : outcome A) (k : A -> outcome B) : outcome B :=
  match m with
  | Ret a => k a
  | Raise e => Raise e
  end.

(** A [str] is a sequence of code points; a Rocq [string] carries the code
    points below 256, one per character. *)
Definition code (c : ascii) : N := N_of_ascii c.

Definition between (lo hi n : N) : bool := ((lo <=? n) && (n <=? hi))%N.

(** [\d] of the [re] module on [str] patterns: the decimal digits.  Below 256
    these are the ASCII digits only. *)
Definition is_digit (c : ascii) : bool := between 48 57 (code c).

(** [\w] of the [re] module on [str] patterns: alphanumeric code points and
    the underscore.  Below 256, besides ASCII, these are the Latin-1
    letters, the superscript digits and the vulgar fractions. *)
Definition is_word (c : ascii) : bool :=
  let n := code c in
  between 48 57 n || between 65 90 n || (n =? 95)%N || between 97 122 n
  || (n =? 170)%N || between 178 179 n || (n =? 181)%N
  || between 185 186 n || between 188 190 n
  || between 192 214 n || between 216 246 n || between 248 255 n.

Definition digit_value (c : ascii) : Z := Z.of_N (code c) - 48.

(** The value of a run of decimal digits, most significant first. *)
Definition digits_value (s : string) : Z :=
  fold_left (fun acc c => 10 * acc + digit_value c) (list_ascii_of_string s) 0.

(** [sys.get_int_max_str_digits()], at its default. *)
Definition int_max_str_digits : nat := 4300.

(** [int(s)] for [s] a non-empty run of decimal digits: the conversion
    refuses more than [int_max_str_digits] digits with [ValueError]. *)
Definition int (s : string) : outcome Z :=
  if (int_max_str_digits <? String.length s)%nat then Raise ValueError
  else Ret (digits_value s).

End Py.

#[global] Instance outcome_ret : MRet Py.outcome := @Py.Ret.
#[global] Instance outcome_bind : MBind Py.outcome :=
  fun A B k m => Py.bind m k.

(** ** Endpoint descriptor parsing *)

Module Url.

(** The longest prefix of [s] whose characters satisfy [p], and what is left:
    a greedy [[class]*]. *)
Fixpoint span (p : ascii -> bool) (s : string) : string * string :=
  match s with
  | EmptyString => (EmptyString, EmptyString)
  | String c s' =>
      if p c then let '(a, b) := span p s' in (String c a, b)
      else (EmptyString, s)
  end.

(** A literal: [s] with the prefix [pre] removed. *)
Fixpoint lit (pre s : string) : option string :=
  match pre, s with
  | EmptyString, _ => Some s
  | String a pre', String b s' =>
      if Ascii.eqb a b then lit pre' s' else None
  | String _ _, EmptyString => None
  end.

Definition nonempty (s : string) : bool :=
  match s with EmptyString => false | String _ _ => true end.

Definition not_rbracket (c : ascii) : bool := negb (Ascii.eqb c "]").
Definition not_colon (c : ascii) : bool := negb (Ascii.eqb c ":").

(** [re.match] of the bracketed pattern at the start of [url]: a scheme of
    one or more [\w], the literal [://] and an opening bracket, a host of one
    or more characters other than the closing bracket, the closing bracket
    and a colon, a port of one or more [\d], and an optional query (a
    question mark and the rest of the line).  The result is groups 1 to 3
    and the text after group 3.  Each repetition is followed by a literal
    outside its class (or, for the port, by the optional group), so the only
    way to match is the greedy one and no backtracking takes place. *)
Definition match_ipv6 (url : string) : option (string * string * string * string) :=
  let '(scheme, r0) := span Py.is_word url in
  if negb (nonempty scheme) then None else
  match lit "://[" r0 with
  | None => None
  | Some r1 =>
      let '(host, r2) := span not_rbracket r1 in
      if negb (nonempty host) then None else
      match lit "]:" r2 with
      | None => None
      | Some r3 =>
          let '(port, rest) := span Py.is_digit r3 in
          if negb (nonempty port) then None else Some (scheme, host, port, rest)
      end
  end.

(** [re.match] of the second pattern: the host is one or more characters
    other than a colon, with no brackets around it. *)
Definition match_plain (url : string) : option (string * string * string * string) :=
  let '(scheme, r0) := span Py.is_word url in
  if negb (nonempty scheme) then None else
  match lit "://" r0 with
  | None => None
  | Some r1 =>
      let '(host, r2) := span not_colon r1 in
      if negb (nonempty host) then None else
      match lit ":" r2 with
      | None => None
      | Some r3 =>
          let '(port, rest) := span Py.is_digit r3 in
          if negb (nonempty port) then None else Some (scheme, host, port, rest)
      end
  end.

(** [parse_peer_url]: [Some (protocol, host, port)], or [None] for the
    triple [(None, None, None)]. *)
Definition parse_peer_url (url : string) : Py.outcome (option (string * string * Z)) :=
  match match_ipv6 url with
  | Some (scheme, host, port, _) =>
      n ← Py.int port; Py.Ret (Some (scheme, host, n))
  | None =>
      match match_plain url with
      | Some (scheme, host, port, _) =>
          n ← Py.int port; Py.Ret (Some (scheme, host, n))
      | None => Py.Ret None
      end
  end.

(** *** The shape of an address, for stating what parsing recovers *)

(** Every character of [s] is in the class [p]. *)
Fixpoint every (p : ascii -> bool) (s : string) : bool :=
  match s with
  | EmptyString => true
  | String c s' => p c && every p s'
  end.

(** [s] does not go on with a character of the class [p]. *)
Definition stops (p : ascii -> bool) (s : string) : bool :=
  match s with
  | EmptyString => true
  | String c _ => negb (p c)
  end.

(** One or more characters of the class [p]. *)
Definition some_of (p : ascii -> bool) (s : string) : Prop :=
  nonempty s = true /\ every p s = true.

(** [s.startswith(c)] *)
Definition begins_with (c : ascii) (s : string) : bool :=
  match s with
  | EmptyString => false
  | String d _ => Ascii.eqb d c
  end.

(** The optional suffix: nothing, or a question mark and a query. *)
Definition query (q : string) : Prop :=
  q = EmptyString \/ exists q', q = String "?" q'.

(** [scheme://host:port], with an optional [?query], for a host written
    without brackets; and the same around a bracketed literal. *)
Inductive well_formed : string -> Prop :=
  | wf_plain scheme host port q :
      some_of Py.is_word scheme ->
      some_of not_colon host -> begins_with "[" host = false ->
      some_of Py.is_digit port -> query q ->
      well_formed (scheme +:+ "://" +:+ host +:+ ":" +:+ port +:+ q)
  | wf_bracketed scheme host port q :
      some_of Py.is_word scheme ->
      some_of not_rbracket host ->
      some_of Py.is_digit port -> query q ->
      well_formed (scheme +:+ "://[" +:+ host +:+ "]:" +:+ port +:+ q).

(** [url] begins with an address, whatever follows the digits of the port. *)
Definition begins_with_address (url : string) : Prop :=
  (exists scheme host port rest,
      url = scheme +:+ "://" +:+ host +:+ ":" +:+ port +:+ rest
      /\ some_of Py.is_word scheme /\ some_of not_colon host
      /\ some_of Py.is_digit port)
  \/ (exists scheme host port rest,
      url = scheme +:+ "://[" +:+ host +:+ "]:" +:+ port +:+ rest
      /\ some_of Py.is_word scheme /\ some_of not_rbracket host
      /\ some_of Py.is_digit port).

(** [str.lower()], on the code points below 256: the ASCII and the Latin-1
    capital letters. *)
Definition lower_char (c : ascii) : ascii :=
  let n := Py.code c in
  if Py.between 65 90 n || Py.between 192 214 n || Py.between 216 222 n
  then ascii_of_N (n + 32) else c.

Fixpoint lower (s : string) : string :=
  match s with
  | EmptyString => EmptyString
  | String c s' => String (lower_char c) (lower s')
  end.

End Url.

(** ** Floating-point values

    Latencies are Python floats.  The program only compares them, averages
    them and takes differences of clock readings, so the development is
    stated over any carrier with these operations: the floats other than
    NaN (which no operation used here produces from clock readings), with
    [==] as equality.  Rounding is whatever the carrier does. *)

Class PyFloat : Type := {
  float : Type;
  float_eq_dec :: EqDecision float;
  flt : float -> float -> bool;          (* x < y *)
  inf : float;                           (* float("inf") *)
  fsub : float -> float -> float;        (* x - y *)
  fmul : float -> float -> float;        (* x * y *)
  fdiv : float -> float -> float;        (* x / y, y not zero *)
  fsum : list float -> float;            (* sum(xs), xs not empty *)
  of_int : Z -> float;                   (* the float an int is converted to *)
  flt_irrefl : forall x, flt x x = false;
  flt_trans : forall x y z, flt x y = true -> flt y z = true -> flt x z = true;
  flt_connex : forall x y, flt x y = false -> flt y x = false -> x = y
}.

(** ** Connectivity prober *)

Module Prober.
Section Prober.

Context `{PyFloat}.

(** The state of the machine and the network as one probe sees it. *)
Variable world : Type.

(** An operation reads and changes the world, and returns or raises. *)
Definition M (A : Type) : Type := world -> Py.outcome A * world.

Definition ret {A} (a : A) : M A := fun w => (Py.Ret a, w).

Definition bind {A B} (m : M A) (k : A -> M B) : M B :=
  fun w => match m w with
           | (Py.Ret a, w') => k a w'
           | (Py.Raise e, w') => (Py.Raise e, w')
           end.

(** [try: m except: h] *)
Definition catch {A} (m : M A) (h : M A) : M A :=
  fun w => match m w with
           | (Py.Ret a, w') => (Py.Ret a, w')
           | (Py.Raise _, w') => h w'
           end.

(** [with ... : body], the exit [fin] running whether [body] raises or not;
    the exception of [body] continues after it. *)
Definition ensuring {A} (body : M A) (fin : M unit) : M A :=
  fun w => match body w with
           | (Py.Ret a, w') =>
               match fin w' with
               | (Py.Ret _, w'') => (Py.Ret a, w'')
               | (Py.Raise e, w'') => (Py.Raise e, w'')
               end
           | (Py.Raise e, w') =>
               match fin w' with
               | (Py.Ret _, w'') => (Py.Raise e, w'')
               | (Py.Raise e', w'') => (Py.Raise e', w'')
               end
           end.

Inductive family : Type := AF_INET | AF_INET6.

(** The library calls of [test_connection].  One socket is alive per call, so
    no handle is passed around. *)
Record os : Type := {
  time_time : M float;                          (* time.time() *)
  create_default_context : M unit;              (* ssl.create_default_context() *)
  getaddrinfo : string -> Z -> family -> M unit; (* socket.getaddrinfo *)
  socket_socket : family -> M unit;             (* socket.socket(family, SOCK_STREAM) *)
  settimeout : Z -> M unit;                     (* sock.settimeout *)
  wrap_socket : string -> M unit;               (* context.wrap_socket *)
  connect : bool -> string -> Z -> M unit;      (* connect, with the handshake when the flag is set *)
  close : M unit                                (* sock.close() *)
}.

Variable sys : os.

Local Notation "x <- m ;; k" := (bind m (fun x => k))
  (at level 100, m at next level, right associativity).
Local Notation "m ;;; k" := (bind m (fun _ => k))
  (at level 100, right associativity).

(** [":" in host] *)
Fixpoint has_colon (host : string) : bool :=
  match host with
  | EmptyString => false
  | String c s => Ascii.eqb c ":" || has_colon s
  end.

(** The choice of the address family: a literal with a colon is IPv6;
    otherwise IPv6 when the name resolves for it and the socket can be made,
    else IPv4. *)
Definition open_socket (host : string) (port : Z) : M unit :=
  if has_colon host then socket_socket sys AF_INET6
  else catch (getaddrinfo sys host port AF_INET6 ;;; socket_socket sys AF_INET6)
             (socket_socket sys AF_INET).

(** What happens between the two readings of the clock. *)
Definition session (host : string) (port : Z) (protocol : string) (timeout : Z) : M unit :=
  if String.eqb protocol "tls" || String.eqb protocol "wss" then
    create_default_context sys ;;;
    open_socket host port ;;;
    settimeout sys timeout ;;;
    wrap_socket sys host ;;;
    ensuring (connect sys true host port) (close sys)
  else
    open_socket host port ;;;
    settimeout sys timeout ;;;
    connect sys false host port ;;;
    close sys.

(** [test_connection]: [Some latency] for [(True, latency)], [None] for
    [(False, None)]. *)
Definition test_connection (host : string) (port : Z) (protocol : string)
    (timeout : Z) : world -> option float * world :=
  fun w =>
    match (start <- time_time sys ;;
           session host port protocol timeout ;;;
           stop <- time_time sys ;;
           ret (fmul (fsub stop start) (of_int 1000))) w with
    | (Py.Ret latency, w') => (Some latency, w')
    | (Py.Raise _, w') => (None, w')
    end.

(** *** The probe in the words of the specification

    The family is chosen and the socket prepared first; the clock is read
    immediately before the connect and just after the connect, or the
    handshake, completes; the socket is closed after the measurement. *)
Definition probe_spec (host : string) (port : Z) (protocol : string)
    (timeout : Z) : world -> option float * world :=
  let tls := String.eqb protocol "tls" || String.eqb protocol "wss" in
  fun w =>
    match ((if tls then create_default_context sys else ret tt) ;;;
           open_socket host port ;;;
           settimeout sys timeout ;;;
           (if tls then wrap_socket sys host else ret tt) ;;;
           start <- time_time sys ;;
           connect sys tls host port ;;;
           stop <- time_time sys ;;
           close sys ;;;
           ret (fmul (fsub stop start) (of_int 1000))) w with
    | (Py.Ret latency, w') => (Some latency, w')
    | (Py.Raise _, w') => (None, w')
    end.

End Prober.
End Prober.

(** ** Sorting

    [list.sort(key=...)] is stable and compares keys with [<] only.  On keys
    that [<] orders totally the stable sorted arrangement of a list is
    unique ([sort_unique] below), so insertion from the right, which is
    stable ([sort_stable]), computes it. *)

Section Sort.

Context {A : Type} (lt : A -> A -> bool).

Fixpoint insert_sorted (x : A) (l : list A) : list A :=
  match l with
  | [] => [x]
  | y :: l' => if lt y x then y :: insert_sorted x l' else x :: l
  end.

Definition sort (l : list A) : list A := foldr insert_sorted [] l.

End Sort.

(** [x] does not come after [y] in the order [klt] of the keys. *)
Definition not_after {A K : Type} (key : A -> K) (klt : K -> K -> bool)
    (x y : A) : Prop :=
  klt (key y) (key x) = false.

(** ** Bounded concurrent runner, sampler, selector and exhaustive prober *)

Module Runner.
Section Runner.

Context `{PyFloat}.
Variable world : Type.
Variable sys : Prober.os world.

(** An entry of the catalog: [peer_data["address"]] and
    [peer_data.get("reliability")]. *)
Record peer : Type := {
  peer_address : string;
  peer_reliability : option string
}.

(** The dictionary [test_single_peer] returns for a reachable peer. *)
Record result : Type := {
  url : string;
  latency : float;
  country : string;
  reliability : string;
  protocol : string
}.

#[global] Instance result_eq_dec : EqDecision result.
Proof. solve_decision. Defined.

(** [test_single_peer], run by a worker that finds the world in state [w]:
    [None] when the address does not parse, a component is empty or zero,
    the protocol is quic, or the connection fails. *)
Definition test_single_peer (w : world) (peer_data : peer) (country : string)
    : Py.outcome (option result) :=
  let peer_url := peer_address peer_data in
  parsed ← Url.parse_peer_url peer_url;
  match parsed with
  | None => Py.Ret None
  | Some (protocol, host, port) =>
      if negb (Url.nonempty protocol) || negb (Url.nonempty host)
         || (port =? 0) || String.eqb protocol "quic"
      then Py.Ret None
      else
        match fst (Prober.test_connection world sys host port protocol 1 w) with
        | Some latency =>
            Py.Ret (Some {| url := peer_url;
                            latency := latency;
                            country := country;
                            reliability := default "N/A"%string (peer_reliability peer_data);
                            protocol := protocol |})
        | None => Py.Ret None
        end
  end.

(** The futures, numbered in submission order, that are still running when
    the timeout of [as_completed] expires; [done] lists the others in the
    order they complete. *)
Definition unfinished (n : nat) (done : list nat) : list nat :=
  filter (fun i => i ∉ done) (seq 0 n).

(** What the loop [for future in as_completed(futures, timeout): try: ...
    except: continue] has appended when the iterator is exhausted: [body] is
    what one iteration appends for the value [future.result()] returns, and
    an exception of [future.result()] is skipped. *)
Definition appended {A B : Type} (futures : list (Py.outcome A))
    (done : list nat) (body : nat -> A -> option B) : list B :=
  omap (fun i => match futures !! i with
                 | Some (Py.Ret a) => body i a
                 | Some (Py.Raise _) | None => None
                 end) done.

(** The loop itself: once the futures that finished in time are consumed,
    the iterator raises [TimeoutError], at the [for] and so outside the
    [try], when any future is left. *)
Definition for_as_completed {A B : Type} (futures : list (Py.outcome A))
    (done : list nat) (body : nat -> A -> option B) : Py.outcome (list B) :=
  match unfinished (length futures) done with
  | [] => Py.Ret (appended futures done body)
  | _ :: _ => Py.Raise Py.TimeoutError
  end.

(** [min(xs)] for a non-empty iterable: the first smallest element. *)
Definition py_min (x : float) (xs : list float) : float :=
  fold_left (fun best y => if flt y best then y else best) xs x.

(** The probes [test_region_fast] and [test_all_peers_in_region] submit: the
    worker of the [i]-th peer starts in [worlds i]. *)
Definition probes (worlds : nat -> world) (country : string) (peers : list peer)
    : list (Py.outcome (option result)) :=
  imap (fun i peer => test_single_peer (worlds i) peer country) peers.

(** [peers[: min(sample_size, len(peers))]] *)
Definition sample (peers : list peer) (sample_size : nat) : list peer :=
  take (sample_size `min` length peers) peers.

(** The end of [test_region_fast]: average, minimum and number of the
    latencies collected, or the infinities and zero. *)
Definition region_stats (results : list result) : float * float * nat :=
  match results with
  | [] => (inf, inf, 0%nat)
  | r :: rs =>
      let avg_latency :=
        fdiv (fsum (latency <$> results)) (of_int (Z.of_nat (length results))) in
      let min_latency := py_min (latency r) (latency <$> rs) in
      (avg_latency, min_latency, length results)
  end.

(** [test_region_fast] *)
Definition test_region_fast (worlds : nat -> world) (done : list nat)
    (country : string) (peers : list peer) (sample_size : nat)
    : Py.outcome (float * float * nat) :=
  results ← for_as_completed (probes worlds country (sample peers sample_size))
              done (fun _ r => r);
  Py.Ret (region_stats results).

(** An entry of [regional_scores]. *)
Record score : Type := {
  score_country : string;
  avg_latency : float;
  min_latency : float;
  successful_tests : nat;
  total_peers : nat
}.

(** [(a, b) < (c, d)] on tuples of floats. *)
Definition tuple_lt (x y : float * float) : bool :=
  if decide (x.1 = y.1) then flt x.2 y.2 else flt x.1 y.1.

(** The key [lambda x: (x[2], x[1])]. *)
Definition score_key (s : score) : float * float := (min_latency s, avg_latency s).

(** What the environment decides for the sampling of one region. *)
Record sampling : Type := {
  probe_worlds : nat -> world;
  probes_done : list nat
}.

(** The regions [find_best_region] submits, in the order of the dictionary. *)
Definition eligible (peers_by_country : gmap string (list peer))
    : list (string * list peer) :=
  filter (fun cp => 2 <= length cp.2)%nat (map_to_list peers_by_country).

(** The region tasks [find_best_region] submits: the [j]-th runs under
    [samplings j]. *)
Definition region_tasks (samplings : nat -> sampling)
    (regions : list (string * list peer)) : list (Py.outcome (float * float * nat)) :=
  imap (fun j cp =>
          test_region_fast (probe_worlds (samplings j)) (probes_done (samplings j))
                           cp.1 cp.2 5) regions.

(** The body of the loop of [find_best_region]: the entry appended for a
    region with a successful test. *)
Definition region_score (peers_by_country : gmap string (list peer))
    (regions : list (string * list peer)) (j : nat) (stats : float * float * nat)
    : option score :=
  let '(avg, mn, successful) := stats in
  match regions !! j with
  | Some cp =>
      if (0 <? successful)%nat
      then Some {| score_country := cp.1; avg_latency := avg; min_latency := mn;
                   successful_tests := successful;
                   total_peers := length (default [] (peers_by_country !! cp.1)) |}
      else None
  | None => None
  end.

(** The entries [regional_scores] holds when the loop of [find_best_region]
    has consumed the region tasks listed in [done]. *)
Definition regional_scores (samplings : nat -> sampling) (done : list nat)
    (peers_by_country : gmap string (list peer)) : list score :=
  appended (region_tasks samplings (eligible peers_by_country)) done
           (region_score peers_by_country (eligible peers_by_country)).

(** [find_best_region]: [done] lists the region tasks that finish in time. *)
Definition find_best_region (samplings : nat -> sampling) (done : list nat)
    (peers_by_country : gmap string (list peer)) : Py.outcome (option string) :=
  let regions := eligible peers_by_country in
  regional_scores ← for_as_completed (region_tasks samplings regions) done
                      (region_score peers_by_country regions);
  match sort (fun a b => tuple_lt (score_key a) (score_key b)) regional_scores with
  | [] => Py.Ret None
  | best :: _ => Py.Ret (Some (score_country best))
  end.

(** [test_all_peers_in_region] *)
Definition test_all_peers_in_region (worlds : nat -> world) (done : list nat)
    (country : string) (peers : list peer) : Py.outcome (list result) :=
  for_as_completed (probes worlds country peers) done (fun _ r => r).

(** [r] is the record of a successful probe of [peer_data] from the world
    [w]: the address parses, the protocol is not quic, the port is not zero
    and the connection succeeds with the latency recorded. *)
Definition successful_probe (w : world) (peer_data : peer) (country' : string)
    (r : result) : Prop :=
  exists host port,
    Url.parse_peer_url (peer_address peer_data)
      = Py.Ret (Some (protocol r, host, port))
    /\ protocol r <> "quic"%string /\ port <> 0
    /\ (Prober.test_connection world sys host port (protocol r) 1 w).1
       = Some (latency r)
    /\ url r = peer_address peer_data /\ country r = country'
    /\ reliability r = default "N/A"%string (peer_reliability peer_data).

(** ** Result ranker: the end of [main] *)

(** The first loop: one result per protocol not seen before, until three are
    kept. *)
Fixpoint pick_protocols (region_results : list result) (seen_protocols : gset string)
    (filtered_results : list result) : list result :=
  match region_results with
  | [] => filtered_results
  | r :: rest =>
      let '(seen, filtered) :=
        if decide (protocol r ∈ seen_protocols)
        then (seen_protocols, filtered_results)
        else ({[protocol r]} ∪ seen_protocols, filtered_results ++ [r]) in
      if (3 <=? length filtered)%nat then filtered
      else pick_protocols rest seen filtered
  end.

(** The second loop: results that are not [in filtered_results], until three
    are kept. *)
Fixpoint add_more (region_results : list result) (filtered_results : list result)
    : list result :=
  match region_results with
  | [] => filtered_results
  | r :: rest =>
      if decide (r ∈ filtered_results) then add_more rest filtered_results
      else
        let filtered := filtered_results ++ [r] in
        if (3 <=? length filtered)%nat then filtered
        else add_more rest filtered
  end.

(** [filtered_results] as [main] prints it, from the [region_results] the
    exhaustive phase returned. *)
Definition filtered_results (region_results : list result) : list result :=
  let sorted := sort (fun a b => flt (latency a) (latency b)) region_results in
  let filtered := pick_protocols sorted ∅ [] in
  if (length filtered <? 3)%nat then add_more sorted filtered else filtered.

(** *** The ranking in the words of the specification *)

Definition sort_by_latency (results : list result) : list result :=
  sort (fun a b => flt (latency a) (latency b)) results.

(** [a] is not slower than [b]. *)
Definition not_slower (a b : result) : Prop := flt (latency b) (latency a) = false.

(** Step 2: walking the sorted list, the first result of each protocol not
    met before is picked, until [k] are picked; the results passed over and
    the ones never reached are the others, in their order. *)
Fixpoint diverse (k : nat) (seen : list string) (results : list result)
    : list result * list result :=
  match results with
  | [] => ([], [])
  | r :: rest =>
      match k with
      | O => ([], results)
      | S k' =>
          if decide (protocol r ∈ seen)
          then let '(picks, others) := diverse k seen rest in (picks, r :: others)
          else let '(picks, others) := diverse k' (protocol r :: seen) rest in
               (r :: picks, others)
      end
  end.

(** Steps 1 to 4: sort, pick across protocols, fill the slots left with the
    next-fastest among the results not picked, in this order. *)
Definition rank (results : list result) : list result :=
  let '(picks, others) := diverse 3 [] (sort_by_latency results) in
  picks ++ take (3 - length picks) others.

(** The results that differ from every result kept before them. *)
Fixpoint fresh (kept : list result) (results : list result) : list result :=
  match results with
  | [] => []
  | r :: rest =>
      if decide (r ∈ kept) then fresh kept rest
      else r :: fresh (kept ++ [r]) rest
  end.

End Runner.

Arguments Build_sampling {world} _ _.
Arguments probe_worlds {world} _ _.
Arguments probes_done {world} _.

End Runner.

(** ** A machine to run the definitions on

    Clock readings and latencies are integers, with an infinity; the world
    is the reading of the clock, in seconds.  A resolution for IPv6 takes
    five seconds and finds nothing, a connect takes one second and fails for
    the host [down.example] only, everything else is immediate. *)

Module Sim.

Inductive ext : Type :=
  | Fin (z : Z)
  | Inf.

#[global] Instance ext_eq_dec : EqDecision ext.
Proof. solve_decision. Defined.

Definition ext_lt (x y : ext) : bool :=
  match x, y with
  | Fin a, Fin b => a <? b
  | Fin _, Inf => true
  | Inf, _ => false
  end.

Definition lift2 (f : Z -> Z -> Z) (x y : ext) : ext :=
  match x, y with
  | Fin a, Fin b => Fin (f a b)
  | _, _ => Inf
  end.

Definition sim_float : PyFloat := {|
  float := ext;
  flt := ext_lt;
  inf := Inf;
  fsub := lift2 Z.sub;
  fmul := lift2 Z.mul;
  fdiv := lift2 Z.div;
  fsum := fun xs => fold_left (lift2 Z.add) xs (Fin 0);
  of_int := Fin;
  flt_irrefl := ltac:(intros [x|]; simpl; [apply Z.ltb_irrefl|reflexivity]);
  flt_trans := ltac:(intros [x|] [y|] [z|]; simpl; try discriminate; try reflexivity;
                     rewrite !Z.ltb_lt; lia);
  flt_connex := ltac:(intros [x|] [y|]; simpl; try discriminate; try reflexivity;
                      rewrite !Z.ltb_ge; intros; f_equal; lia)
|}.

Definition sim_os : @Prober.os sim_float Z :=
  @Prober.Build_os sim_float Z
    (* time_time *) (fun w => (Py.Ret (Fin w), w))
    (* create_default_context *) (fun w => (Py.Ret tt, w))
    (* getaddrinfo *) (fun _ _ _ w => (Py.Raise Py.OSError, w + 5))
    (* socket_socket *) (fun _ w => (Py.Ret tt, w))
    (* settimeout *) (fun _ w => (Py.Ret tt, w))
    (* wrap_socket *) (fun _ w => (Py.Ret tt, w))
    (* connect *) (fun _ host _ w =>
       if String.eqb host "down.example" then (Py.Raise Py.OSError, w + 1)
       else (Py.Ret tt, w + 1))
    (* close *) (fun w => (Py.Ret tt, w)).

(** Peers, schedules and catalogs to run the batches on. *)

Definition up1 : Runner.peer :=
  {| Runner.peer_address := "tcp://up.example:9000"; Runner.peer_reliability := Some "100%"%string |}.
Definition up2 : Runner.peer :=
  {| Runner.peer_address := "tls://[2001:db8::1]:443?key=a"; Runner.peer_reliability := None |}.
Definition down1 : Runner.peer :=
  {| Runner.peer_address := "tcp://down.example:9000"; Runner.peer_reliability := Some "100%"%string |}.
Definition down2 : Runner.peer :=
  {| Runner.peer_address := "tls://down.example:9001"; Runner.peer_reliability := Some "98%"%string |}.

(** Every worker finds the clock at zero. *)
Definition at_zero : nat -> Z := fun _ => 0.

(** Both sampled probes of every region finish in time. *)
Definition both_done : nat -> Runner.sampling Z := fun _ => Runner.Build_sampling at_zero [0; 1]%nat.

(** Only the first sampled probe of every region finishes in time. *)
Definition first_done : nat -> Runner.sampling Z := fun _ => Runner.Build_sampling at_zero [0]%nat.

Definition germany : gmap string (list Runner.peer) := {[ "germany"%string := [up1; down1] ]}.
Definition nowhere : gmap string (list Runner.peer) := {[ "germany"%string := [down1; down2] ]}.

Definition record_up1 : @Runner.result sim_float :=
  @Runner.Build_result sim_float "tcp://up.example:9000" (Fin 6000) "germany" "100%" "tcp".

Definition tcp_at (host : string) (ms : Z) : @Runner.result sim_float :=
  @Runner.Build_result sim_float ("tcp://" +:+ host +:+ ":9000") (Fin ms) "germany" "100%" "tcp".

End Sim.

(** ** Parts and variants of the prober *)

Module ProberVariants.
Section ProberVariants.

Context `{PyFloat} (world : Type).

(** The system [sys] with another resolver. *)
Definition with_getaddrinfo (sys : Prober.os world)
    (resolver : string -> Z -> Prober.family -> Prober.M world unit) : Prober.os world :=
  {| Prober.time_time := Prober.time_time world sys;
     Prober.create_default_context := Prober.create_default_context world sys;
     Prober.getaddrinfo := resolver;
     Prober.socket_socket := Prober.socket_socket world sys;
     Prober.settimeout := Prober.settimeout world sys;
     Prober.wrap_socket := Prober.wrap_socket world sys;
     Prober.connect := Prober.connect world sys;
     Prober.close := Prober.close world sys |}.


End ProberVariants.
End ProberVariants.

(** ** The catalog: [PeerHTMLParser], [fetch_peers] and [get_fallback_peers] *)

Module Html.

(** The exceptions of the handlers. *)
Inductive exn : Type :=
  | TypeError
  | KeyError.

(** The attributes of a start tag as [HTMLParser] hands them over: names in
    lower case, [None] for an attribute written without a value. *)
Definition attrs : Type := list (string * option string).

Inductive event : Type :=
  | StartTag (tag : string) (a : attrs)   (* handle_starttag(tag, attrs) *)
  | Data (data : string)                  (* handle_data(data) *)
  | EndTag (tag : string).                (* handle_endtag(tag) *)

(** [dict(attrs)[name]] when the key is there: the last pair of that name. *)
Fixpoint dict_get (name : string) (a : attrs) : option (option string) :=
  match a with
  | [] => None
  | (k, v) :: rest =>
      match dict_get name rest with
      | Some later => Some later
      | None => if String.eqb k name then Some v else None
      end
  end.

(** [attrs_dict.get("id") == value] *)
Definition id_is (a : attrs) (value : string) : bool :=
  match dict_get "id" a with
  | Some (Some x) => String.eqb x value
  | Some None | None => false
  end.

(** [s.startswith(pre)] *)
Definition starts_with (pre s : string) : bool :=
  match Url.lit pre s with
  | Some _ => true
  | None => false
  end.

(** [s.endswith(c)] for one character. *)
Fixpoint ends_with (c : ascii) (s : string) : bool :=
  match s with
  | EmptyString => false
  | String d EmptyString => Ascii.eqb d c
  | String _ rest => ends_with c rest
  end.

(** [needle in hay] *)
Fixpoint contains (needle hay : string) : bool :=
  starts_with needle hay
  || match hay with
     | EmptyString => false
     | String _ rest => contains needle rest
     end.

(** [c.isspace()], on the code points below 256. *)
Definition is_space (c : ascii) : bool :=
  let n := Py.code c in
  Py.between 9 13 n || Py.between 28 32 n || (n =? 133)%N || (n =? 160)%N.

Fixpoint lstrip (s : string) : string :=
  match s with
  | EmptyString => EmptyString
  | String c rest => if is_space c then lstrip rest else s
  end.

Fixpoint rstrip (s : string) : string :=
  match s with
  | EmptyString => EmptyString
  | String c rest =>
      match rstrip rest with
      | EmptyString => if is_space c then EmptyString else String c EmptyString
      | kept => String c kept
      end
  end.

(** [s.strip()] *)
Definition strip (s : string) : string := rstrip (lstrip s).

(** [data.startswith(("tcp://", "tls://", "ws://", "wss://", "quic://"))] *)
Definition known_scheme (data : string) : bool :=
  starts_with "tcp://" data || starts_with "tls://" data || starts_with "ws://" data
  || starts_with "wss://" data || starts_with "quic://" data.

(** The attributes of a [PeerHTMLParser]; a peer is a dictionary of
    strings. *)
Record parser : Type := {
  peers_by_country : gmap string (list (gmap string string));
  current_country : option string;
  in_country_header : bool;
  in_address_cell : bool;
  in_status_cell : bool;
  in_reliability_cell : bool;
  current_peer : gmap string string
}.

(** [__init__] *)
Definition init : parser :=
  {| peers_by_country := ∅; current_country := None;
     in_country_header := false; in_address_cell := false;
     in_status_cell := false; in_reliability_cell := false;
     current_peer := ∅ |}.

Definition set_flags (st : parser) (country address status reliability : bool) : parser :=
  {| peers_by_country := peers_by_country st; current_country := current_country st;
     in_country_header := country; in_address_cell := address;
     in_status_cell := status; in_reliability_cell := reliability;
     current_peer := current_peer st |}.

Definition set_current_peer (st : parser) (p : gmap string string) : parser :=
  {| peers_by_country := peers_by_country st; current_country := current_country st;
     in_country_header := in_country_header st; in_address_cell := in_address_cell st;
     in_status_cell := in_status_cell st; in_reliability_cell := in_reliability_cell st;
     current_peer := p |}.

Definition set_catalog (st : parser) (catalog : gmap string (list (gmap string string)))
    (country : option string) : parser :=
  {| peers_by_country := catalog; current_country := country;
     in_country_header := in_country_header st; in_address_cell := in_address_cell st;
     in_status_cell := in_status_cell st; in_reliability_cell := in_reliability_cell st;
     current_peer := current_peer st |}.

(** [handle_starttag]: [in] on the [None] of a [class] without a value
    raises [TypeError]. *)
Definition handle_starttag (tag : string) (a : attrs) (st : parser) : exn + parser :=
  if String.eqb tag "th" && id_is a "country" then
    inr (set_flags st true (in_address_cell st) (in_status_cell st) (in_reliability_cell st))
  else if String.eqb tag "td" && id_is a "address" then
    inr (set_flags st (in_country_header st) true (in_status_cell st) (in_reliability_cell st))
  else if String.eqb tag "td" && id_is a "status" then
    inr (set_flags st (in_country_header st) (in_address_cell st) true (in_reliability_cell st))
  else if String.eqb tag "td" && id_is a "reliability" then
    inr (set_flags st (in_country_header st) (in_address_cell st) (in_status_cell st) true)
  else if String.eqb tag "tr" then
    match dict_get "class" a with
    | Some None => inl TypeError
    | Some (Some class_attr) =>
        if contains "statusgood" class_attr || contains "statusavg" class_attr
        then inr (set_current_peer st {[ "status_class"%string := class_attr ]})
        else inr st
    | None => inr st            (* the default, the empty string, holds neither *)
    end
  else inr st.

(** [handle_data] *)
Definition handle_data (raw : string) (st : parser) : exn + parser :=
  let data := strip raw in
  if negb (Url.nonempty data) then inr st
  else if in_country_header st then
    inr (set_catalog st
           (match peers_by_country st !! data with
            | Some _ => peers_by_country st
            | None => <[ data := [] ]> (peers_by_country st)
            end)
           (Some data))
  else if in_address_cell st && known_scheme data then
    inr (set_current_peer st (<[ "address"%string := data ]> (current_peer st)))
  else if in_status_cell st then
    inr (set_current_peer st (<[ "status"%string := data ]> (current_peer st)))
  else if in_reliability_cell st && ends_with "%" data then
    let peer := <[ "reliability"%string := data ]> (current_peer st) in
    match current_country st with
    | Some country =>
        if Url.nonempty country
           && bool_decide (is_Some (peer !! "address"%string))
           && bool_decide (is_Some (peer !! "status"%string))
           && contains "statusgood" (default EmptyString (peer !! "status_class"%string))
        then
          match peers_by_country st !! country with
          | Some peers =>
              inr (set_current_peer
                     (set_catalog st (<[ country := peers ++ [peer] ]> (peers_by_country st))
                                  (current_country st))
                     ∅)
          | None => inl KeyError
          end
        else inr (set_current_peer st ∅)
    | None => inr (set_current_peer st ∅)
    end
  else inr st.

(** [handle_endtag] *)
Definition handle_endtag (tag : string) (st : parser) : parser :=
  if String.eqb tag "th" then
    set_flags st false (in_address_cell st) (in_status_cell st) (in_reliability_cell st)
  else if String.eqb tag "td" then
    set_flags st (in_country_header st) false false false
  else st.

Definition handle (e : event) (st : parser) : exn + parser :=
  match e with
  | StartTag tag a => handle_starttag tag a st
  | Data data => handle_data data st
  | EndTag tag => inr (handle_endtag tag st)
  end.

(** The handlers of [feed], run over the calls the inherited tokenizer
    makes for a page; what the tokenizer itself raises is in [feed_text]. *)
Fixpoint feed (events : list event) (st : parser) : exn + parser :=
  match events with
  | [] => inr st
  | e :: rest =>
      match handle e st with
      | inl x => inl x
      | inr st' => feed rest st'
      end
  end.

(** What the inherited tokenizer does with a text: the calls of the handlers
    it makes, and whether it raises after them, as [_markupbase] does with
    [AssertionError] at a marked section it does not know. *)
Record tokenized : Type := {
  calls : list event;
  tokenizer_raises : bool
}.

(** An exception of [feed]: one of a handler, or the tokenizer's own. *)
Inductive feed_exn : Type :=
  | Handler (e : exn)
  | Tokenizer.

(** [feed] on a text: the handlers run in the order of the calls, the first
    exception of one of them ends the call, and the tokenizer raises, if it
    does, after the calls it has made. *)
Definition feed_text (text : tokenized) (st : parser) : feed_exn + parser :=
  match feed (calls text) st with
  | inl e => inl (Handler e)
  | inr st' => if tokenizer_raises text then inl Tokenizer else inr st'
  end.

(** A peer of [get_fallback_peers]. *)
Definition fallback_peer (address : string) : gmap string string :=
  {[ "address"%string := address; "reliability"%string := "100%"%string ]}.

(** [get_fallback_peers] *)
Definition get_fallback_peers : gmap string (list (gmap string string)) :=
  {[ "united-states"%string :=
       [fallback_peer "tls://ygg.jjolly.dev:3443";
        fallback_peer "tls://23.184.48.86:993";
        fallback_peer "tls://44.234.134.124:443";
        fallback_peer "tcp://mo.us.ygg.triplebit.org:9000";
        fallback_peer "tls://mo.us.ygg.triplebit.org:993"];
     "germany"%string :=
       [fallback_peer "tls://ygg.mkg20001.io:443";
        fallback_peer "tcp://ygg.mkg20001.io:80";
        fallback_peer "tls://yggdrasil.su:62586";
        fallback_peer "tcp://yggdrasil.su:62486"];
     "netherlands"%string :=
       [fallback_peer "tls://vpn.itrus.su:7992";
        fallback_peer "tcp://vpn.itrus.su:7991";
        fallback_peer "tls://23.137.249.65:444"];
     "france"%string :=
       [fallback_peer "tls://s2.i2pd.xyz:39575";
        fallback_peer "tcp://s2.i2pd.xyz:39565";
        fallback_peer "tls://51.15.204.214:54321"] ]}.

(** [fetch_peers]: [https] and [http] are the pages the two requests give,
    [None] when the request or the decoding raises; the second request is
    made when the first raises.  Any exception gives the fallback; a run in
    which the tokenizer itself raises ends, with the fallback, like one in
    which both requests raise. *)
Definition fetch_peers (https http : option (list event))
    : gmap string (list (gmap string string)) :=
  match (match https with Some page => Some page | None => http end) with
  | None => get_fallback_peers
  | Some page =>
      match feed page init with
      | inl _ => get_fallback_peers
      | inr st => filter (fun cp => cp.2 <> []) (peers_by_country st)
      end
  end.

(** What [test_single_peer] reads of a peer: [peer_data["address"]], which
    has to be there, and [peer_data.get("reliability")]. *)
Definition peer_of (peer_data : gmap string string) : option Runner.peer :=
  address ← peer_data !! "address"%string;
  Some {| Runner.peer_address := address;
          Runner.peer_reliability := peer_data !! "reliability"%string |}.

(** A stored peer as the handlers leave it: an address with one of the five
    schemes, a status, a class of the row that holds [statusgood] and a
    reliability that ends in the percent sign. *)
Definition good_peer (p : gmap string string) : Prop :=
  (exists a, p !! "address"%string = Some a /\ known_scheme a = true)
  /\ is_Some (p !! "status"%string)
  /\ (exists c, p !! "status_class"%string = Some c /\ contains "statusgood" c = true)
  /\ (exists r, p !! "reliability"%string = Some r /\ ends_with "%" r = true).

(** The start tag of a row whose [class] attribute has no value. *)
Definition bare_class_row (e : event) : Prop :=
  exists a, e = StartTag "tr" a /\ dict_get "class" a = Some None.

(** The start tag of a row whose [class] holds [statusgood]. *)
Definition good_row (e : event) : Prop :=
  exists a class_attr, e = StartTag "tr" a /\ dict_get "class" a = Some (Some class_attr)
    /\ contains "statusgood" class_attr = true.

(** What holds of a parser between two calls of its handlers: the peers
    stored are good ones under countries with a name, the current country
    has its list, and the address of the peer being read has a known
    scheme. *)
Record invariant (st : parser) : Prop := {
  inv_stored : forall c ps, peers_by_country st !! c = Some ps ->
                 c <> EmptyString /\ Forall good_peer ps;
  inv_country : forall c, current_country st = Some c ->
                  is_Some (peers_by_country st !! c);
  inv_address : forall a, current_peer st !! "address"%string = Some a ->
                  known_scheme a = true
}.

(** A cell of the table and a row of its three cells, as the tokenizer
    reports them. *)
Definition cell (id data : string) : list event :=
  [StartTag "td" [("id"%string, Some id)]; Data data; EndTag "td"].

Definition row (class_attr address status reliability : string) : list event :=
  StartTag "tr" [("class"%string, Some class_attr)]
  :: cell "address" address ++ cell "status" status
  ++ cell "reliability" reliability ++ [EndTag "tr"].

(** The peer the parser builds from such a row. *)
Definition row_peer (class_attr address status reliability : string)
    : gmap string string :=
  {[ "reliability"%string := strip reliability; "status"%string := strip status;
     "address"%string := strip address; "status_class"%string := class_attr ]}.

(** A peer as the runner needs it: an address with a known scheme, and a
    reliability that ends with the percent sign. *)
Definition listed_peer (p : gmap string string) : Prop :=
  exists a r, p !! "address"%string = Some a /\ known_scheme a = true
    /\ p !! "reliability"%string = Some r /\ ends_with "%" r = true.

End Html.

(** ** The program: [main] *)

Module Main.
Section Main.

Context `{PyFloat}.
Variable world : Type.
Variable sys : Prober.os world.

(** The catalog as the runner reads it.  A peer without an address, which
    [fetch_peers] never lists, has no counterpart. *)
Definition catalog (peers_by_country : gmap string (list (gmap string string)))
    : gmap string (list Runner.peer) :=
  (fun peers : list (gmap string string) => omap Html.peer_of peers)
    <$> peers_by_country.

(** An exception that leaves [main]: one a callee raised, or the [KeyError]
    of [peers_by_country[best_region]]. *)
Inductive failure : Type :=
  | Propagated (e : Py.exn)
  | KeyError.

(** How a run ends: [sys.exit(status)] after a message, the shortlist and the
    configuration line printed, or an exception nobody catches. *)
Inductive run : Type :=
  | Exit (status : Z) (message : string)
  | Printed (best_region : string) (shortlist : list Runner.result)
            (config_line : string)
  | Uncaught (f : failure).

(** [sep.join(parts)] *)
Fixpoint join (sep : string) (parts : list string) : string :=
  match parts with
  | [] => EmptyString
  | [p] => p
  | p :: rest => p +:+ sep +:+ join sep rest
  end.

(** The double quote. *)
Definition dq : ascii := ascii_of_nat 34.

(** The peer between double quotes. *)
Definition quoted (peer : string) : string :=
  String dq (peer +:+ String dq EmptyString).

(** [config_line]; its nested quotes are accepted from Python 3.12 on. *)
Definition config_line (peer_urls : list string) : string :=
  "  Peers: [" +:+ join ", " (quoted <$> peer_urls) +:+ "]".

(** [main] from the catalog on: [samplings] and [regions_done] are the
    schedule of the selection, [worlds] and [peers_done] the schedule of the
    exhaustive phase. *)
Definition main_from (peers_by_country : gmap string (list Runner.peer))
    (samplings : nat -> Runner.sampling world) (regions_done : list nat)
    (worlds : nat -> world) (peers_done : list nat) : run :=
  match Runner.find_best_region world sys samplings regions_done peers_by_country with
  | Py.Raise e => Uncaught (Propagated e)
  | Py.Ret None => Exit 1 "No suitable regions found."
  | Py.Ret (Some best_region) =>
      if negb (Url.nonempty best_region) then Exit 1 "No suitable regions found."
      else
        match peers_by_country !! best_region with
        | None => Uncaught KeyError
        | Some peers =>
            match Runner.test_all_peers_in_region world sys worlds peers_done
                    best_region peers with
            | Py.Raise e => Uncaught (Propagated e)
            | Py.Ret [] => Exit 1 ("No working peers found in " +:+ best_region)
            | Py.Ret region_results =>
                let filtered_results := Runner.filtered_results region_results in
                Printed best_region filtered_results
                        (config_line (Runner.url <$> filtered_results))
            end
        end
  end.

(** [main], for a command line that [argparse] accepts: the pages the two
    requests give, then the schedules.  Of what is printed, the shortlist and
    the configuration line are kept. *)
Definition main (https http : option (list Html.event))
    (samplings : nat -> Runner.sampling world) (regions_done : list nat)
    (worlds : nat -> world) (peers_done : list nat) : run :=
  main_from (catalog (Html.fetch_peers https http))
            samplings regions_done worlds peers_done.

(** The four schemes a probe is made for. *)
Definition probed_scheme (protocol : string) : Prop :=
  protocol = "tcp"%string \/ protocol = "tls"%string
  \/ protocol = "ws"%string \/ protocol = "wss"%string.

End Main.
End Main.

(** ** Pages, results and resolvers to run the definitions on *)

Module Cases.
Import Sim.

(** A result of the given protocol. *)
Definition result_at (protocol host : string) (ms : Z) : @Runner.result sim_float :=
  @Runner.Build_result sim_float (protocol +:+ "://" +:+ host +:+ ":9000") (Fin ms)
    "germany" "100%" protocol.

(** The header of a country, as the tokenizer reports it. *)
Definition country_header (country : string) : list Html.event :=
  [Html.StartTag "th" [("id"%string, Some "country"%string)];
   Html.Data country; Html.EndTag "th"].

(** A page with two peers online in one country, and a third that is not. *)
Definition page : list Html.event :=
  country_header "germany"
  ++ Html.row "statusgood" " tcp://up.example:9000 " "online" "100%"
  ++ Html.row "statusavg" "tls://slow.example:443" "degraded" "71%"
  ++ Html.row "statusgood" "tcp://down.example:9000" "online" "100%".

(** A page with no peer online. *)
Definition page_offline : list Html.event :=
  country_header "germany"
  ++ Html.row "statusavg" "tls://slow.example:443" "degraded" "71%".

(** A page with a row whose class has no value. *)
Definition page_bare : list Html.event :=
  country_header "germany" ++ [Html.StartTag "tr" [("class"%string, None)]].

(** The parser after a page it accepts. *)
Definition parsed (events : list Html.event) : Html.parser :=
  match Html.feed events Html.init with
  | inr st => st
  | inl _ => Html.init
  end.

(** A resolver that takes a hundred seconds and succeeds. *)
Definition slow_resolver : string -> Z -> Prober.family -> Prober.M Z unit :=
  fun _ _ _ w => (Py.Ret tt, w + 100).

(** A catalog of two regions with the same peers. *)
Definition twins : gmap string (list Runner.peer) :=
  {[ "germany"%string := [up1; down1]; "iceland"%string := [up1; down1] ]}.

(** A run of [n] digits. *)
Fixpoint ones (n : nat) : string :=
  match n with
  | O => EmptyString
  | S n' => String "1" (ones n')
  end.

(** A peer whose port has one digit more than [int] converts. *)
Definition overlong : Runner.peer :=
  {| Runner.peer_address := "tcp://up.example:" +:+ ones 4301;
     Runner.peer_reliability := Some "100%"%string |}.

(** A catalog without a region of two peers. *)
Definition lonely : gmap string (list Runner.peer) := {[ "tonga"%string := [up2] ]}.

End Cases.

(** * Properties *)

(** ** Parsing *)

Module UrlFacts.
Import Url.

Lemma span_spec p s a b :
  span p s = (a, b) -> s = a +:+ b /\ every p a = true /\ stops p b = true.
Proof.
  revert a b; induction s as [|c s IH]; intros a b; simpl.
  - intros [= <- <-]; auto.
  - destruct (p c) eqn:Hc.
    + destruct (span p s) as [a' b'] eqn:Hs.
      intros [= <- <-]. destruct (IH _ _ eq_refl) as (-> & Ha & Hb).
      simpl. rewrite Hc, Ha. auto.
    + intros [= <- <-]. simpl. rewrite Hc. auto.
Qed.

Lemma span_app p a b :
  every p a = true -> stops p b = true -> span p (a +:+ b) = (a, b).
Proof.
  intros Ha Hb; induction a as [|c a IH]; simpl in *.
  - destruct b as [|c b]; simpl in *; [done|].
    apply negb_true_iff in Hb. by rewrite Hb.
  - apply andb_true_iff in Ha as [Hc Ha]. by rewrite Hc, (IH Ha).
Qed.

Lemma lit_app pre r : lit pre (pre +:+ r) = Some r.
Proof. induction pre as [|c pre IH]; simpl; [done|]. by rewrite Ascii.eqb_refl. Qed.

Lemma lit_spec pre s r : lit pre s = Some r -> s = pre +:+ r.
Proof.
  revert s; induction pre as [|c pre IH]; intros s; simpl.
  - by intros [= ->].
  - destruct s as [|d s]; [done|].
    destruct (Ascii.eqb c d) eqn:E; [|done].
    apply Ascii.eqb_eq in E as ->. intros Hl. by rewrite (IH _ Hl).
Qed.

(** A run of the class in front of any text is found, possibly longer. *)
Lemma span_app_more p a b :
  every p a = true -> exists a' b', span p (a +:+ b) = (a +:+ a', b')
    /\ b = a' +:+ b' /\ every p a' = true /\ stops p b' = true.
Proof.
  intros Ha; induction a as [|c a IH]; simpl in *.
  - destruct (span p b) as [a' b'] eqn:Hs. exists a', b'.
    by destruct (span_spec _ _ _ _ Hs) as (-> & ? & ?).
  - apply andb_true_iff in Ha as [Hc Ha]. rewrite Hc.
    destruct (IH Ha) as (a' & b' & -> & ? & ? & ?). by exists a', b'.
Qed.

Lemma nonempty_app a b : nonempty a = true -> nonempty (a +:+ b) = true.
Proof. by destruct a. Qed.

(** What the scanner of the second pattern finds is a decomposition of the
    text, and the greedy one. *)
Lemma match_plain_spec url scheme host port rest :
  match_plain url = Some (scheme, host, port, rest) <->
  url = scheme +:+ "://" +:+ host +:+ ":" +:+ port +:+ rest
  /\ some_of Py.is_word scheme /\ some_of not_colon host
  /\ some_of Py.is_digit port /\ stops Py.is_digit rest = true.
Proof.
  unfold match_plain, some_of. split.
  - destruct (span Py.is_word url) as [s r0] eqn:H0.
    destruct (nonempty s) eqn:Ns; cbn [negb]; [|done].
    destruct (lit "://" r0) as [r1|] eqn:H1; [|done].
    destruct (span not_colon r1) as [h r2] eqn:H2.
    destruct (nonempty h) eqn:Nh; cbn [negb]; [|done].
    destruct (lit ":" r2) as [r3|] eqn:H3; [|done].
    destruct (span Py.is_digit r3) as [d r4] eqn:H4.
    destruct (nonempty d) eqn:Nd; cbn [negb]; [|done].
    intros [= <- <- <- <-].
    apply span_spec in H0 as (-> & ? & ?), H2 as (-> & ? & ?), H4 as (-> & ? & ?).
    apply lit_spec in H1 as ->, H3 as ->. done.
  - intros (-> & [Ns Ws] & [Nh Wh] & [Nd Wd] & Hr).
    rewrite (span_app Py.is_word scheme) by done. rewrite Ns. cbn [negb].
    rewrite (lit_app "://").
    rewrite (span_app _ host) by done. rewrite Nh. cbn [negb].
    rewrite (lit_app ":").
    rewrite (span_app _ port) by done. by rewrite Nd.
Qed.

Lemma match_ipv6_spec url scheme host port rest :
  match_ipv6 url = Some (scheme, host, port, rest) <->
  url = scheme +:+ "://[" +:+ host +:+ "]:" +:+ port +:+ rest
  /\ some_of Py.is_word scheme /\ some_of not_rbracket host
  /\ some_of Py.is_digit port /\ stops Py.is_digit rest = true.
Proof.
  unfold match_ipv6, some_of. split.
  - destruct (span Py.is_word url) as [s r0] eqn:H0.
    destruct (nonempty s) eqn:Ns; cbn [negb]; [|done].
    destruct (lit "://[" r0) as [r1|] eqn:H1; [|done].
    destruct (span not_rbracket r1) as [h r2] eqn:H2.
    destruct (nonempty h) eqn:Nh; cbn [negb]; [|done].
    destruct (lit "]:" r2) as [r3|] eqn:H3; [|done].
    destruct (span Py.is_digit r3) as [d r4] eqn:H4.
    destruct (nonempty d) eqn:Nd; cbn [negb]; [|done].
    intros [= <- <- <- <-].
    apply span_spec in H0 as (-> & ? & ?), H2 as (-> & ? & ?), H4 as (-> & ? & ?).
    apply lit_spec in H1 as ->, H3 as ->. done.
  - intros (-> & [Ns Ws] & [Nh Wh] & [Nd Wd] & Hr).
    rewrite (span_app Py.is_word scheme) by done. rewrite Ns. cbn [negb].
    rewrite (lit_app "://[").
    rewrite (span_app _ host) by done. rewrite Nh. cbn [negb].
    rewrite (lit_app "]:").
    rewrite (span_app _ port) by done. by rewrite Nd.
Qed.

Lemma digits_fold_nonneg port acc :
  every Py.is_digit port = true -> 0 <= acc ->
  0 <= fold_left (fun a c => 10 * a + Py.digit_value c) (list_ascii_of_string port) acc.
Proof.
  revert acc; induction port as [|c port IH]; intros acc Hd Hacc; simpl in *; [done|].
  apply andb_true_iff in Hd as [Hc Hd]. apply IH; [done|].
  unfold Py.is_digit, Py.between, Py.digit_value in *.
  apply andb_true_iff in Hc as [Hlo _]. apply N.leb_le in Hlo. lia.
Qed.

Lemma digits_value_nonneg port :
  every Py.is_digit port = true -> 0 <= Py.digits_value port.
Proof. intros Hd. by apply digits_fold_nonneg. Qed.

Lemma int_Ret port n : Py.int port = Py.Ret n ->
  n = Py.digits_value port /\ (String.length port <= Py.int_max_str_digits)%nat.
Proof.
  unfold Py.int. destruct (Nat.ltb_spec Py.int_max_str_digits (String.length port)); [done|].
  by intros [= <-].
Qed.

Lemma int_short port : (String.length port <= Py.int_max_str_digits)%nat ->
  Py.int port = Py.Ret (Py.digits_value port).
Proof.
  unfold Py.int. destruct (Nat.ltb_spec Py.int_max_str_digits (String.length port)); [lia|done].
Qed.

Lemma int_Raise port e : Py.int port = Py.Raise e ->
  e = Py.ValueError /\ (Py.int_max_str_digits < String.length port)%nat.
Proof.
  unfold Py.int. destruct (Nat.ltb_spec Py.int_max_str_digits (String.length port)); [|done].
  by intros [= <-].
Qed.

(** The two ways [parse_peer_url] returns a descriptor. *)
Lemma parse_Some_inv url p h n :
  parse_peer_url url = Py.Ret (Some (p, h, n)) ->
  exists port rest,
    n = Py.digits_value port
    /\ (String.length port <= Py.int_max_str_digits)%nat
    /\ some_of Py.is_word p /\ some_of Py.is_digit port
    /\ stops Py.is_digit rest = true
    /\ ((url = p +:+ "://[" +:+ h +:+ "]:" +:+ port +:+ rest /\ some_of not_rbracket h)
        \/ (url = p +:+ "://" +:+ h +:+ ":" +:+ port +:+ rest /\ some_of not_colon h)).
Proof.
  unfold parse_peer_url.
  destruct (match_ipv6 url) as [[[[s6 h6] d6] r6]|] eqn:H6.
  - destruct (Py.int d6) as [m|] eqn:Hi; [|done]. intros [= <- <- <-].
    apply int_Ret in Hi as [-> ?]. apply match_ipv6_spec in H6 as (-> & ? & ? & ? & ?).
    exists d6, r6. auto 10.
  - destruct (match_plain url) as [[[[s4 h4] d4] r4]|] eqn:H4; [|done].
    destruct (Py.int d4) as [m|] eqn:Hi; [|done]. intros [= <- <- <-].
    apply int_Ret in Hi as [-> ?]. apply match_plain_spec in H4 as (-> & ? & ? & ? & ?).
    exists d4, r4. auto 10.
Qed.

(** The bracketed pattern does not match a host that opens without a
    bracket. *)
Lemma match_ipv6_plain scheme host tail :
  some_of Py.is_word scheme -> nonempty host = true -> begins_with "[" host = false ->
  match_ipv6 (scheme +:+ "://" +:+ host +:+ tail) = None.
Proof.
  intros [Ns Ws] Nh Hb. unfold match_ipv6.
  rewrite (span_app Py.is_word scheme) by done. rewrite Ns. cbn [negb].
  destruct host as [|c host]; [done|]. cbn [begins_with] in Hb.
  change (lit "://[" ("://" +:+ String c host +:+ tail))
    with (lit "[" (String c (host +:+ tail))).
  cbn [lit]. by rewrite Ascii.eqb_sym, Hb.
Qed.

Lemma parse_plain scheme host port rest :
  some_of Py.is_word scheme ->
  some_of not_colon host -> begins_with "[" host = false ->
  some_of Py.is_digit port -> (String.length port <= Py.int_max_str_digits)%nat ->
  stops Py.is_digit rest = true ->
  parse_peer_url (scheme +:+ "://" +:+ host +:+ ":" +:+ port +:+ rest)
  = Py.Ret (Some (scheme, host, Py.digits_value port)).
Proof.
  intros Hs Hh Hb Hp Hl Hr. unfold parse_peer_url.
  rewrite match_ipv6_plain; [|done|apply Hh|done].
  rewrite (proj2 (match_plain_spec _ scheme host port rest)) by done.
  by rewrite int_short.
Qed.

Lemma parse_bracketed scheme host port rest :
  some_of Py.is_word scheme -> some_of not_rbracket host ->
  some_of Py.is_digit port -> (String.length port <= Py.int_max_str_digits)%nat ->
  stops Py.is_digit rest = true ->
  parse_peer_url (scheme +:+ "://[" +:+ host +:+ "]:" +:+ port +:+ rest)
  = Py.Ret (Some (scheme, host, Py.digits_value port)).
Proof.
  intros Hs Hh Hp Hl Hr. unfold parse_peer_url.
  rewrite (proj2 (match_ipv6_spec _ scheme host port rest)) by done.
  by rewrite int_short.
Qed.

Lemma query_stops q : query q -> stops Py.is_digit q = true.
Proof. by intros [->|[q' ->]]. Qed.

Lemma every_app p a b : every p (a +:+ b) = every p a && every p b.
Proof.
  induction a as [|c a IH]; [done|].
  change (every p (String c a +:+ b)) with (p c && every p (a +:+ b)).
  by rewrite IH, andb_assoc.
Qed.

Lemma append_assoc (a b c : string) : (a +:+ b) +:+ c = a +:+ b +:+ c.
Proof.
  induction a as [|x a IH]; [done|].
  change (String x ((a +:+ b) +:+ c) = String x (a +:+ b +:+ c)). by rewrite IH.
Qed.

(** The scanners find an address whenever the text begins with one. *)
Lemma match_plain_complete scheme host port rest :
  some_of Py.is_word scheme -> some_of not_colon host -> some_of Py.is_digit port ->
  is_Some (match_plain (scheme +:+ "://" +:+ host +:+ ":" +:+ port +:+ rest)).
Proof.
  intros Hs Hh [Np Hp].
  destruct (span_app_more Py.is_digit port rest Hp) as (a' & b' & Hsp & -> & Ha' & Hb').
  exists (scheme, host, port +:+ a', b'). apply match_plain_spec.
  rewrite append_assoc. repeat split; try done; try apply Hs; try apply Hh.
  - by apply nonempty_app.
  - by rewrite every_app, Hp, Ha'.
Qed.

Lemma match_ipv6_complete scheme host port rest :
  some_of Py.is_word scheme -> some_of not_rbracket host -> some_of Py.is_digit port ->
  is_Some (match_ipv6 (scheme +:+ "://[" +:+ host +:+ "]:" +:+ port +:+ rest)).
Proof.
  intros Hs Hh [Np Hp].
  destruct (span_app_more Py.is_digit port rest Hp) as (a' & b' & Hsp & -> & Ha' & Hb').
  exists (scheme, host, port +:+ a', b'). apply match_ipv6_spec.
  rewrite append_assoc. repeat split; try done; try apply Hs; try apply Hh.
  - by apply nonempty_app.
  - by rewrite every_app, Hp, Ha'.
Qed.

Lemma parse_None_iff url :
  parse_peer_url url = Py.Ret None <-> ~ begins_with_address url.
Proof.
  unfold parse_peer_url, begins_with_address. split.
  - intros Hp [(s & h & d & r & -> & Hs & Hh & Hd)|(s & h & d & r & -> & Hs & Hh & Hd)].
    + destruct (match_plain_complete s h d r Hs Hh Hd) as [[[[s4 h4] d4] r4] H4].
      rewrite H4 in Hp.
      destruct (match_ipv6 _) as [[[[s6 h6] d6] r6]|].
      * by destruct (Py.int d6).
      * by destruct (Py.int d4).
    + destruct (match_ipv6_complete s h d r Hs Hh Hd) as [[[[s6 h6] d6] r6] H6].
      rewrite H6 in Hp. by destruct (Py.int d6).
  - intros Hn.
    destruct (match_ipv6 url) as [[[[s6 h6] d6] r6]|] eqn:H6.
    { apply match_ipv6_spec in H6 as (-> & ? & ? & ? & ?).
      destruct Hn. right. by exists s6, h6, d6, r6. }
    destruct (match_plain url) as [[[[s4 h4] d4] r4]|] eqn:H4; [|done].
    apply match_plain_spec in H4 as (-> & ? & ? & ? & ?).
    destruct Hn. left. by exists s4, h4, d4, r4.
Qed.

Lemma parse_Raise_inv url e :
  parse_peer_url url = Py.Raise e ->
  e = Py.ValueError /\ begins_with_address url
  /\ exists port, every Py.is_digit port = true
       /\ (Py.int_max_str_digits < String.length port)%nat.
Proof.
  unfold parse_peer_url, begins_with_address.
  destruct (match_ipv6 url) as [[[[s6 h6] d6] r6]|] eqn:H6.
  - destruct (Py.int d6) as [m|e'] eqn:Hi; [done|]. intros [= <-].
    apply int_Raise in Hi as [-> ?]. apply match_ipv6_spec in H6 as (-> & ? & ? & [? ?] & ?).
    split; [done|]. split; [right; by exists s6, h6, d6, r6|]. by exists d6.
  - destruct (match_plain url) as [[[[s4 h4] d4] r4]|] eqn:H4; [|done].
    destruct (Py.int d4) as [m|e'] eqn:Hi; [done|]. intros [= <-].
    apply int_Raise in Hi as [-> ?]. apply match_plain_spec in H4 as (-> & ? & ? & [? ?] & ?).
    split; [done|]. split; [left; by exists s4, h4, d4, r4|]. by exists d4.
Qed.

Lemma scheme_unique scheme rest p tail :
  every Py.is_word scheme = true -> every Py.is_word p = true ->
  scheme +:+ "://" +:+ rest = p +:+ "://" +:+ tail -> p = scheme.
Proof.
  intros Hs Hp E.
  assert (H1 := span_app Py.is_word scheme ("://" +:+ rest) Hs eq_refl).
  assert (H2 := span_app Py.is_word p ("://" +:+ tail) Hp eq_refl).
  rewrite E in H1. congruence.
Qed.

(** C5, as stated, fails: a port above 65535 is returned in a descriptor. *)
Lemma parse_port_out_of_range :
  ~ (forall url p h n,
       parse_peer_url url = Py.Ret (Some (p, h, n)) -> 0 < n <= 65535).
Proof.
  intros C. specialize (C "tcp://203.0.113.7:70000" "tcp" "203.0.113.7" 70000 eq_refl). lia.
Qed.

Lemma int_long port : (Py.int_max_str_digits < String.length port)%nat ->
  Py.int port = Py.Raise Py.ValueError.
Proof.
  unfold Py.int. destruct (Nat.ltb_spec Py.int_max_str_digits (String.length port)); [done|lia].
Qed.

Lemma parse_plain_long scheme host port rest :
  some_of Py.is_word scheme ->
  some_of not_colon host -> begins_with "[" host = false ->
  some_of Py.is_digit port -> (Py.int_max_str_digits < String.length port)%nat ->
  stops Py.is_digit rest = true ->
  parse_peer_url (scheme +:+ "://" +:+ host +:+ ":" +:+ port +:+ rest)
  = Py.Raise Py.ValueError.
Proof.
  intros Hs Hh Hb Hp Hl Hr. unfold parse_peer_url.
  rewrite match_ipv6_plain; [|done|apply Hh|done].
  rewrite (proj2 (match_plain_spec _ scheme host port rest)) by done.
  by rewrite int_long.
Qed.

Lemma parse_bracketed_long scheme host port rest :
  some_of Py.is_word scheme -> some_of not_rbracket host ->
  some_of Py.is_digit port -> (Py.int_max_str_digits < String.length port)%nat ->
  stops Py.is_digit rest = true ->
  parse_peer_url (scheme +:+ "://[" +:+ host +:+ "]:" +:+ port +:+ rest)
  = Py.Raise Py.ValueError.
Proof.
  intros Hs Hh Hp Hl Hr. unfold parse_peer_url.
  rewrite (proj2 (match_ipv6_spec _ scheme host port rest)) by done.
  by rewrite int_long.
Qed.

(** The two ways [parse_peer_url] raises. *)
Lemma parse_Raise_shape url e :
  parse_peer_url url = Py.Raise e ->
  e = Py.ValueError
  /\ exists scheme host port rest,
       some_of Py.is_word scheme /\ some_of Py.is_digit port
       /\ stops Py.is_digit rest = true
       /\ (Py.int_max_str_digits < String.length port)%nat
       /\ ((url = scheme +:+ "://[" +:+ host +:+ "]:" +:+ port +:+ rest
            /\ some_of not_rbracket host)
           \/ (url = scheme +:+ "://" +:+ host +:+ ":" +:+ port +:+ rest
               /\ some_of not_colon host)).
Proof.
  unfold parse_peer_url.
  destruct (match_ipv6 url) as [[[[s6 h6] d6] r6]|] eqn:H6.
  - destruct (Py.int d6) as [m|e'] eqn:Hi; [done|]. intros [= <-].
    apply int_Raise in Hi as [-> ?]. apply match_ipv6_spec in H6 as (-> & ? & ? & ? & ?).
    split; [done|]. exists s6, h6, d6, r6. auto 10.
  - destruct (match_plain url) as [[[[s4 h4] d4] r4]|] eqn:H4; [|done].
    destruct (Py.int d4) as [m|e'] eqn:Hi; [done|]. intros [= <-].
    apply int_Raise in Hi as [-> ?]. apply match_plain_spec in H4 as (-> & ? & ? & ? & ?).
    split; [done|]. exists s4, h4, d4, r4. auto 10.
Qed.

(** C5, amended: the port of a descriptor is the value of the run of digits
    that the address writes after the colon behind its host, bracketed or
    not, hence not negative; and no range is enforced: whatever run of at
    most 4300 digits stands there, the run 0 and the runs of numbers above
    65535 included, a descriptor with its value is returned, for a host
    without brackets and for a bracketed one; and the failure is never
    returned for a string that begins with an address, whatever the value
    of its port. *)
Theorem parse_port_unchecked :
  (forall url p h n, parse_peer_url url = Py.Ret (Some (p, h, n)) ->
     0 <= n
     /\ exists port rest,
          n = Py.digits_value port
          /\ some_of Py.is_digit port /\ stops Py.is_digit rest = true
          /\ (String.length port <= Py.int_max_str_digits)%nat
          /\ ((url = p +:+ "://[" +:+ h +:+ "]:" +:+ port +:+ rest
               /\ some_of not_rbracket h)
              \/ (url = p +:+ "://" +:+ h +:+ ":" +:+ port +:+ rest
                  /\ some_of not_colon h)))
  /\ (forall scheme host port rest,
        some_of Py.is_word scheme -> some_of not_colon host ->
        begins_with "[" host = false -> some_of Py.is_digit port ->
        (String.length port <= Py.int_max_str_digits)%nat ->
        stops Py.is_digit rest = true ->
        parse_peer_url (scheme +:+ "://" +:+ host +:+ ":" +:+ port +:+ rest)
        = Py.Ret (Some (scheme, host, Py.digits_value port)))
  /\ (forall scheme host port rest,
        some_of Py.is_word scheme -> some_of not_rbracket host ->
        some_of Py.is_digit port ->
        (String.length port <= Py.int_max_str_digits)%nat ->
        stops Py.is_digit rest = true ->
        parse_peer_url (scheme +:+ "://[" +:+ host +:+ "]:" +:+ port +:+ rest)
        = Py.Ret (Some (scheme, host, Py.digits_value port)))
  /\ (forall url, begins_with_address url -> parse_peer_url url <> Py.Ret None).
Proof.
  split_and!.
  - intros url p h n Hp.
    apply parse_Some_inv in Hp as (port & rest & -> & Hl & _ & Hd & Hr & Hshape).
    split; [apply digits_value_nonneg, Hd|]. by exists port, rest.
  - intros. by apply parse_plain.
  - intros. by apply parse_bracketed.
  - intros url Hb Hn. by apply parse_None_iff in Hn.
Qed.

Lemma parse_port_unchecked_witness :
  (0 <= 70000
   /\ exists port rest,
        70000 = Py.digits_value port
        /\ some_of Py.is_digit port /\ stops Py.is_digit rest = true
        /\ (String.length port <= Py.int_max_str_digits)%nat
        /\ (("tls://h:70000"%string = "tls" +:+ "://[" +:+ "h" +:+ "]:" +:+ port +:+ rest
             /\ some_of not_rbracket "h")
            \/ ("tls://h:70000"%string = "tls" +:+ "://" +:+ "h" +:+ ":" +:+ port +:+ rest
                /\ some_of not_colon "h")))
  /\ parse_peer_url "tcp://h:0" = Py.Ret (Some ("tcp", "h", 0))
  /\ parse_peer_url "tcp://h:65536/x" = Py.Ret (Some ("tcp", "h", 65536))
  /\ parse_peer_url "tls://[2001:db8::1]:70000"
     = Py.Ret (Some ("tls", "2001:db8::1", 70000))
  /\ parse_peer_url "tcp://[x:99999" <> Py.Ret None.
Proof.
  split; [|split; [|split; [|split]]].
  - apply (proj1 parse_port_unchecked "tls://h:70000" "tls" "h" 70000). reflexivity.
  - apply (proj1 (proj2 parse_port_unchecked) "tcp" "h" "0" EmptyString);
      try (split; reflexivity); try reflexivity.
    unfold Py.int_max_str_digits; simpl; lia.
  - apply (proj1 (proj2 parse_port_unchecked) "tcp" "h" "65536" "/x");
      try (split; reflexivity); try reflexivity.
    unfold Py.int_max_str_digits; simpl; lia.
  - apply (proj1 (proj2 (proj2 parse_port_unchecked)) "tls" "2001:db8::1" "70000"
             EmptyString);
      try (split; reflexivity); try reflexivity.
    unfold Py.int_max_str_digits; simpl; lia.
  - apply (proj2 (proj2 (proj2 parse_port_unchecked)) "tcp://[x:99999").
    left. exists "tcp"%string, "[x"%string, "99999"%string, EmptyString.
    split_and!; try reflexivity; split; reflexivity.
Defined.

(** C6, as stated, fails: an upper-case scheme is returned as written. *)
Lemma parse_scheme_not_lowered :
  ~ (forall scheme rest p h n,
       some_of Py.is_word scheme ->
       parse_peer_url (scheme +:+ "://" +:+ rest) = Py.Ret (Some (p, h, n)) ->
       p = lower scheme).
Proof.
  intros C.
  specialize (C "TLS" "h:1" "TLS" "h" 1 (conj eq_refl eq_refl) eq_refl). discriminate C.
Qed.

(** C6, amended: the protocol of a descriptor is the scheme exactly as the
    input writes it, in whatever case, and any scheme made of word
    characters is accepted, known protocol or not. *)
Theorem parse_scheme_verbatim :
  (forall scheme rest p h n,
     some_of Py.is_word scheme ->
     parse_peer_url (scheme +:+ "://" +:+ rest) = Py.Ret (Some (p, h, n)) ->
     p = scheme)
  /\ (forall scheme,
        some_of Py.is_word scheme ->
        parse_peer_url (scheme +:+ "://host:1") = Py.Ret (Some (scheme, "host", 1))).
Proof.
  split.
  - intros scheme rest p h n [_ Hs] Hp.
    apply parse_Some_inv in Hp as (port & tail & _ & _ & [_ Hw] & _ & _ & [[E _]|[E _]]).
    + by apply (scheme_unique scheme rest p ("[" +:+ h +:+ "]:" +:+ port +:+ tail)).
    + by apply (scheme_unique scheme rest p (h +:+ ":" +:+ port +:+ tail)).
  - intros scheme Hs.
    apply (parse_plain scheme "host" "1" ""); try done.
    unfold Py.int_max_str_digits; simpl; lia.
Qed.

Lemma parse_scheme_verbatim_witness :
  "TCP" = "TCP" /\ parse_peer_url "gopher://host:1" = Py.Ret (Some ("gopher", "host", 1)).
Proof.
  split.
  - apply (proj1 parse_scheme_verbatim "TCP" "[::1]:9001" "TCP" "::1" 9001);
      [split|]; reflexivity.
  - apply (proj2 parse_scheme_verbatim "gopher"). split; reflexivity.
Defined.

(** C7, as stated, fails: a string that is not of the form
    [scheme://host:port] with an optional query is parsed all the same when
    it begins with such an address. *)
Lemma parse_trailing_text :
  ~ (forall url, ~ well_formed url -> parse_peer_url url = Py.Ret None).
Proof.
  intros C. specialize (C "tcp://host:80abc").
  assert (W : ~ well_formed "tcp://host:80abc"); [|by specialize (C W)].
  remember "tcp://host:80abc" as u eqn:Eu. intros W.
  destruct W as [s h d q Hs Hh Hb Hd Hq|s h d q Hs Hh Hd Hq].
  - assert (M : match_plain "tcp://host:80abc" = Some (s, h, d, q)).
    { rewrite <- Eu. apply match_plain_spec. do 4 (split; [done|]). by apply query_stops. }
    vm_compute in M. injection M as <- <- <- <-.
    by destruct Hq as [|[? ?]].
  - assert (M : match_ipv6 "tcp://host:80abc" = Some (s, h, d, q)).
    { rewrite <- Eu. apply match_ipv6_spec. do 4 (split; [done|]). by apply query_stops. }
    by vm_compute in M.
Qed.

(** C7, amended: an address [scheme://host:port] with at most 4300 port
    digits is parsed into its scheme, its host and the value of its port, a
    bracketed host without its brackets, whatever follows the digits of the
    port: an optional query, nothing, or any other text that does not go on
    with a digit, which is ignored.  Conversely a descriptor returned is
    the scheme, the host and the port that the input begins with.  The
    failure is returned exactly for the strings that do not begin with an
    address.  An exception is raised exactly for the addresses whose port
    has more than 4300 digits, and it is [ValueError]. *)
Theorem parse_recovers_address :
  (forall scheme host port rest,
     some_of Py.is_word scheme -> some_of not_colon host ->
     begins_with "[" host = false -> some_of Py.is_digit port ->
     (String.length port <= Py.int_max_str_digits)%nat ->
     stops Py.is_digit rest = true ->
     parse_peer_url (scheme +:+ "://" +:+ host +:+ ":" +:+ port +:+ rest)
     = Py.Ret (Some (scheme, host, Py.digits_value port)))
  /\ (forall scheme host port rest,
        some_of Py.is_word scheme -> some_of not_rbracket host ->
        some_of Py.is_digit port ->
        (String.length port <= Py.int_max_str_digits)%nat ->
        stops Py.is_digit rest = true ->
        parse_peer_url (scheme +:+ "://[" +:+ host +:+ "]:" +:+ port +:+ rest)
        = Py.Ret (Some (scheme, host, Py.digits_value port)))
  /\ (forall q, query q -> stops Py.is_digit q = true)
  /\ (forall url p h n, parse_peer_url url = Py.Ret (Some (p, h, n)) ->
        exists port rest,
          n = Py.digits_value port
          /\ some_of Py.is_word p /\ some_of Py.is_digit port
          /\ stops Py.is_digit rest = true
          /\ ((url = p +:+ "://[" +:+ h +:+ "]:" +:+ port +:+ rest
               /\ some_of not_rbracket h)
              \/ (url = p +:+ "://" +:+ h +:+ ":" +:+ port +:+ rest
                  /\ some_of not_colon h)))
  /\ (forall url, parse_peer_url url = Py.Ret None <-> ~ begins_with_address url)
  /\ (forall url e, parse_peer_url url = Py.Raise e ->
        e = Py.ValueError
        /\ exists scheme host port rest,
             some_of Py.is_word scheme /\ some_of Py.is_digit port
             /\ stops Py.is_digit rest = true
             /\ (Py.int_max_str_digits < String.length port)%nat
             /\ ((url = scheme +:+ "://[" +:+ host +:+ "]:" +:+ port +:+ rest
                  /\ some_of not_rbracket host)
                 \/ (url = scheme +:+ "://" +:+ host +:+ ":" +:+ port +:+ rest
                     /\ some_of not_colon host)))
  /\ (forall scheme host port rest,
        some_of Py.is_word scheme -> some_of not_colon host ->
        begins_with "[" host = false -> some_of Py.is_digit port ->
        (Py.int_max_str_digits < String.length port)%nat ->
        stops Py.is_digit rest = true ->
        parse_peer_url (scheme +:+ "://" +:+ host +:+ ":" +:+ port +:+ rest)
        = Py.Raise Py.ValueError)
  /\ (forall scheme host port rest,
        some_of Py.is_word scheme -> some_of not_rbracket host ->
        some_of Py.is_digit port ->
        (Py.int_max_str_digits < String.length port)%nat ->
        stops Py.is_digit rest = true ->
        parse_peer_url (scheme +:+ "://[" +:+ host +:+ "]:" +:+ port +:+ rest)
        = Py.Raise Py.ValueError).
Proof.
  split_and!.
  - intros. by apply parse_plain.
  - intros. by apply parse_bracketed.
  - apply query_stops.
  - intros url p h n Hp.
    apply parse_Some_inv in Hp as (port & rest & ? & _ & ? & ? & ? & ?).
    by exists port, rest.
  - apply parse_None_iff.
  - apply parse_Raise_shape.
  - intros. by apply parse_plain_long.
  - intros. by apply parse_bracketed_long.
Qed.

Lemma parse_recovers_address_witness :
  parse_peer_url "tls://ygg.jjolly.dev:3443" = Py.Ret (Some ("tls", "ygg.jjolly.dev", 3443))
  /\ parse_peer_url "tcp://host:80abc" = Py.Ret (Some ("tcp", "host", 80))
  /\ parse_peer_url "tls://[2001:db8::1]:443?key=a"
     = Py.Ret (Some ("tls", "2001:db8::1", 443))
  /\ parse_peer_url ("tcp://up.example:" +:+ Cases.ones 4301) = Py.Raise Py.ValueError.
Proof.
  split_and!.
  - apply (proj1 parse_recovers_address "tls" "ygg.jjolly.dev" "3443" EmptyString);
      try (split; reflexivity); try reflexivity.
    unfold Py.int_max_str_digits; simpl; lia.
  - apply (proj1 parse_recovers_address "tcp" "host" "80" "abc");
      try (split; reflexivity); try reflexivity.
    unfold Py.int_max_str_digits; simpl; lia.
  - apply (proj1 (proj2 parse_recovers_address) "tls" "2001:db8::1" "443" "?key=a");
      try (split; reflexivity); try reflexivity.
    unfold Py.int_max_str_digits; simpl; lia.
  - apply (proj1 (proj2 (proj2 (proj2 (proj2 (proj2 (proj2 parse_recovers_address))))))
             "tcp" "up.example" (Cases.ones 4301) EmptyString);
      try (split; by vm_compute); try reflexivity.
    apply Nat.ltb_lt. by vm_compute.
Defined.

End UrlFacts.

(** ** Probing *)

Module ProberFacts.
Import Prober.

Section ProberFacts.

Context `{PyFloat} (world : Type) (sys : os world).

(** C4, amended: the latency of a successful probe is 1000 times the
    difference of two readings of [time.time()], the first taken on entry,
    before the whole session (context, choice of the family with its name
    resolution, socket, timeout, connect, close), the second after it. *)
Theorem test_connection_interval host port protocol timeout w latency w' :
  test_connection world sys host port protocol timeout w = (Some latency, w') ->
  exists start w0 w1 stop,
    time_time world sys w = (Py.Ret start, w0)
    /\ session world sys host port protocol timeout w0 = (Py.Ret tt, w1)
    /\ time_time world sys w1 = (Py.Ret stop, w')
    /\ latency = fmul (fsub stop start) (of_int 1000).
Proof.
  unfold test_connection, bind, ret.
  destruct (time_time world sys w) as [[start|e] w0] eqn:Hstart; cbn beta iota; [|by intros [=]].
  destruct (session world sys host port protocol timeout w0) as [[[]|e] w1] eqn:Hsession;
    cbn beta iota; [|by intros [=]].
  destruct (time_time world sys w1) as [[stop|e] w2] eqn:Hstop; cbn beta iota; [|by intros [=]].
  intros [= <- <-]. by exists start, w0, w1, stop.
Qed.

(** For a host that is not written with a colon the session opens with the
    resolution of the name. *)
Lemma session_resolves host port protocol timeout w e w1 :
  has_colon host = false ->
  String.eqb protocol "tls" || String.eqb protocol "wss" = false ->
  getaddrinfo world sys host port AF_INET6 w = (Py.Raise e, w1) ->
  session world sys host port protocol timeout w =
  bind world (socket_socket world sys AF_INET)
    (fun _ => bind world (settimeout world sys timeout)
    (fun _ => bind world (connect world sys false host port)
    (fun _ => close world sys))) w1.
Proof.
  intros Hc Hp Hg. unfold session, open_socket. rewrite Hc, Hp.
  unfold bind at 1 2, catch. unfold bind at 3. by rewrite Hg.
Qed.

End ProberFacts.

(** C4, as stated, fails: the five seconds the resolution takes are part of
    the latency reported, which is not the one second of the connect. *)
Lemma test_connection_counts_resolution :
  ~ (forall (F : PyFloat) (world : Type) (sys : os world) host port protocol timeout w latency,
       (test_connection world sys host port protocol timeout w).1 = Some latency ->
       (probe_spec world sys host port protocol timeout w).1 = Some latency).
Proof.
  intros C.
  specialize (C Sim.sim_float Z Sim.sim_os "peer.example" 9000 "tcp" 1 0 (Sim.Fin 6000) eq_refl).
  vm_compute in C. discriminate C.
Qed.

Lemma test_connection_interval_witness :
  exists start w0 w1 stop,
    time_time Z Sim.sim_os 0 = (Py.Ret start, w0)
    /\ session Z Sim.sim_os "peer.example" 9000 "tcp" 1 w0 = (Py.Ret tt, w1)
    /\ time_time Z Sim.sim_os w1 = (Py.Ret stop, 6)
    /\ Sim.Fin 6000 = fmul (fsub stop start) (of_int 1000).
Proof.
  apply (test_connection_interval (H := Sim.sim_float) Z Sim.sim_os
           "peer.example" 9000 "tcp" 1 0 (Sim.Fin 6000) 6).
  reflexivity.
Defined.

End ProberFacts.

(** ** Sorting and ranking *)

Section SortFacts.

Context {A K : Type} (key : A -> K) (klt : K -> K -> bool).

Hypothesis klt_irrefl : forall x, klt x x = false.
Hypothesis klt_trans : forall x y z, klt x y = true -> klt y z = true -> klt x z = true.
Hypothesis klt_connex : forall x y, klt x y = false -> klt y x = false -> x = y.

Local Abbreviation lt := (fun a b => klt (key a) (key b)).

Local Abbreviation not_after := (not_after key klt).

Lemma klt_asym x y : klt x y = true -> klt y x = false.
Proof.
  intros Hxy. destruct (klt y x) eqn:Hyx; [|done].
  by rewrite <- (klt_irrefl x), <- (klt_trans x y x Hxy Hyx).
Qed.

#[local] Instance not_after_trans : Transitive not_after.
Proof.
  intros a b c Hab Hbc. unfold not_after in *.
  destruct (klt (key c) (key a)) eqn:Hca; [|done].
  destruct (klt (key a) (key b)) eqn:Hlt.
  - by rewrite (klt_trans _ _ _ Hca Hlt) in Hbc.
  - rewrite (klt_connex _ _ Hlt Hab) in Hca. by rewrite Hca in Hbc.
Qed.

Lemma insert_sorted_perm x l : insert_sorted lt x l ≡ₚ x :: l.
Proof.
  induction l as [|y l IH]; simpl; [done|].
  destruct (klt (key y) (key x)); [|done]. by rewrite IH, Permutation_swap.
Qed.

Lemma sort_perm l : sort lt l ≡ₚ l.
Proof.
  induction l as [|x l IH]; simpl; [done|].
  by rewrite insert_sorted_perm, IH.
Qed.

Lemma insert_sorted_hd x y l :
  klt (key y) (key x) = true -> HdRel not_after y l ->
  HdRel not_after y (insert_sorted lt x l).
Proof.
  intros Hyx Hl. destruct l as [|z l]; simpl.
  - constructor. by apply klt_asym.
  - destruct (klt (key z) (key x)); constructor.
    + by inversion Hl.
    + by apply klt_asym.
Qed.

Lemma insert_sorted_Sorted x l :
  Sorted not_after l -> Sorted not_after (insert_sorted lt x l).
Proof.
  induction 1 as [|y l Hl IH Hy]; simpl.
  - by repeat constructor.
  - destruct (klt (key y) (key x)) eqn:Hyx.
    + constructor; [done|]. by apply insert_sorted_hd.
    + constructor; [by constructor|]. by constructor.
Qed.

Lemma sort_Sorted l : StronglySorted not_after (sort lt l).
Proof.
  apply Sorted_StronglySorted; [apply not_after_trans|].
  induction l as [|x l IH]; simpl; [constructor|]. by apply insert_sorted_Sorted.
Qed.

(** The head of the sorted list is a least element of the list. *)
Lemma sort_head_least l best rest :
  sort lt l = best :: rest -> best ∈ l /\ forall x, x ∈ l -> not_after best x.
Proof.
  intros Hs. pose proof (sort_Sorted l) as Hsorted. pose proof (sort_perm l) as Hp.
  rewrite Hs in Hsorted, Hp. split.
  - rewrite <- Hp. left.
  - intros x Hx. rewrite <- Hp in Hx.
    apply StronglySorted_inv in Hsorted as [_ Hall].
    apply elem_of_cons in Hx as [->|Hx].
    + apply klt_irrefl.
    + rewrite Forall_forall in Hall. by apply Hall.
Qed.

Lemma sort_nil l : sort lt l = [] -> l = [].
Proof.
  intros Hs. pose proof (sort_perm l) as Hp. rewrite Hs in Hp.
  by apply Permutation_nil_l in Hp.
Qed.

(** Stability: elements that the order does not separate keep their order,
    as in [list.sort]. *)
Lemma insert_sorted_filter (P : A -> Prop) `{!forall a, Decision (P a)} x l :
  (forall a b, P a -> P b -> klt (key a) (key b) = false) ->
  filter P (insert_sorted lt x l) = filter P (x :: l).
Proof.
  intros HP. induction l as [|y l IH]; simpl; [done|].
  destruct (klt (key y) (key x)) eqn:Hyx; [|done].
  rewrite filter_cons, IH, !filter_cons.
  destruct (decide (P y)) as [Py|]; [|done].
  destruct (decide (P x)) as [Px|]; [|done].
  by rewrite (HP y x Py Px) in Hyx.
Qed.

Lemma sort_stable (P : A -> Prop) `{!forall a, Decision (P a)} l :
  (forall a b, P a -> P b -> klt (key a) (key b) = false) ->
  filter P (sort lt l) = filter P l.
Proof.
  intros HP. induction l as [|x l IH]; simpl; [done|].
  rewrite insert_sorted_filter by done. by rewrite !filter_cons, IH.
Qed.

End SortFacts.

Section SortUnique.
Context {A K : Type} `{!EqDecision K} (key : A -> K) (klt : K -> K -> bool).
Hypothesis klt_irrefl : forall x, klt x x = false.
Hypothesis klt_trans : forall x y z, klt x y = true -> klt y z = true -> klt x z = true.
Hypothesis klt_connex : forall x y, klt x y = false -> klt y x = false -> x = y.

Local Abbreviation lt := (fun a b => klt (key a) (key b)).
Local Abbreviation not_after := (not_after key klt).
Local Abbreviation with_key k := (filter (fun a => key a = k)).

Lemma with_key_elem (l : list A) x : x ∈ l -> x ∈ with_key (key x) l.
Proof. intros Hx. by apply list_elem_of_filter. Qed.

(** Two sorted lists in which the elements of each key come in the same
    order are the same list. *)
Lemma sorted_stable_unique (l1 l2 : list A) :
  StronglySorted not_after l1 -> StronglySorted not_after l2 ->
  (forall k, with_key k l1 = with_key k l2) -> l1 = l2.
Proof.
  intros H1; revert l2; induction H1 as [|x l1 H1 IH Hx]; intros l2 H2 Hk.
  - destruct l2 as [|y l2]; [done|].
    specialize (Hk (key y)). rewrite filter_nil, filter_cons_True in Hk; done.
  - destruct H2 as [|y l2 H2 Hy].
    { specialize (Hk (key x)). rewrite filter_nil, filter_cons_True in Hk; done. }
    rewrite Forall_forall in Hx, Hy.
    assert (Hxy : key x = key y).
    { apply klt_connex.
      - assert (Hin : x ∈ y :: l2).
        { eapply list_elem_of_filter. rewrite <- (Hk (key x)).
          apply with_key_elem. left. }
        apply elem_of_cons in Hin as [->|Hin]; [apply klt_irrefl|by apply Hy].
      - assert (Hin : y ∈ x :: l1).
        { eapply list_elem_of_filter. rewrite (Hk (key y)).
          apply with_key_elem. left. }
        apply elem_of_cons in Hin as [->|Hin]; [apply klt_irrefl|by apply Hx]. }
    pose proof (Hk (key x)) as Hkx.
    rewrite filter_cons_True, filter_cons_True in Hkx by done.
    injection Hkx as <- Hkx. f_equal. apply IH; [done|].
    intros k. destruct (decide (key x = k)) as [<-|Hne]; [done|].
    specialize (Hk k). by rewrite !filter_cons_False in Hk.
Qed.

(** Hence [sort] returns the one stable sorted arrangement of its argument,
    which is what [list.sort] returns. *)
Lemma sort_unique (l l' : list A) :
  StronglySorted not_after l' -> (forall k, with_key k l' = with_key k l) ->
  l' = sort lt l.
Proof.
  intros Hs Hk. apply sorted_stable_unique; [done|by apply sort_Sorted|].
  intros k. rewrite Hk. symmetry. apply (sort_stable key klt).
  intros a b -> Hb. rewrite Hb. apply klt_irrefl.
Qed.

End SortUnique.

Module RankerFacts.
Import Runner.
Section RankerFacts.

Context `{PyFloat}.

Implicit Types (r : result) (rs kept : list result).

#[local] Arguments Nat.leb : simpl never.
#[local] Arguments Nat.ltb : simpl never.
#[local] Arguments Nat.sub : simpl never.

Lemma sort_by_latency_perm rs : sort_by_latency rs ≡ₚ rs.
Proof. apply (sort_perm latency flt). Qed.

Lemma sort_by_latency_sorted rs : StronglySorted not_slower (sort_by_latency rs).
Proof.
  apply (sort_Sorted latency flt); [apply flt_irrefl|apply flt_trans|apply flt_connex].
Qed.

Lemma diverse_zero seen rs : diverse 0 seen rs = ([], rs).
Proof. by destruct rs. Qed.

Lemma pick_protocols_diverse rs (seen : gset string) (seenl : list string) kept :
  (forall p, p ∈ seen <-> p ∈ seenl) -> (length kept < 3)%nat ->
  pick_protocols rs seen kept = kept ++ (diverse (3 - length kept) seenl rs).1.
Proof.
  revert seen seenl kept.
  induction rs as [|r rs IH]; intros seen seenl kept Hseen Hlen; simpl.
  { by rewrite app_nil_r. }
  destruct (3 - length kept)%nat as [|k] eqn:Hk; [lia|].
  destruct (decide (protocol r ∈ seen)) as [Hin|Hin].
  - rewrite decide_True by (by apply Hseen).
    destruct (Nat.leb_spec 3 (length kept)); [lia|].
    rewrite (IH seen seenl kept Hseen Hlen), Hk.
    by destruct (diverse (S k) seenl rs).
  - rewrite decide_False by (by rewrite <- Hseen).
    destruct (Nat.leb_spec 3 (length (kept ++ [r]))) as [Hfull|Hroom].
    + rewrite length_app in Hfull; simpl in Hfull.
      assert (k = 0)%nat as -> by lia. by rewrite diverse_zero.
    + rewrite length_app in Hroom; simpl in Hroom.
      rewrite (IH ({[protocol r]} ∪ seen) (protocol r :: seenl) (kept ++ [r])).
      * rewrite length_app; simpl.
        replace (3 - (length kept + 1))%nat with k by lia.
        destruct (diverse k (protocol r :: seenl) rs). simpl. by rewrite <- app_assoc.
      * intros p. by rewrite elem_of_union, elem_of_singleton, elem_of_cons, Hseen.
      * rewrite length_app; simpl; lia.
Qed.

Lemma add_more_fresh rs kept :
  (length kept < 3)%nat ->
  add_more rs kept = kept ++ take (3 - length kept) (fresh kept rs).
Proof.
  revert kept; induction rs as [|r rs IH]; intros kept Hlen; simpl.
  { by rewrite take_nil, app_nil_r. }
  destruct (decide (r ∈ kept)); [by apply IH|].
  destruct (3 - length kept)%nat as [|k] eqn:Hk; [lia|]. simpl.
  destruct (Nat.leb_spec 3 (length (kept ++ [r]))) as [Hfull|Hroom];
    rewrite length_app in *; simpl in *.
  - assert (k = 0)%nat as -> by lia. by rewrite take_0.
  - rewrite IH by (rewrite length_app; simpl; lia).
    rewrite length_app; simpl. replace (3 - (length kept + 1))%nat with k by lia.
    by rewrite <- app_assoc.
Qed.

Lemma add_more_diverse rs k seen kept picks others :
  diverse k seen rs = (picks, others) ->
  (forall x, x ∈ picks -> x ∈ kept) -> (length kept < 3)%nat ->
  add_more rs kept = kept ++ take (3 - length kept) (fresh kept others).
Proof.
  revert k seen kept picks others.
  induction rs as [|r rs IH]; intros k seen kept picks others Hd Hsub Hlen.
  { simpl in Hd. injection Hd as <- <-. by apply add_more_fresh. }
  destruct k as [|k].
  { rewrite diverse_zero in Hd. injection Hd as <- <-. by apply add_more_fresh. }
  simpl in Hd. destruct (decide (protocol r ∈ seen)).
  - destruct (diverse (S k) seen rs) as [picks' others'] eqn:Hd'.
    injection Hd as <- <-. simpl.
    destruct (decide (r ∈ kept)); [by apply (IH _ _ _ _ _ Hd')|].
    destruct (3 - length kept)%nat as [|j] eqn:Hj; [lia|]. simpl.
    destruct (Nat.leb_spec 3 (length (kept ++ [r]))) as [Hfull|Hroom];
      rewrite length_app in *; simpl in *.
    + assert (j = 0)%nat as -> by lia. by rewrite take_0.
    + rewrite (IH _ _ (kept ++ [r]) _ _ Hd').
      * rewrite length_app; simpl. replace (3 - (length kept + 1))%nat with j by lia.
        by rewrite <- app_assoc.
      * intros x Hx. apply elem_of_app. left. by apply Hsub.
      * rewrite length_app; simpl; lia.
  - destruct (diverse k (protocol r :: seen) rs) as [picks' others'] eqn:Hd'.
    injection Hd as <- <-. simpl.
    rewrite decide_True by (apply Hsub; left).
    apply (IH _ _ _ _ _ Hd'); [|done].
    intros x Hx. apply Hsub. by right.
Qed.

Lemma diverse_length k seen rs : (length (diverse k seen rs).1 <= k)%nat.
Proof.
  revert k seen; induction rs as [|r rs IH]; intros k seen; simpl; [lia|].
  destruct k as [|k]; simpl; [lia|].
  destruct (decide (protocol r ∈ seen)).
  - specialize (IH (S k) seen). by destruct (diverse (S k) seen rs).
  - specialize (IH k (protocol r :: seen)).
    destruct (diverse k (protocol r :: seen) rs). simpl in *. lia.
Qed.

Lemma diverse_perm k seen rs :
  (diverse k seen rs).1 ++ (diverse k seen rs).2 ≡ₚ rs.
Proof.
  revert k seen; induction rs as [|r rs IH]; intros k seen; simpl; [done|].
  destruct k as [|k]; simpl; [done|].
  destruct (decide (protocol r ∈ seen)).
  - specialize (IH (S k) seen). destruct (diverse (S k) seen rs) as [p o]. simpl in *.
    by rewrite <- Permutation_middle, IH.
  - specialize (IH k (protocol r :: seen)).
    destruct (diverse k (protocol r :: seen) rs) as [p o]. simpl in *. by rewrite IH.
Qed.

Lemma fresh_NoDup kept rs :
  NoDup rs -> (forall x, x ∈ rs -> x ∉ kept) -> fresh kept rs = rs.
Proof.
  revert kept; induction rs as [|r rs IH]; intros kept Hnd Hdis; simpl; [done|].
  apply NoDup_cons in Hnd as [Hr Hnd].
  rewrite decide_False by (apply Hdis; left). f_equal.
  apply IH; [done|]. intros x Hx [Hk| ->%list_elem_of_singleton]%elem_of_app; [|done].
  by apply (Hdis x); [right|].
Qed.

(** The list [main] assembles, whatever the results. *)
Lemma filtered_results_fresh rs :
  filtered_results rs =
  let '(picks, others) := diverse 3 [] (sort_by_latency rs) in
  picks ++ take (3 - length picks) (fresh picks others).
Proof.
  unfold filtered_results. fold (sort_by_latency rs).
  rewrite (pick_protocols_diverse _ ∅ [] []); [|set_solver|simpl; lia].
  change (3 - length [])%nat with 3%nat. simpl.
  destruct (diverse 3 [] (sort_by_latency rs)) as [picks others] eqn:Hd. simpl.
  destruct (Nat.ltb_spec (length picks) 3) as [Hlt|Hge].
  - by apply (add_more_diverse _ 3 [] picks picks others).
  - replace (3 - length picks)%nat with 0%nat by lia. by rewrite take_0, app_nil_r.
Qed.

Lemma filtered_results_rank rs : NoDup rs -> filtered_results rs = rank rs.
Proof.
  intros Hnd. rewrite filtered_results_fresh. unfold rank.
  pose proof (diverse_perm 3 [] (sort_by_latency rs)) as Hp.
  destruct (diverse 3 [] (sort_by_latency rs)) as [picks others]. simpl in Hp.
  assert (Hnd' : NoDup (picks ++ others)).
  { by rewrite Hp, sort_by_latency_perm. }
  apply NoDup_app in Hnd' as (_ & Hdis & Hnd').
  rewrite fresh_NoDup; [done|done|]. intros x Hx Hk. by apply (Hdis x).
Qed.

Lemma rank_length rs : length (rank rs) = (3 `min` length rs)%nat.
Proof.
  unfold rank.
  pose proof (diverse_perm 3 [] (sort_by_latency rs)) as Hp.
  pose proof (diverse_length 3 [] (sort_by_latency rs)) as Hl.
  destruct (diverse 3 [] (sort_by_latency rs)) as [picks others]. simpl in Hp, Hl.
  apply Permutation_length in Hp.
  rewrite (Permutation_length (sort_by_latency_perm rs)), length_app in Hp.
  rewrite length_app, length_take. lia.
Qed.

(** C10: on pairwise distinct results the shortlist has [min 3 n] entries,
    so never more than three, whatever the protocols. *)
Theorem filtered_results_length rs :
  NoDup rs ->
  length (filtered_results rs) = (3 `min` length rs)%nat
  /\ (length (filtered_results rs) <= 3)%nat.
Proof.
  intros Hnd. rewrite (filtered_results_rank rs Hnd), rank_length. lia.
Qed.

(** C2, amended: the results are sorted by latency, the first result of each
    protocol is picked until three are, and the slots left are filled, in
    latency order, with the results that are not equal to a result already
    in the shortlist; the output is the picks followed by the fill-ins.  On
    pairwise distinct results this is the fill with the results not picked. *)
Theorem filtered_results_assembly rs :
  sort_by_latency rs ≡ₚ rs
  /\ StronglySorted not_slower (sort_by_latency rs)
  /\ filtered_results rs =
       (let '(picks, others) := diverse 3 [] (sort_by_latency rs) in
        picks ++ take (3 - length picks) (fresh picks others))
  /\ (NoDup rs -> filtered_results rs = rank rs).
Proof.
  split; [apply sort_by_latency_perm|]. split; [apply sort_by_latency_sorted|].
  split; [apply filtered_results_fresh|apply filtered_results_rank].
Qed.

End RankerFacts.
End RankerFacts.

Module RankerExamples.
Import Runner Sim.

(** C2, as stated, fails: of two equal results only one is kept, and a
    slower result takes the slot. *)
Lemma filtered_results_skips_equal :
  ~ (forall (F : PyFloat) (rs : list (@result F)),
       rs <> [] -> filtered_results rs = rank rs).
Proof.
  intros C.
  specialize (C sim_float
    [tcp_at "a.example" 10; tcp_at "b.example" 20; tcp_at "b.example" 20;
     tcp_at "c.example" 30]).
  vm_compute in C. by specialize (C ltac:(done)).
Qed.

Lemma filtered_results_assembly_witness :
  @filtered_results sim_float [tcp_at "b.example" 20; tcp_at "a.example" 10]
  = @rank sim_float [tcp_at "b.example" 20; tcp_at "a.example" 10].
Proof.
  apply (RankerFacts.filtered_results_assembly (H := sim_float)).
  apply (bool_decide_unpack _). by vm_compute.
Defined.

Lemma filtered_results_length_witness :
  length (@filtered_results sim_float [tcp_at "b.example" 20; tcp_at "a.example" 10])
  = (3 `min` 2)%nat.
Proof.
  apply (RankerFacts.filtered_results_length (H := sim_float)).
  apply (bool_decide_unpack _). by vm_compute.
Defined.

End RankerExamples.

(** ** Running the probes *)

Module RunnerFacts.
Import Runner.

Section RunnerFacts.

Context `{PyFloat} (world : Type) (sys : Prober.os world).

Local Abbreviation test_single_peer := (test_single_peer world sys).
Local Abbreviation probes := (probes world sys).
Local Abbreviation successful_probe := (successful_probe world sys).

Lemma nonempty_quic_ne p : String.eqb p "quic" = false -> p <> "quic"%string.
Proof. intros E ->. by rewrite String.eqb_refl in E. Qed.

Lemma test_single_peer_Some w peer_data country r :
  test_single_peer w peer_data country = Py.Ret (Some r) ->
  successful_probe w peer_data country r.
Proof.
  unfold Runner.test_single_peer, Runner.successful_probe.
  destruct (Url.parse_peer_url (peer_address peer_data)) as [[[[p h] n]|]|e] eqn:Hp;
    simpl; try done.
  destruct (Url.nonempty p), (Url.nonempty h), (Z.eqb_spec n 0),
    (String.eqb p "quic") eqn:Hq; simpl; try done.
  destruct (Prober.test_connection world sys h n p 1 w).1 as [lat|] eqn:Hc; [|done].
  intros [= <-]. simpl. exists h, n. split_and!; try done.
  by apply nonempty_quic_ne.
Qed.

Lemma test_single_peer_unparsed w peer_data country :
  Url.parse_peer_url (peer_address peer_data) = Py.Ret None ->
  test_single_peer w peer_data country = Py.Ret None.
Proof. unfold Runner.test_single_peer. by intros ->. Qed.

Lemma test_single_peer_quic w peer_data country host port :
  Url.parse_peer_url (peer_address peer_data) = Py.Ret (Some ("quic"%string, host, port)) ->
  test_single_peer w peer_data country = Py.Ret None.
Proof.
  unfold Runner.test_single_peer. intros ->. simpl.
  by rewrite !orb_true_r.
Qed.

Lemma test_single_peer_unreachable w peer_data country protocol host port :
  Url.parse_peer_url (peer_address peer_data) = Py.Ret (Some (protocol, host, port)) ->
  (Prober.test_connection world sys host port protocol 1 w).1 = None ->
  test_single_peer w peer_data country = Py.Ret None.
Proof.
  unfold Runner.test_single_peer. intros -> Hc. simpl. rewrite Hc.
  by destruct (_ || _).
Qed.

Lemma appended_elem {A B} (futures : list (Py.outcome A)) done (body : nat -> A -> option B) b :
  b ∈ appended futures done body ->
  exists i a, i ∈ done /\ futures !! i = Some (Py.Ret a) /\ body i a = Some b.
Proof.
  unfold appended. intros (i & Hi & Hb)%list_elem_of_omap.
  destruct (futures !! i) as [[a|e]|] eqn:Hf; try done. by exists i, a.
Qed.

Lemma for_as_completed_Ret {A B} (futures : list (Py.outcome A)) done
    (body : nat -> A -> option B) results :
  for_as_completed futures done body = Py.Ret results ->
  unfinished (length futures) done = [] /\ results = appended futures done body.
Proof.
  unfold for_as_completed. destruct (unfinished _ _); [|done]. by intros [= <-].
Qed.

Lemma for_as_completed_timeout {A B} (futures : list (Py.outcome A)) done
    (body : nat -> A -> option B) :
  unfinished (length futures) done <> [] ->
  for_as_completed futures done body = Py.Raise Py.TimeoutError.
Proof. unfold for_as_completed. by destruct (unfinished _ _). Qed.

Lemma for_as_completed_finished {A B} (futures : list (Py.outcome A)) done
    (body : nat -> A -> option B) :
  unfinished (length futures) done = [] ->
  for_as_completed futures done body = Py.Ret (appended futures done body).
Proof. unfold for_as_completed. by intros ->. Qed.

Lemma probes_lookup worlds country peers i :
  probes worlds country peers !! i
  = (fun peer_data => test_single_peer (worlds i) peer_data country) <$> peers !! i.
Proof. unfold Runner.probes. by rewrite list_lookup_imap. Qed.

Lemma probes_length worlds country peers :
  length (probes worlds country peers) = length peers.
Proof. unfold Runner.probes. by rewrite length_imap. Qed.

(** Every record the loop over the probes appends is the record of a
    successful probe of one of the peers. *)
Lemma appended_probes worlds done country peers r :
  r ∈ appended (probes worlds country peers) done (fun _ r => r) ->
  exists i peer_data, i ∈ done /\ peers !! i = Some peer_data
    /\ successful_probe (worlds i) peer_data country r.
Proof.
  intros (i & a & Hi & Hf & ->)%appended_elem.
  rewrite probes_lookup in Hf. destruct (peers !! i) as [peer_data|] eqn:Hp; [|done].
  injection Hf as Hf. exists i, peer_data. auto using test_single_peer_Some.
Qed.

(** C9: the records of the exhaustive phase and of the sampling phase are
    records of successful probes, with the latency the connection measured;
    an address that does not parse, the protocol quic and a failed
    connection give [None], which the loop does not append. *)
Theorem results_are_successful_probes :
  (forall worlds done country peers results r,
     test_all_peers_in_region world sys worlds done country peers = Py.Ret results ->
     r ∈ results ->
     exists i peer_data, peers !! i = Some peer_data
       /\ successful_probe (worlds i) peer_data country r)
  /\ (forall worlds done country peers sample_size stats,
        test_region_fast world sys worlds done country peers sample_size = Py.Ret stats ->
        exists results, stats = region_stats results
          /\ forall r, r ∈ results ->
             exists i peer_data, sample peers sample_size !! i = Some peer_data
               /\ successful_probe (worlds i) peer_data country r)
  /\ (forall w peer_data country,
        Url.parse_peer_url (peer_address peer_data) = Py.Ret None ->
        test_single_peer w peer_data country = Py.Ret None)
  /\ (forall w peer_data country host port,
        Url.parse_peer_url (peer_address peer_data)
          = Py.Ret (Some ("quic"%string, host, port)) ->
        test_single_peer w peer_data country = Py.Ret None)
  /\ (forall w peer_data country protocol host port,
        Url.parse_peer_url (peer_address peer_data)
          = Py.Ret (Some (protocol, host, port)) ->
        (Prober.test_connection world sys host port protocol 1 w).1 = None ->
        test_single_peer w peer_data country = Py.Ret None).
Proof.
  split_and!.
  - intros worlds done country peers results r [_ ->]%for_as_completed_Ret Hr.
    apply appended_probes in Hr as (i & peer_data & _ & ? & ?). by exists i, peer_data.
  - intros worlds done country peers sample_size stats. unfold Runner.test_region_fast.
    destruct (for_as_completed _ _ _) as [results|e] eqn:Hf; [|done].
    intros [= <-]. exists results. split; [done|]. intros r Hr.
    apply for_as_completed_Ret in Hf as [_ ->].
    apply appended_probes in Hr as (i & peer_data & _ & ? & ?). by exists i, peer_data.
  - apply test_single_peer_unparsed.
  - apply test_single_peer_quic.
  - apply test_single_peer_unreachable.
Qed.

Lemma eligible_length_and_lookup catalog country peers :
  (country, peers) ∈ eligible catalog ->
  catalog !! country = Some peers /\ (2 <= length peers)%nat.
Proof.
  unfold eligible. intros [Hl Hin]%list_elem_of_filter.
  by apply elem_of_map_to_list in Hin.
Qed.

(** C1: a batch with a future unfinished when the timeout expires raises
    [TimeoutError], in the three places alike, and returns no list. *)
Theorem batch_timeout_raises :
  (forall worlds done country peers,
     unfinished (length peers) done <> [] ->
     test_all_peers_in_region world sys worlds done country peers
     = Py.Raise Py.TimeoutError)
  /\ (forall worlds done country peers sample_size,
        unfinished (length (sample peers sample_size)) done <> [] ->
        test_region_fast world sys worlds done country peers sample_size
        = Py.Raise Py.TimeoutError)
  /\ (forall samplings done catalog,
        unfinished (length (eligible catalog)) done <> [] ->
        find_best_region world sys samplings done catalog = Py.Raise Py.TimeoutError).
Proof.
  split_and!.
  - intros worlds done country peers Hu. unfold Runner.test_all_peers_in_region.
    apply for_as_completed_timeout. by rewrite probes_length.
  - intros worlds done country peers sample_size Hu. unfold Runner.test_region_fast.
    rewrite for_as_completed_timeout; [done|]. by rewrite probes_length.
  - intros samplings done catalog Hu. unfold Runner.find_best_region.
    rewrite for_as_completed_timeout; [done|].
    unfold region_tasks. by rewrite length_imap.
Qed.

(** *** Region statistics and selection *)

Lemma flt_asym (x y : float) : flt x y = true -> flt y x = false.
Proof. apply klt_asym; [apply flt_irrefl|apply flt_trans]. Qed.

Lemma flt_not_after x y z : flt y x = false -> flt z y = false -> flt z x = false.
Proof. apply (not_after_trans id flt flt_trans flt_connex x y z). Qed.

Lemma py_min_least x xs :
  py_min x xs ∈ x :: xs /\ forall y, y ∈ x :: xs -> flt y (py_min x xs) = false.
Proof.
  unfold py_min. revert x; induction xs as [|z xs IH]; intros x; simpl.
  { split; [left|]. intros y ->%list_elem_of_singleton. apply flt_irrefl. }
  destruct (flt z x) eqn:Hzx.
  - destruct (IH z) as [Hin Hle]. split; [by right|].
    intros y Hy. apply elem_of_cons in Hy as [Hy|Hy]; [subst y|by apply Hle].
    apply (flt_not_after _ z); [apply Hle; left|by apply flt_asym].
  - destruct (IH x) as [Hin Hle]. split.
    + apply elem_of_cons in Hin as [Hin|Hin]; [rewrite Hin; left|right; by right].
    + intros y Hy. apply elem_of_cons in Hy as [Hy|Hy]; [subst y; apply Hle; left|].
      apply elem_of_cons in Hy as [Hy|Hy]; [subst y|apply Hle; by right].
      apply (flt_not_after _ x); [apply Hle; left|done].
Qed.

(** What [test_region_fast] reports for a region with a successful probe:
    the number of records, and as minimum a latency among them that none
    undercuts. *)
Lemma region_stats_spec results avg mn n :
  region_stats results = (avg, mn, n) ->
  n = length results
  /\ (results = [] -> avg = inf /\ mn = inf)
  /\ (results <> [] ->
        mn ∈ latency <$> results
        /\ forall r, r ∈ results -> flt (latency r) mn = false).
Proof.
  destruct results as [|r rs]; simpl; intros [= <- <- <-].
  { by split_and!. }
  split_and!; [done|done|]. intros _.
  destruct (py_min_least (latency r) (latency <$> rs)) as [Hin Hle]. split; [done|].
  intros r' Hr'. apply Hle. by apply (list_elem_of_fmap_2 latency) in Hr'.
Qed.

Lemma tuple_lt_irrefl x : tuple_lt x x = false.
Proof. unfold tuple_lt. rewrite decide_True by done. apply flt_irrefl. Qed.

Lemma tuple_lt_trans x y z :
  tuple_lt x y = true -> tuple_lt y z = true -> tuple_lt x z = true.
Proof.
  unfold tuple_lt. destruct x as [x1 x2], y as [y1 y2], z as [z1 z2]; simpl.
  intros H1 H2. repeat case_decide; simplify_eq; eauto using flt_trans.
  by rewrite (flt_asym _ _ H1) in H2.
Qed.

Lemma tuple_lt_connex x y : tuple_lt x y = false -> tuple_lt y x = false -> x = y.
Proof.
  unfold tuple_lt. destruct x as [x1 x2], y as [y1 y2]; simpl.
  intros H1 H2. repeat case_decide; simplify_eq.
  - by rewrite (flt_connex _ _ H1 H2).
  - by rewrite (flt_connex _ _ H1 H2) in *.
Qed.

Local Abbreviation regional_scores := (regional_scores world sys).

(** An entry stands for a region of the catalog with two peers or more whose
    sampling returned with a success. *)
Lemma regional_scores_elem samplings done catalog s :
  s ∈ regional_scores samplings done catalog ->
  exists j peers,
    j ∈ done /\ catalog !! score_country s = Some peers /\ (2 <= length peers)%nat
    /\ test_region_fast world sys (probe_worlds (samplings j)) (probes_done (samplings j))
         (score_country s) peers 5
       = Py.Ret (avg_latency s, min_latency s, successful_tests s)
    /\ (0 < successful_tests s)%nat.
Proof.
  intros (j & [[avg mn] n] & Hj & Hf & Hb)%appended_elem.
  unfold region_tasks in Hf. rewrite list_lookup_imap in Hf.
  unfold region_score in Hb.
  destruct (eligible catalog !! j) as [[country peers]|] eqn:He; [|done].
  simpl in *. injection Hf as Hf.
  destruct (Nat.ltb_spec 0 n); [|done]. injection Hb as <-. simpl.
  apply list_elem_of_lookup_2, eligible_length_and_lookup in He as [? ?].
  by exists j, peers.
Qed.

(** Every eligible region whose sampling finished in time with a success has
    its entry. *)
Lemma regional_scores_intro samplings done catalog j country peers avg mn n :
  eligible catalog !! j = Some (country, peers) -> j ∈ done ->
  test_region_fast world sys (probe_worlds (samplings j)) (probes_done (samplings j))
    country peers 5 = Py.Ret (avg, mn, n) ->
  (0 < n)%nat ->
  exists s, s ∈ regional_scores samplings done catalog
    /\ score_country s = country /\ score_key s = (mn, avg).
Proof.
  intros He Hj Ht Hn. eexists. split.
  - unfold Runner.regional_scores, appended. apply list_elem_of_omap.
    exists j. split; [done|].
    unfold region_tasks. rewrite list_lookup_imap, He. simpl. rewrite Ht.
    unfold region_score. rewrite He.
    by destruct (Nat.ltb_spec 0 n); [|lia].
  - done.
Qed.

Lemma find_best_region_finished samplings done catalog :
  unfinished (length (eligible catalog)) done = [] ->
  (regional_scores samplings done catalog = []
   /\ find_best_region world sys samplings done catalog = Py.Ret None)
  \/ (exists best,
        best ∈ regional_scores samplings done catalog
        /\ (forall s, s ∈ regional_scores samplings done catalog ->
              tuple_lt (score_key s) (score_key best) = false)
        /\ find_best_region world sys samplings done catalog
           = Py.Ret (Some (score_country best))).
Proof.
  intros Hu. unfold Runner.find_best_region.
  rewrite for_as_completed_finished by (unfold region_tasks; by rewrite length_imap).
  fold (Runner.regional_scores world sys samplings done catalog). simpl.
  destruct (sort _ (regional_scores samplings done catalog)) as [|best rest] eqn:Hs.
  - left. split; [|done]. by apply (sort_nil score_key tuple_lt) in Hs.
  - right. exists best.
    apply (sort_head_least score_key tuple_lt
             tuple_lt_irrefl tuple_lt_trans tuple_lt_connex) in Hs as [Hin Hleast].
    split; [done|]. split; [|done]. intros s Hs. by apply Hleast.
Qed.

(** C3: the entries ranked stand for the regions of the catalog with two
    peers or more whose sampling returned a success, and each such region
    whose sampling finished in time has its entry; when every region task
    finishes before the timeout the selection returns [None] if there is no
    entry and otherwise the country of an entry whose key [(min, avg)] none
    undercuts; when a region task is unfinished it raises [TimeoutError]
    instead, entries or not. *)
Theorem find_best_region_selects samplings done catalog :
  (forall s, s ∈ regional_scores samplings done catalog ->
     exists j peers,
       j ∈ done /\ catalog !! score_country s = Some peers /\ (2 <= length peers)%nat
       /\ test_region_fast world sys (probe_worlds (samplings j))
            (probes_done (samplings j)) (score_country s) peers 5
          = Py.Ret (avg_latency s, min_latency s, successful_tests s)
       /\ (0 < successful_tests s)%nat)
  /\ (forall j country peers avg mn n,
        eligible catalog !! j = Some (country, peers) -> j ∈ done ->
        test_region_fast world sys (probe_worlds (samplings j))
          (probes_done (samplings j)) country peers 5 = Py.Ret (avg, mn, n) ->
        (0 < n)%nat ->
        exists s, s ∈ regional_scores samplings done catalog
          /\ score_country s = country /\ score_key s = (mn, avg))
  /\ (unfinished (length (eligible catalog)) done = [] ->
        (regional_scores samplings done catalog = []
         /\ find_best_region world sys samplings done catalog = Py.Ret None)
        \/ (exists best,
              best ∈ regional_scores samplings done catalog
              /\ (forall s, s ∈ regional_scores samplings done catalog ->
                    tuple_lt (score_key s) (score_key best) = false)
              /\ find_best_region world sys samplings done catalog
                 = Py.Ret (Some (score_country best))))
  /\ (unfinished (length (eligible catalog)) done <> [] ->
        find_best_region world sys samplings done catalog
        = Py.Raise Py.TimeoutError).
Proof.
  split_and!.
  - apply regional_scores_elem.
  - apply regional_scores_intro.
  - apply find_best_region_finished.
  - intros Hu. unfold Runner.find_best_region.
    rewrite for_as_completed_timeout; [done|].
    unfold region_tasks. by rewrite length_imap.
Qed.

Lemma test_region_fast_dead worlds done country peers sample_size :
  unfinished (length (sample peers sample_size)) done = [] ->
  (forall i r, probes worlds country (sample peers sample_size) !! i
               <> Some (Py.Ret (Some r))) ->
  test_region_fast world sys worlds done country peers sample_size
  = Py.Ret (inf, inf, 0%nat).
Proof.
  intros Hu Hdead. unfold Runner.test_region_fast.
  rewrite for_as_completed_finished by (by rewrite probes_length). simpl.
  destruct (appended _ _ _) as [|r rs] eqn:Ha; [done|].
  assert (Hr : r ∈ appended (probes worlds country (sample peers sample_size)) done
                      (fun _ r => r)) by (rewrite Ha; left).
  apply appended_elem in Hr as (i & a & _ & Hf & ->). by destruct (Hdead i r).
Qed.

(** C8: a region none of whose sampled probes gives a record is reported
    with zero successes and both latencies infinite when every probe
    finishes before the timeout; when a probe is unfinished the sampling
    raises [TimeoutError] instead. *)
Theorem test_region_fast_dead_region worlds done country peers sample_size :
  (forall i r, probes worlds country (sample peers sample_size) !! i
               <> Some (Py.Ret (Some r))) ->
  (unfinished (length (sample peers sample_size)) done = [] ->
     test_region_fast world sys worlds done country peers sample_size
     = Py.Ret (inf, inf, 0%nat))
  /\ (unfinished (length (sample peers sample_size)) done <> [] ->
        test_region_fast world sys worlds done country peers sample_size
        = Py.Raise Py.TimeoutError).
Proof.
  intros Hdead. split.
  - intros Hu. by apply test_region_fast_dead.
  - intros Hu. unfold Runner.test_region_fast.
    rewrite for_as_completed_timeout; [done|]. by rewrite probes_length.
Qed.

End RunnerFacts.
End RunnerFacts.

Module RunnerExamples.
Import Runner Sim.

Example exhaustive_all_done :
  test_all_peers_in_region Z sim_os at_zero [1; 0]%nat "germany" [up1; down1]
  = Py.Ret [record_up1].
Proof. reflexivity. Qed.

Example literal_skips_resolution :
  test_all_peers_in_region Z sim_os at_zero [0]%nat "x" [up2]
  = Py.Ret [@Build_result sim_float "tls://[2001:db8::1]:443?key=a" (Fin 1000) "x" "N/A" "tls"].
Proof. reflexivity. Qed.

Example sampling_all_done :
  test_region_fast Z sim_os at_zero [1; 0]%nat "germany" [up1; down1; up2] 2
  = Py.Ret (Fin 6000, Fin 6000, 1%nat).
Proof. reflexivity. Qed.

Example selection_all_done :
  find_best_region Z sim_os both_done [1; 0]%nat
    (<[ "iceland"%string := [up2; up2] ]> (<[ "tonga"%string := [up2] ]> germany))
  = Py.Ret (Some "iceland"%string).
Proof. by vm_compute. Qed.

Lemma batch_timeout_raises_witness :
  test_all_peers_in_region Z sim_os at_zero [0]%nat "germany" [up1; down1]
  = Py.Raise Py.TimeoutError
  /\ test_region_fast Z sim_os at_zero [0]%nat "germany" [up1; down1] 5
     = Py.Raise Py.TimeoutError
  /\ find_best_region Z sim_os both_done [] germany = Py.Raise Py.TimeoutError.
Proof.
  split; [|split].
  - apply (proj1 (RunnerFacts.batch_timeout_raises Z sim_os)). by vm_compute.
  - apply (proj1 (proj2 (RunnerFacts.batch_timeout_raises Z sim_os))). by vm_compute.
  - apply (proj2 (proj2 (RunnerFacts.batch_timeout_raises Z sim_os))). by vm_compute.
Defined.

Lemma test_region_fast_dead_region_witness :
  test_region_fast Z sim_os at_zero [0; 1]%nat "germany" [down1; down2] 5
  = Py.Ret (Inf, Inf, 0%nat)
  /\ test_region_fast Z sim_os at_zero [0]%nat "germany" [down1; down2] 5
     = Py.Raise Py.TimeoutError.
Proof.
  assert (Hdead : forall i r,
            probes Z sim_os at_zero "germany" (sample [down1; down2] 5) !! i
            <> Some (Py.Ret (Some r))).
  { intros [|[|i]] r; vm_compute; discriminate. }
  split.
  - apply (RunnerFacts.test_region_fast_dead_region Z sim_os
             at_zero [0; 1]%nat "germany" [down1; down2] 5 Hdead). reflexivity.
  - apply (RunnerFacts.test_region_fast_dead_region Z sim_os
             at_zero [0]%nat "germany" [down1; down2] 5 Hdead). by vm_compute.
Defined.

Lemma find_best_region_selects_witness :
  find_best_region Z sim_os both_done [] nowhere = Py.Raise Py.TimeoutError
  /\ (regional_scores Z sim_os both_done [0]%nat nowhere = []
      /\ find_best_region Z sim_os both_done [0]%nat nowhere = Py.Ret None
      \/ exists best,
           best ∈ regional_scores Z sim_os both_done [0]%nat nowhere
           /\ (forall s, s ∈ regional_scores Z sim_os both_done [0]%nat nowhere ->
                 tuple_lt (score_key s) (score_key best) = false)
           /\ find_best_region Z sim_os both_done [0]%nat nowhere
              = Py.Ret (Some (score_country best))).
Proof.
  split.
  - apply (RunnerFacts.find_best_region_selects Z sim_os both_done [] nowhere).
    by vm_compute.
  - apply (RunnerFacts.find_best_region_selects Z sim_os both_done [0]%nat nowhere).
    by vm_compute.
Defined.

(** The region tasks finish in time, but a region with a reachable peer
    whose sampling timed out has no entry. *)
Example sampling_timeout_drops_region :
  find_best_region Z sim_os first_done [0]%nat germany = Py.Ret None
  /\ find_best_region Z sim_os both_done [0]%nat germany = Py.Ret (Some "germany"%string).
Proof. split; by vm_compute. Qed.

Lemma results_are_successful_probes_witness :
  exists i peer_data, [up1; down1] !! i = Some peer_data
    /\ successful_probe Z sim_os (at_zero i) peer_data "germany" record_up1.
Proof.
  apply (proj1 (RunnerFacts.results_are_successful_probes Z sim_os)
           at_zero [1; 0]%nat "germany" [up1; down1] [record_up1] record_up1).
  - reflexivity.
  - apply (bool_decide_unpack _). by vm_compute.
Defined.

End RunnerExamples.

(** ** More on the ranking *)

Module RankerMore.
Import Runner RankerFacts.
Section RankerMore.

Context `{PyFloat}.

Implicit Types (r : result) (rs kept : list result).

Lemma fresh_elem kept rs x : x ∈ fresh kept rs <-> x ∈ rs /\ x ∉ kept.
Proof.
  revert kept; induction rs as [|r rs IH]; intros kept; simpl.
  { split; [by intros ?%elem_of_nil|by intros [?%elem_of_nil _]]. }
  destruct (decide (r ∈ kept)) as [Hr|Hr].
  - rewrite IH, elem_of_cons. split; [intros [? ?]; split; [by right|done]|].
    intros [[->|?] ?]; [done|by split].
  - rewrite !elem_of_cons, IH, elem_of_app, list_elem_of_singleton.
    split.
    + intros [->|[? ?]]; [by split; [left|]|]. split; [by right|]. tauto.
    + intros [[->|?] ?]; [by left|]. destruct (decide (x = r)) as [->|]; [by left|].
      right. split; [done|]. tauto.
Qed.

Lemma fresh_NoDup_out kept rs : NoDup (fresh kept rs).
Proof.
  revert kept; induction rs as [|r rs IH]; intros kept; simpl; [constructor|].
  destruct (decide (r ∈ kept)); [apply IH|].
  constructor; [|apply IH]. rewrite fresh_elem, elem_of_app, list_elem_of_singleton.
  tauto.
Qed.

(** Each pick is the first result of its protocol in the list walked, and
    its protocol is new. *)
Lemma diverse_pick k seen rs r :
  r ∈ (diverse k seen rs).1 ->
  (protocol r ∉ seen)
  /\ (exists before after, rs = before ++ r :: after
       /\ forall x, x ∈ before -> protocol x <> protocol r).
Proof.
  revert k seen; induction rs as [|r0 rs IH]; intros k seen; simpl.
  { by intros ?%elem_of_nil. }
  destruct k as [|k]; simpl; [by intros ?%elem_of_nil|].
  destruct (decide (protocol r0 ∈ seen)) as [Hin|Hin].
  - specialize (IH (S k) seen). destruct (diverse (S k) seen rs) as [p o]. simpl in *.
    intros Hr. destruct (IH Hr) as (Hnew & before & after & -> & Hb).
    split; [done|]. exists (r0 :: before), after. split; [done|].
    intros x [->|Hx]%elem_of_cons; [|by apply Hb]. by intros E; rewrite E in Hin.
  - specialize (IH k (protocol r0 :: seen)).
    destruct (diverse k (protocol r0 :: seen) rs) as [p o]. simpl in *.
    intros [->|Hr]%elem_of_cons.
    + split; [done|]. exists [], rs. split; [done|]. by intros x ?%elem_of_nil.
    + destruct (IH Hr) as (Hnew & before & after & -> & Hb).
      rewrite not_elem_of_cons in Hnew. destruct Hnew as [Hne Hnew].
      split; [done|]. exists (r0 :: before), after. split; [done|].
      intros x [->|Hx]%elem_of_cons; [done|by apply Hb].
Qed.

Lemma diverse_protocols_NoDup k seen rs :
  NoDup (protocol <$> (diverse k seen rs).1).
Proof.
  revert k seen; induction rs as [|r0 rs IH]; intros k seen; simpl; [constructor|].
  destruct k as [|k]; simpl; [constructor|].
  destruct (decide (protocol r0 ∈ seen)) as [Hin|Hin].
  - specialize (IH (S k) seen). by destruct (diverse (S k) seen rs).
  - pose proof (IH k (protocol r0 :: seen)) as IH'.
    pose proof (fun r => diverse_pick k (protocol r0 :: seen) rs r) as Hp.
    destruct (diverse k (protocol r0 :: seen) rs) as [p o]. simpl in *.
    constructor; [|done]. intros (r & E & Hr)%list_elem_of_fmap.
    destruct (Hp r Hr) as [Hnew _]. apply Hnew. rewrite E. left.
Qed.

(** When fewer than [k] are picked, every protocol of the list is seen or
    picked. *)
Lemma diverse_covers k seen rs x :
  (length (diverse k seen rs).1 < k)%nat -> x ∈ rs ->
  protocol x ∈ seen \/ protocol x ∈ protocol <$> (diverse k seen rs).1.
Proof.
  revert k seen; induction rs as [|r0 rs IH]; intros k seen; simpl.
  { by intros _ ?%elem_of_nil. }
  destruct k as [|k]; simpl; [lia|].
  destruct (decide (protocol r0 ∈ seen)) as [Hin|Hin].
  - specialize (IH (S k) seen). destruct (diverse (S k) seen rs) as [p o]. simpl in *.
    intros Hl [->|Hx]%elem_of_cons; [by left|by apply IH].
  - specialize (IH k (protocol r0 :: seen)).
    destruct (diverse k (protocol r0 :: seen) rs) as [p o]. simpl in *.
    intros Hl [->|Hx]%elem_of_cons; [right; left|].
    destruct (IH ltac:(lia) Hx) as [[->|?]%elem_of_cons|?]; [right; left|by left|right; by right].
Qed.

Lemma sorted_suffix {A} (R : A -> A -> Prop) (l1 l2 : list A) :
  StronglySorted R (l1 ++ l2) -> StronglySorted R l2.
Proof.
  induction l1 as [|x l1 IH]; simpl; [done|].
  intros Hs. apply StronglySorted_inv in Hs as [Hs _]. by apply IH.
Qed.

Lemma one_per_latency rs k :
  NoDup (latency <$> rs) -> (length (filter (fun r => latency r = k) rs) <= 1)%nat.
Proof.
  induction rs as [|r rs IH]; simpl; [lia|].
  intros [Hr Hn]%NoDup_cons. rewrite filter_cons.
  destruct (decide (latency r = k)) as [<-|]; [|by apply IH].
  simpl. destruct (filter _ rs) as [|x l] eqn:Hf; [simpl; lia|].
  assert (Hx : x ∈ filter (fun r0 => latency r0 = latency r) rs) by (rewrite Hf; left).
  apply list_elem_of_filter in Hx as [Hk Hx]. destruct Hr.
  rewrite <- Hk. by apply list_elem_of_fmap_2.
Qed.

Lemma picks_fresh_elem rs x :
  let '(picks, others) := diverse 3 [] (sort_by_latency rs) in
  x ∈ picks ++ fresh picks others <-> x ∈ rs.
Proof.
  pose proof (diverse_perm 3 [] (sort_by_latency rs)) as Hp.
  destruct (diverse 3 [] (sort_by_latency rs)) as [picks others]. simpl in Hp.
  rewrite <- (sort_by_latency_perm rs), <- Hp, !elem_of_app, fresh_elem.
  destruct (decide (x ∈ picks)); tauto.
Qed.

Lemma picks_NoDup rs : NoDup (diverse 3 [] (sort_by_latency rs)).1.
Proof. apply (NoDup_fmap_1 protocol), diverse_protocols_NoDup. Qed.

Lemma picks_fresh_NoDup rs :
  let '(picks, others) := diverse 3 [] (sort_by_latency rs) in
  NoDup (picks ++ fresh picks others).
Proof.
  pose proof (picks_NoDup rs) as Hn.
  destruct (diverse 3 [] (sort_by_latency rs)) as [picks others]. simpl in Hn.
  apply NoDup_app. split; [done|]. split; [|apply fresh_NoDup_out].
  intros x Hx [_ Hf]%fresh_elem. done.
Qed.

Lemma filtered_results_sublist rs :
  let '(picks, others) := diverse 3 [] (sort_by_latency rs) in
  filtered_results rs `sublist_of` picks ++ fresh picks others.
Proof.
  rewrite filtered_results_fresh.
  destruct (diverse 3 [] (sort_by_latency rs)) as [picks others].
  apply sublist_app; [done|apply sublist_take].
Qed.

Lemma filtered_results_NoDup rs : NoDup (filtered_results rs).
Proof.
  pose proof (picks_fresh_NoDup rs) as Hn. pose proof (filtered_results_sublist rs) as Hs.
  destruct (diverse 3 [] (sort_by_latency rs)) as [picks others].
  by eapply sublist_NoDup.
Qed.

Lemma filtered_results_elem rs x : x ∈ filtered_results rs -> x ∈ rs.
Proof.
  pose proof (picks_fresh_elem rs x) as He. pose proof (filtered_results_sublist rs) as Hs.
  destruct (diverse 3 [] (sort_by_latency rs)) as [picks others].
  intros Hx. apply He. by eapply elem_of_sublist.
Qed.

Lemma filtered_results_count rs :
  length (filtered_results rs) = (3 `min` length (remove_dups rs))%nat.
Proof.
  rewrite filtered_results_fresh.
  pose proof (picks_fresh_NoDup rs) as Hn.
  pose proof (fun x => picks_fresh_elem rs x) as He.
  pose proof (diverse_length 3 [] (sort_by_latency rs)) as Hl.
  destruct (diverse 3 [] (sort_by_latency rs)) as [picks others]. simpl in Hl.
  assert (Hp : picks ++ fresh picks others ≡ₚ remove_dups rs).
  { apply NoDup_Permutation; [done|apply NoDup_remove_dups|].
    intros x. by rewrite He, elem_of_remove_dups. }
  apply Permutation_length in Hp. rewrite length_app in Hp.
  rewrite length_app, length_take. lia.
Qed.

(** X1: the shortlist never holds the same record twice, every entry is one
    of the results, and it has as many entries as there are different
    records among the results, up to three. *)
Theorem filtered_results_distinct rs :
  NoDup (filtered_results rs)
  /\ (forall x, x ∈ filtered_results rs -> x ∈ rs)
  /\ length (filtered_results rs) = (3 `min` length (remove_dups rs))%nat.
Proof.
  split_and!.
  - apply filtered_results_NoDup.
  - apply filtered_results_elem.
  - apply filtered_results_count.
Qed.

(** X2: a non-empty list of results gives a non-empty shortlist, and its
    first entry is a fastest result: no result has a smaller latency. *)
Theorem filtered_results_head_fastest rs :
  rs <> [] ->
  exists first rest,
    filtered_results rs = first :: rest
    /\ forall x, x ∈ rs -> flt (latency x) (latency first) = false.
Proof.
  intros Hne. rewrite filtered_results_fresh.
  destruct (sort_by_latency rs) as [|first sorted] eqn:Hs.
  { apply (sort_nil latency flt) in Hs. done. }
  assert (Hleast : forall x, x ∈ rs -> flt (latency x) (latency first) = false).
  { apply (sort_head_least latency flt flt_irrefl flt_trans flt_connex) in Hs as [_ Hs].
    intros x Hx. by apply Hs. }
  simpl. destruct (diverse 2 [protocol first] sorted) as [picks others]. simpl.
  by eexists first, _.
Qed.

(** X3: when the results show three different protocols the shortlist is
    three results of pairwise different protocols, each the fastest result
    of its protocol. *)
Theorem filtered_results_diverse rs a b c :
  a ∈ rs -> b ∈ rs -> c ∈ rs ->
  protocol a <> protocol b -> protocol a <> protocol c -> protocol b <> protocol c ->
  length (filtered_results rs) = 3%nat
  /\ NoDup (protocol <$> filtered_results rs)
  /\ forall r x, r ∈ filtered_results rs -> x ∈ rs -> protocol x = protocol r ->
       flt (latency x) (latency r) = false.
Proof.
  intros Ha Hb Hc Hab Hac Hbc. rewrite filtered_results_fresh.
  pose proof (diverse_length 3 [] (sort_by_latency rs)) as Hl.
  pose proof (diverse_protocols_NoDup 3 [] (sort_by_latency rs)) as Hn.
  pose proof (fun x => diverse_covers 3 [] (sort_by_latency rs) x) as Hcov.
  pose proof (fun r => diverse_pick 3 [] (sort_by_latency rs) r) as Hpick.
  pose proof (sort_by_latency_sorted rs) as Hsorted.
  pose proof (sort_by_latency_perm rs) as Hperm.
  destruct (diverse 3 [] (sort_by_latency rs)) as [picks others]. simpl in *.
  assert (Hfull : length picks = 3%nat).
  { destruct (decide (length picks < 3)%nat) as [Hlt|]; [|lia].
    assert (Hin : forall x, x ∈ rs -> protocol x ∈ protocol <$> picks).
    { intros x Hx. rewrite <- Hperm in Hx.
      by destruct (Hcov x Hlt Hx) as [?%elem_of_nil|?]. }
    assert (Hsub : [protocol a; protocol b; protocol c] ⊆+ protocol <$> picks).
    { apply NoDup_submseteq.
      - apply NoDup_cons. split.
        { intros [?|[?|[]%elem_of_nil]%elem_of_cons]%elem_of_cons; congruence. }
        apply NoDup_cons. split; [|apply NoDup_singleton].
        intros [?|[]%elem_of_nil]%elem_of_cons; congruence.
      - intros p. rewrite !elem_of_cons, elem_of_nil. intros [->|[->|[->|[]]]]; auto. }
    apply submseteq_length in Hsub. rewrite length_fmap in Hsub. simpl in Hsub. lia. }
  rewrite Hfull. simpl. rewrite take_0, app_nil_r. split_and!; [done|done|].
  intros r x Hr Hx Hprot.
  destruct (Hpick r Hr) as (_ & before & after & Hsplit & Hbefore).
  rewrite <- Hperm, Hsplit in Hx. rewrite Hsplit in Hsorted.
  apply elem_of_app in Hx as [Hx|Hx]; [by destruct (Hbefore x Hx)|].
  apply elem_of_cons in Hx as [->|Hx]; [apply flt_irrefl|].
  apply sorted_suffix, StronglySorted_inv in Hsorted as [_ Hall].
  rewrite Forall_forall in Hall. by apply Hall.
Qed.

(** X4: when no two results have the same latency the shortlist does not
    depend on the order in which the results arrive. *)
Theorem filtered_results_order_free rs rs' :
  rs ≡ₚ rs' -> NoDup (latency <$> rs) -> filtered_results rs = filtered_results rs'.
Proof.
  intros Hp Hn.
  assert (Hs : sort_by_latency rs' = sort_by_latency rs).
  { apply (sort_unique latency flt flt_irrefl flt_trans flt_connex).
    - apply sort_by_latency_sorted.
    - intros k. unfold sort_by_latency.
      rewrite (sort_stable latency flt)
        by (intros a b -> Hb; rewrite Hb; apply flt_irrefl).
      pose proof (one_per_latency rs k Hn) as Hone.
      assert (Hf : filter (fun r => latency r = k) rs'
                   ≡ₚ filter (fun r => latency r = k) rs) by (by rewrite Hp).
      destruct (filter _ rs) as [|x [|y l]]; simpl in Hone; [| |lia].
      + by apply Permutation_nil_r in Hf.
      + by apply Permutation_singleton_r in Hf. }
  unfold filtered_results. fold (sort_by_latency rs) (sort_by_latency rs'). by rewrite Hs.
Qed.

End RankerMore.
End RankerMore.

(** ** More on the batches *)

Module RunnerMore.
Import Runner RunnerFacts.
Section RunnerMore.

Context `{PyFloat} (world : Type) (sys : Prober.os world).

Local Abbreviation test_single_peer := (test_single_peer world sys).
Local Abbreviation probes := (probes world sys).
Local Abbreviation successful_probe := (successful_probe world sys).
Local Abbreviation test_all_peers_in_region := (test_all_peers_in_region world sys).
Local Abbreviation test_region_fast := (test_region_fast world sys).
Local Abbreviation find_best_region := (find_best_region world sys).
Local Abbreviation regional_scores := (regional_scores world sys).

(** X5: a peer is probed and recorded whenever its address parses with a port
    other than zero and a scheme other than the string quic in lower case,
    and the connection succeeds; the record carries the address, the scheme
    as written, the latency measured, the country and the reliability tag,
    or N/A without one. *)
Theorem test_single_peer_records w peer_data country' scheme host port lat :
  Url.parse_peer_url (peer_address peer_data) = Py.Ret (Some (scheme, host, port)) ->
  scheme <> "quic"%string -> port <> 0 ->
  (Prober.test_connection world sys host port scheme 1 w).1 = Some lat ->
  test_single_peer w peer_data country'
  = Py.Ret (Some {| url := peer_address peer_data; latency := lat;
                    country := country';
                    reliability := default "N/A"%string (peer_reliability peer_data);
                    protocol := scheme |}).
Proof.
  intros Hp Hq Hz Hc. unfold Runner.test_single_peer. rewrite Hp. simpl.
  apply UrlFacts.parse_Some_inv in Hp
    as (digits & rest & _ & _ & [Hs _] & _ & _ & [[_ [Hh _]]|[_ [Hh _]]]);
    rewrite Hs, Hh, Hc; simpl;
    destruct (Z.eqb_spec port 0); try done;
    destruct (String.eqb_spec scheme "quic"); done.
Qed.

(** X6: when every probe finishes in time the exhaustive batch returns, even
    if probes raise, and holds no record of a peer whose address made the
    parsing raise. *)
Theorem test_all_peers_skips_raising worlds done country' peers :
  unfinished (length peers) done = [] ->
  exists results,
    test_all_peers_in_region worlds done country' peers = Py.Ret results
    /\ forall peer_data e r,
         peer_data ∈ peers ->
         Url.parse_peer_url (peer_address peer_data) = Py.Raise e ->
         r ∈ results -> url r <> peer_address peer_data.
Proof.
  intros Hu. eexists. split.
  { unfold Runner.test_all_peers_in_region. apply for_as_completed_finished.
    by rewrite probes_length. }
  intros peer_data e r _ He Hr Hurl.
  apply appended_probes in Hr as (i & peer' & _ & _ & host & port & Hp & _ & _ & _ & Hu' & _).
  rewrite Hurl in Hu'. rewrite Hu', Hp in He. discriminate He.
Qed.

Lemma appended_nil {A B} done (body : nat -> A -> option B) :
  appended [] done body = [].
Proof. unfold appended. induction done as [|i done IH]; [done|]. by simpl. Qed.

Lemma eligible_small catalog :
  (forall c ps, catalog !! c = Some ps -> (length ps < 2)%nat) -> eligible catalog = [].
Proof.
  intros Hsmall. unfold eligible. destruct (filter _ _) as [|[c ps] l] eqn:Hf; [done|].
  assert (Hin : (c, ps) ∈ filter (fun cp : string * list peer => (2 <= length cp.2)%nat)
                             (map_to_list catalog)) by (rewrite Hf; left).
  apply list_elem_of_filter in Hin as [Hl Hin]. simpl in Hl.
  apply elem_of_map_to_list in Hin. specialize (Hsmall c ps Hin). lia.
Qed.

Lemma find_best_region_small samplings done catalog :
  (forall c ps, catalog !! c = Some ps -> (length ps < 2)%nat) ->
  find_best_region samplings done catalog = Py.Ret None.
Proof.
  intros Hsmall. unfold Runner.find_best_region. rewrite (eligible_small _ Hsmall).
  change (region_tasks world sys samplings [])
    with (@nil (Py.outcome (float * float * nat))).
  rewrite for_as_completed_finished by done. by rewrite appended_nil.
Qed.

(** X7: nothing to probe is no error: an empty list of peers gives the empty
    list and the infinities, and a catalog without a region of two peers
    gives no region, whatever the schedule. *)
Theorem empty_batches :
  (forall worlds done country', test_all_peers_in_region worlds done country' [] = Py.Ret [])
  /\ (forall worlds done country' sample_size,
        test_region_fast worlds done country' [] sample_size = Py.Ret (inf, inf, 0%nat))
  /\ (forall worlds done country' peers,
        test_region_fast worlds done country' peers 0 = Py.Ret (inf, inf, 0%nat))
  /\ (forall samplings done catalog,
        (forall c ps, catalog !! c = Some ps -> (length ps < 2)%nat) ->
        find_best_region samplings done catalog = Py.Ret None).
Proof.
  split_and!.
  - intros. unfold Runner.test_all_peers_in_region, for_as_completed. simpl.
    f_equal. apply appended_nil.
  - intros. unfold Runner.test_region_fast, sample. simpl. rewrite take_nil.
    unfold for_as_completed. simpl.
    by rewrite (appended_nil done (fun _ r => r) : appended (probes _ _ []) _ _ = []).
  - intros. unfold Runner.test_region_fast, sample. simpl. rewrite take_0.
    unfold for_as_completed. simpl.
    by rewrite (appended_nil done (fun _ r => r) : appended (probes _ _ []) _ _ = []).
  - apply find_best_region_small.
Qed.

Lemma omap_length_bound {B} (f : nat -> option B) (n : nat) (done : list nat) :
  (forall i b, f i = Some b -> (i < n)%nat) -> NoDup done ->
  (length (omap f done) <= n)%nat.
Proof.
  intros Hf Hn.
  assert (Hle : (length (omap f done)
                 <= length (filter (fun i => (i < n)%nat) done))%nat).
  { clear Hn. induction done as [|i done IH]; [done|].
    rewrite filter_cons. cbn [omap list_omap]. destruct (f i) as [b|] eqn:Hi.
    - rewrite decide_True by (by eapply Hf). simpl. lia.
    - destruct (decide _); simpl; lia. }
  etrans; [apply Hle|].
  trans (length (seq 0 n)); [|by rewrite length_seq].
  apply submseteq_length, NoDup_submseteq.
  - by apply NoDup_filter.
  - intros i [Hi _]%list_elem_of_filter. apply elem_of_seq. lia.
Qed.

Lemma appended_length {A B} (futures : list (Py.outcome A)) done
    (body : nat -> A -> option B) :
  NoDup done -> (length (appended futures done body) <= length futures)%nat.
Proof.
  intros Hn. unfold appended. apply omap_length_bound; [|done].
  intros i b. destruct (futures !! i) eqn:Hl; [|done]. intros _.
  by apply lookup_lt_Some in Hl.
Qed.

(** X8: since a future completes once, the exhaustive batch returns no more
    records than there are peers, and a sampling counts no more successes
    than the sample size and than the peers of the region. *)
Theorem batch_counts_bounded worlds done country' peers :
  NoDup done ->
  (forall results,
     test_all_peers_in_region worlds done country' peers = Py.Ret results ->
     (length results <= length peers)%nat)
  /\ (forall sample_size avg mn n,
        test_region_fast worlds done country' peers sample_size = Py.Ret (avg, mn, n) ->
        (n <= sample_size `min` length peers)%nat).
Proof.
  intros Hn. split.
  - intros results [_ ->]%for_as_completed_Ret.
    rewrite <- (probes_length world sys worlds country' peers). by apply appended_length.
  - intros sample_size avg mn n. unfold Runner.test_region_fast.
    destruct (for_as_completed _ _ _) as [results|] eqn:Hf; [|done]. simpl.
    intros [= Hs]. apply region_stats_spec in Hs as [-> _].
    apply for_as_completed_Ret in Hf as [_ ->].
    etrans; [by apply appended_length|].
    rewrite probes_length. unfold sample. rewrite length_take. lia.
Qed.


Lemma find_best_region_Ret samplings done catalog best :
  find_best_region samplings done catalog = Py.Ret best ->
  unfinished (length (eligible catalog)) done = [].
Proof.
  unfold Runner.find_best_region.
  destruct (for_as_completed _ _ _) as [scores|] eqn:Hf; [|done]. intros _.
  apply for_as_completed_Ret in Hf as [Hu _].
  unfold region_tasks in Hu. by rewrite length_imap in Hu.
Qed.

(** X10: the order in which the region tasks complete decides between
    regions of equal key only: under two orders of completion the selection
    returns regions or none alike, and the regions returned have the same
    minimum and average latency. *)
Theorem find_best_region_order samplings done done' catalog :
  done ≡ₚ done' ->
  match find_best_region samplings done catalog,
        find_best_region samplings done' catalog with
  | Py.Ret (Some a), Py.Ret (Some b) =>
      exists sa sb,
        sa ∈ regional_scores samplings done catalog
        /\ sb ∈ regional_scores samplings done catalog
        /\ score_country sa = a /\ score_country sb = b
        /\ score_key sa = score_key sb
  | Py.Ret None, Py.Ret None => True
  | Py.Raise e, Py.Raise e' => e = e'
  | _, _ => False
  end.
Proof.
  intros Hp.
  assert (Hu : unfinished (length (eligible catalog)) done' =
               unfinished (length (eligible catalog)) done).
  { unfold unfinished. apply list_filter_iff. intros i. by rewrite Hp. }
  assert (Hs : regional_scores samplings done catalog
               ≡ₚ regional_scores samplings done' catalog).
  { unfold Runner.regional_scores, appended. by rewrite Hp. }
  destruct (unfinished (length (eligible catalog)) done) as [|i l] eqn:Hd.
  - destruct (find_best_region_finished world sys samplings done catalog Hd)
      as [[Hn ->]|(sa & Ha & Hla & ->)];
    destruct (find_best_region_finished world sys samplings done' catalog
                ltac:(by rewrite Hu))
      as [[Hn' ->]|(sb & Hb & Hlb & ->)]; try done.
    + rewrite <- Hs, Hn in Hb. by apply elem_of_nil in Hb.
    + rewrite Hs, Hn' in Ha. by apply elem_of_nil in Ha.
    + rewrite <- Hs in Hb. exists sa, sb. split_and!; try done.
      apply tuple_lt_connex; [apply Hlb; by rewrite <- Hs|by apply Hla].
  - unfold Runner.find_best_region.
    rewrite !for_as_completed_timeout; [done| |];
      unfold region_tasks; rewrite length_imap; congruence.
Qed.

End RunnerMore.
End RunnerMore.

(** ** More on the probe *)

Module ProberMore.
Import Prober ProberVariants.
Section ProberMore.

Context `{PyFloat} (world : Type) (sys : os world).

(** X11: a host written with a colon is never resolved: the probe gives the
    same result, and leaves the same world, whatever the resolver does. *)
Theorem literal_host_not_resolved resolver host port protocol timeout w :
  has_colon host = true ->
  test_connection world (with_getaddrinfo world sys resolver) host port protocol timeout w
  = test_connection world sys host port protocol timeout w.
Proof.
  intros Hc. unfold test_connection, session, open_socket. rewrite Hc. reflexivity.
Qed.



End ProberMore.
End ProberMore.

(** ** The catalog *)

Module HtmlFacts.
Import Html.

Lemma invariant_init : invariant init.
Proof. split; simpl; intros *; by rewrite ?lookup_empty. Qed.

Lemma nonempty_ne s : Url.nonempty s = true -> s <> EmptyString.
Proof. by destruct s. Qed.

Lemma handle_starttag_inv tag a st st' :
  invariant st -> handle_starttag tag a st = inr st' -> invariant st'.
Proof.
  intros [I1 I2 I3]. unfold handle_starttag.
  repeat (destruct (_ && _); [intros [= <-]; by split|]).
  destruct (String.eqb tag "tr"); [|intros [= <-]; by split].
  destruct (dict_get "class" a) as [[class_attr|]|]; [|done|intros [= <-]; by split].
  destruct (_ || _); intros [= <-]; [|by split].
  split; simpl; [done|done|]. intros x. by rewrite lookup_singleton_ne.
Qed.

Lemma handle_endtag_inv tag st : invariant st -> invariant (handle_endtag tag st).
Proof.
  intros [I1 I2 I3]. unfold handle_endtag.
  destruct (String.eqb tag "th"); [by split|]. by destruct (String.eqb tag "td"); split.
Qed.

Lemma handle_data_inv raw st st' :
  invariant st -> handle_data raw st = inr st' -> invariant st'.
Proof.
  intros [I1 I2 I3]. unfold handle_data.
  destruct (Url.nonempty (strip raw)) eqn:Hne; simpl; [|intros [= <-]; by split].
  apply nonempty_ne in Hne.
  destruct (in_country_header st).
  { intros [= <-]. destruct (peers_by_country st !! strip raw) as [ps|] eqn:Hl.
    - split; simpl; [done| |done]. intros c [= <-]. by rewrite Hl.
    - split; simpl; [| |done].
      + intros c ps. destruct (decide (strip raw = c)) as [<-|Hc].
        * rewrite lookup_insert_eq. by intros [= <-].
        * rewrite lookup_insert_ne by done. apply I1.
      + intros c [= <-]. by rewrite lookup_insert_eq. }
  destruct (in_address_cell st && known_scheme (strip raw)) eqn:Ha.
  { intros [= <-]. split; simpl; [done|done|].
    intros a. rewrite lookup_insert_eq. intros [= <-].
    by apply andb_true_iff in Ha as [_ ?]. }
  destruct (in_status_cell st).
  { intros [= <-]. split; simpl; [done|done|].
    intros a. rewrite lookup_insert_ne by done. apply I3. }
  destruct (in_reliability_cell st && ends_with "%" (strip raw)) eqn:Hr;
    [|intros [= <-]; by split].
  apply andb_true_iff in Hr as [_ Hr].
  set (peer := <[ "reliability"%string := strip raw ]> (current_peer st)).
  destruct (current_country st) as [country|] eqn:Hc;
    [|intros [= <-]; split; simpl; by rewrite ?Hc].
  match goal with |- (if ?b then _ else _) = _ -> _ => destruct b eqn:Hgood end;
    [|intros [= <-]; split; simpl; by rewrite ?Hc].
  destruct (peers_by_country st !! country) as [peers|] eqn:Hl; [|done].
  intros [= <-].
  apply andb_true_iff in Hgood as [Hgood Hclass].
  apply andb_true_iff in Hgood as [Hgood Hstatus].
  apply andb_true_iff in Hgood as [_ Haddr].
  apply bool_decide_eq_true in Haddr as [a Haddr], Hstatus.
  split; simpl; [| |done].
  - intros c ps. destruct (decide (country = c)) as [<-|Hne'].
    + rewrite lookup_insert_eq. intros [= <-]. destruct (I1 _ _ Hl) as [? Hps].
      split; [done|]. apply Forall_app. split; [done|]. apply Forall_singleton.
      split_and!.
      * exists a. split; [done|]. apply I3. subst peer.
        by rewrite lookup_insert_ne in Haddr.
      * done.
      * destruct (peer !! "status_class"%string) as [cl|]; [by exists cl|done].
      * exists (strip raw). subst peer. by rewrite lookup_insert_eq.
    + rewrite lookup_insert_ne by done. apply I1.
  - intros c [= <-]. by rewrite lookup_insert_eq.
Qed.

Lemma handle_inv e st st' : invariant st -> handle e st = inr st' -> invariant st'.
Proof.
  destruct e as [tag a|raw|tag]; simpl.
  - apply handle_starttag_inv.
  - apply handle_data_inv.
  - intros Hi [= <-]. by apply handle_endtag_inv.
Qed.

Lemma feed_inv events st st' : invariant st -> feed events st = inr st' -> invariant st'.
Proof.
  revert st; induction events as [|e events IH]; intros st Hi; simpl.
  { by intros [= <-]. }
  destruct (handle e st) as [x|st1] eqn:He; [done|]. apply IH. by eapply handle_inv.
Qed.

(** A handler raises only at a row with a bare [class], and then
    [TypeError]; the lookup of the current country never fails. *)
Lemma handle_raises e st x :
  invariant st -> handle e st = inl x -> x = TypeError /\ bare_class_row e.
Proof.
  intros [I1 I2 I3]. destruct e as [tag a|raw|tag]; simpl; [| |done].
  - unfold handle_starttag.
    repeat (destruct (_ && _); [done|]).
    destruct (String.eqb_spec tag "tr") as [->|]; [|done].
    destruct (dict_get "class" a) as [[class_attr|]|] eqn:Hc; [by destruct (_ || _)| |done].
    intros [= <-]. split; [done|]. by exists a.
  - unfold handle_data.
    destruct (Url.nonempty (strip raw)); simpl; [|done].
    destruct (in_country_header st); [done|].
    destruct (_ && _); [done|]. destruct (in_status_cell st); [done|].
    destruct (_ && _); [|done].
    destruct (current_country st) as [country|] eqn:Hc; [|done].
    destruct (_ && _); [|done].
    destruct (I2 country eq_refl) as [ps Hps]. by rewrite Hps.
Qed.

Lemma handle_bare_class e st : bare_class_row e -> handle e st = inl TypeError.
Proof.
  intros (a & -> & Hc). simpl. unfold handle_starttag. simpl. by rewrite Hc.
Qed.

(** X14: whatever the page, the lists the parser has collected hold only
    peers that carry a class holding [statusgood], an address that begins
    with one of the five schemes, a status, and a reliability that ends with
    the percent sign, under countries that are not the empty string. *)
Theorem feed_stores_good_peers events st :
  feed events init = inr st ->
  forall country peers,
    peers_by_country st !! country = Some peers ->
    country <> EmptyString /\ forall p, p ∈ peers -> good_peer p.
Proof.
  intros Hf country peers Hl.
  destruct (feed_inv events init st invariant_init Hf) as [I1 _ _].
  destruct (I1 _ _ Hl) as [? Hall]. split; [done|]. by apply Forall_forall.
Qed.

Lemma feed_raises events st x :
  invariant st -> feed events st = inl x ->
  x = TypeError /\ exists e, e ∈ events /\ bare_class_row e.
Proof.
  revert st. induction events as [|e events IH]; intros st Hi; simpl; [done|].
  destruct (handle e st) as [y|st1] eqn:He.
  - intros [= <-]. destruct (handle_raises e st y Hi He) as [-> Hb].
    split; [done|]. exists e. split; [left|done].
  - intros Hf. destruct (IH st1 (handle_inv _ _ _ Hi He) Hf) as [-> (e' & ? & ?)].
    split; [done|]. exists e'. split; [by right|done].
Qed.

Lemma feed_bare_class events st e :
  e ∈ events -> bare_class_row e -> exists x, feed events st = inl x.
Proof.
  intros He Hb. revert st.
  induction events as [|e0 events IH]; intros st; [by apply elem_of_nil in He|].
  simpl. destruct (handle e0 st) as [y|st1] eqn:H0; [by exists y|].
  apply elem_of_cons in He as [->|He]; [|by apply IH].
  by rewrite (handle_bare_class e0 st Hb) in H0.
Qed.

Lemma feed_returns events st :
  invariant st -> (forall e, e ∈ events -> ~ bare_class_row e) ->
  exists st', feed events st = inr st'.
Proof.
  intros Hi Hb. destruct (feed events st) as [x|st'] eqn:Hf; [|by exists st'].
  destruct (feed_raises events st x Hi Hf) as [_ (e & He & Hbare)].
  by destruct (Hb e He).
Qed.

Lemma feed_app before after st :
  feed (before ++ after) st
  = match feed before st with inl x => inl x | inr st1 => feed after st1 end.
Proof.
  revert st. induction before as [|e before IH]; intros st; simpl; [done|].
  by destruct (handle e st).
Qed.

(** X15: an exception of [feed] is one of a handler or the tokenizer's own.
    Of the handlers only [handle_starttag] raises, [TypeError], and [feed]
    ends so exactly when the tokenizer calls it for a row whose class
    attribute has no value; the lookup of the current country in the
    dictionary never raises [KeyError]; [feed] raises the tokenizer's
    exception exactly when the tokenizer raises after calls that all
    return. *)
Theorem feed_raises_on_bare_class text :
  (forall e, feed_text text init = inl (Handler e) -> e = TypeError)
  /\ (feed_text text init = inl (Handler TypeError)
      <-> exists e, e ∈ calls text /\ bare_class_row e)
  /\ (feed_text text init = inl Tokenizer
      <-> tokenizer_raises text = true
          /\ forall e, e ∈ calls text -> ~ bare_class_row e).
Proof.
  unfold feed_text. destruct (feed (calls text) init) as [x|st] eqn:Hf.
  - destruct (feed_raises (calls text) init x invariant_init Hf) as [-> Hbare].
    split_and!; [by intros e [= <-]|done|].
    split; [done|]. intros [_ Hno]. destruct Hbare as (e & He & Hb).
    by destruct (Hno e He).
  - assert (Hno : forall e, e ∈ calls text -> ~ bare_class_row e).
    { intros e He Hb. destruct (feed_bare_class (calls text) init e He Hb) as [x Hx].
      congruence. }
    split_and!.
    + by destruct (tokenizer_raises text).
    + split; [by destruct (tokenizer_raises text)|].
      intros (e & He & Hb). by destruct (Hno e He).
    + destruct (tokenizer_raises text); [done|]. split; [done|]. by intros [? _].
Qed.

(** A handler only appends to the lists, and drops no country. *)
Lemma handle_grows e st st' c ps :
  handle e st = inr st' -> peers_by_country st !! c = Some ps ->
  exists more, peers_by_country st' !! c = Some (ps ++ more).
Proof.
  assert (Hsame : peers_by_country st !! c = Some ps ->
                  exists more, peers_by_country st !! c = Some (ps ++ more)).
  { exists []. by rewrite app_nil_r. }
  destruct e as [tag a|raw|tag]; simpl.
  - unfold handle_starttag.
    repeat (destruct (_ && _); [by intros [= <-]|]).
    destruct (String.eqb tag "tr"); [|by intros [= <-]].
    destruct (dict_get "class" a) as [[class_attr|]|]; [|done|by intros [= <-]].
    by destruct (_ || _); intros [= <-].
  - unfold handle_data.
    destruct (Url.nonempty (strip raw)); simpl; [|by intros [= <-]].
    destruct (in_country_header st).
    { intros [= <-] Hl. simpl.
      destruct (peers_by_country st !! strip raw) as [ps'|] eqn:Hd; [by apply Hsame|].
      exists []. rewrite app_nil_r, lookup_insert_ne; [done|]. intros E. congruence. }
    destruct (_ && _); [by intros [= <-]|].
    destruct (in_status_cell st); [by intros [= <-]|].
    destruct (_ && _); [|by intros [= <-]].
    destruct (current_country st) as [country|]; [|by intros [= <-]].
    match goal with |- (if ?b then _ else _) = _ -> _ => destruct b end;
      [|by intros [= <-]].
    destruct (peers_by_country st !! country) as [peers|] eqn:Hl; [|done].
    intros [= <-] Hc. simpl. destruct (decide (country = c)) as [->|Hne].
    + rewrite lookup_insert_eq. rewrite Hl in Hc. injection Hc as ->. by eexists.
    + rewrite lookup_insert_ne by done. by apply Hsame.
  - intros [= <-]. unfold handle_endtag.
    destruct (String.eqb tag "th"); [done|]. by destruct (String.eqb tag "td").
Qed.

Lemma feed_grows events st st' c ps :
  feed events st = inr st' -> peers_by_country st !! c = Some ps ->
  exists more, peers_by_country st' !! c = Some (ps ++ more).
Proof.
  revert st ps. induction events as [|e events IH]; intros st ps; simpl.
  { intros [= <-] Hl. exists []. by rewrite app_nil_r. }
  destruct (handle e st) as [x|st1] eqn:He; [done|]. intros Hf Hl.
  destruct (handle_grows e st st1 c ps He Hl) as [m1 H1].
  destruct (IH st1 _ Hf H1) as [m2 H2]. exists (m1 ++ m2). by rewrite app_assoc.
Qed.

(** X16: the parser only ever appends: what it has collected after a part of
    the page stays, country by country and in the same order, at the head of
    what it has collected after the whole page. *)
Theorem feed_append_only before after st2 :
  feed (before ++ after) init = inr st2 ->
  exists st1,
    feed before init = inr st1
    /\ forall country peers,
         peers_by_country st1 !! country = Some peers ->
         exists more, peers_by_country st2 !! country = Some (peers ++ more).
Proof.
  rewrite feed_app. destruct (feed before init) as [x|st1] eqn:Hb; [done|].
  intros Ha. exists st1. split; [done|]. intros country peers.
  by apply (feed_grows after).
Qed.

Lemma known_scheme_nonempty a : known_scheme a = true -> Url.nonempty a = true.
Proof. by destruct a. Qed.

Lemma ends_with_nonempty c r : ends_with c r = true -> Url.nonempty r = true.
Proof. by destruct r. Qed.

Lemma feed_cons e events st :
  feed (e :: events) st
  = match handle e st with inl x => inl x | inr st' => feed events st' end.
Proof. reflexivity. Qed.

Lemma handle_row_start class_attr st :
  contains "statusgood" class_attr || contains "statusavg" class_attr = true ->
  handle (StartTag "tr" [("class"%string, Some class_attr)]) st
  = inr (set_current_peer st {[ "status_class"%string := class_attr ]}).
Proof.
  intros Hc. cbn [handle]. unfold handle_starttag.
  change (String.eqb "tr" "th") with false. change (String.eqb "tr" "td") with false.
  change (String.eqb "tr" "tr") with true. cbn [andb].
  change (dict_get "class" [("class"%string, Some class_attr)])
    with (Some (Some class_attr)).
  cbv iota beta. by rewrite Hc.
Qed.

Lemma handle_cell_start_address st :
  handle (StartTag "td" [("id"%string, Some "address"%string)]) st
  = inr (set_flags st (in_country_header st) true (in_status_cell st)
                   (in_reliability_cell st)).
Proof. reflexivity. Qed.

Lemma handle_cell_start_status st :
  handle (StartTag "td" [("id"%string, Some "status"%string)]) st
  = inr (set_flags st (in_country_header st) (in_address_cell st) true
                   (in_reliability_cell st)).
Proof. reflexivity. Qed.

Lemma handle_cell_start_reliability st :
  handle (StartTag "td" [("id"%string, Some "reliability"%string)]) st
  = inr (set_flags st (in_country_header st) (in_address_cell st)
                   (in_status_cell st) true).
Proof. reflexivity. Qed.

Lemma handle_cell_end st :
  handle (EndTag "td") st = inr (set_flags st (in_country_header st) false false false).
Proof. reflexivity. Qed.

Lemma handle_address raw st :
  in_country_header st = false -> in_address_cell st = true ->
  known_scheme (strip raw) = true ->
  handle (Data raw) st
  = inr (set_current_peer st (<[ "address"%string := strip raw ]> (current_peer st))).
Proof.
  intros Hh Hc Hk. cbn [handle]. unfold handle_data.
  by rewrite (known_scheme_nonempty _ Hk), Hh, Hc, Hk.
Qed.

Lemma handle_status raw st :
  in_country_header st = false -> in_address_cell st = false ->
  in_status_cell st = true -> Url.nonempty (strip raw) = true ->
  handle (Data raw) st
  = inr (set_current_peer st (<[ "status"%string := strip raw ]> (current_peer st))).
Proof.
  intros Hh Ha Hc Hn. cbn [handle]. unfold handle_data. by rewrite Hn, Hh, Ha, Hc.
Qed.

Lemma handle_reliability raw st country peers :
  in_country_header st = false -> in_address_cell st = false ->
  in_status_cell st = false -> in_reliability_cell st = true ->
  ends_with "%" (strip raw) = true ->
  current_country st = Some country -> Url.nonempty country = true ->
  peers_by_country st !! country = Some peers ->
  is_Some (current_peer st !! "address"%string) ->
  is_Some (current_peer st !! "status"%string) ->
  handle (Data raw) st
  = inr (if contains "statusgood"
              (default EmptyString
                 (<[ "reliability"%string := strip raw ]> (current_peer st)
                  !! "status_class"%string))
         then set_current_peer
                (set_catalog st
                   (<[ country :=
                         peers ++ [<[ "reliability"%string := strip raw ]> (current_peer st)] ]>
                      (peers_by_country st))
                   (current_country st))
                ∅
         else set_current_peer st ∅).
Proof.
  intros Hh Ha Hs Hr He Hc Hn Hl Haddr Hstatus. cbn [handle]. unfold handle_data.
  rewrite (ends_with_nonempty _ _ He), Hh, Ha, Hs, Hr, He, Hc, Hn. cbn [negb andb].
  rewrite !lookup_insert_ne by done.
  rewrite (bool_decide_eq_true_2 _ Haddr), (bool_decide_eq_true_2 _ Hstatus), Hl.
  cbn [andb]. by destruct (contains _ _).
Qed.

Ltac reduce_state :=
  unfold set_flags, set_current_peer, set_catalog;
  cbn [peers_by_country current_country in_country_header in_address_cell
       in_status_cell in_reliability_cell current_peer].

Lemma row_peer_address class_attr address status reliability :
  row_peer class_attr address status reliability !! "address"%string
  = Some (strip address).
Proof. reflexivity. Qed.

Lemma row_peer_status class_attr address status reliability :
  row_peer class_attr address status reliability !! "status"%string
  = Some (strip status).
Proof. reflexivity. Qed.

Lemma row_peer_class class_attr address status reliability :
  row_peer class_attr address status reliability !! "status_class"%string
  = Some class_attr.
Proof. reflexivity. Qed.

(** X17: a row of the three cells read under a country stores its peer,
    with the texts stripped, at the end of the list of that country when the
    class of the row holds [statusgood], and stores nothing when it holds
    [statusavg] only; either way the parser is left ready for the next
    row. *)
Theorem feed_row page st country class_attr address status reliability :
  feed page init = inr st ->
  in_country_header st = false ->
  current_country st = Some country ->
  contains "statusgood" class_attr || contains "statusavg" class_attr = true ->
  known_scheme (strip address) = true ->
  Url.nonempty (strip status) = true ->
  ends_with "%" (strip reliability) = true ->
  exists peers,
    peers_by_country st !! country = Some peers
    /\ feed (page ++ row class_attr address status reliability) init
       = inr {| peers_by_country :=
                  if contains "statusgood" class_attr
                  then <[ country :=
                            peers ++ [row_peer class_attr address status reliability] ]>
                         (peers_by_country st)
                  else peers_by_country st;
                current_country := Some country;
                in_country_header := false; in_address_cell := false;
                in_status_cell := false; in_reliability_cell := false;
                current_peer := ∅ |}.
Proof.
  intros Hf Hh Hc Hcls Ha Hs Hr.
  destruct (feed_inv page init st invariant_init Hf) as [I1 I2 _].
  destruct (I2 country Hc) as [peers Hl]. exists peers. split; [done|].
  destruct (I1 country peers Hl) as [Hne _].
  assert (Hcn : Url.nonempty country = true) by (by destruct country).
  rewrite feed_app, Hf. clear Hf I1 I2.
  destruct st as [catalog current header in_address in_status in_reliability peer].
  simpl in Hh, Hc, Hl. subst header current.
  unfold row, cell. cbn [app].
  rewrite feed_cons, (handle_row_start class_attr _ Hcls). reduce_state.
  rewrite feed_cons, handle_cell_start_address. reduce_state.
  rewrite feed_cons, handle_address by done. reduce_state.
  rewrite feed_cons, handle_cell_end. reduce_state.
  rewrite feed_cons, handle_cell_start_status. reduce_state.
  rewrite feed_cons, handle_status by done. reduce_state.
  rewrite feed_cons, handle_cell_end. reduce_state.
  rewrite feed_cons, handle_cell_start_reliability. reduce_state.
  rewrite feed_cons, (handle_reliability reliability _ country peers) by done.
  reduce_state. fold (row_peer class_attr address status reliability).
  rewrite row_peer_class. cbn [default from_option id].
  destruct (contains "statusgood" class_attr); reduce_state;
    rewrite feed_cons, handle_cell_end; reduce_state; reflexivity.
Qed.

Lemma good_peer_listed p : good_peer p -> listed_peer p.
Proof. intros ((a & ? & ?) & _ & _ & (r & ? & ?)). by exists a, r. Qed.

Lemma fallback_peer_listed address :
  known_scheme address = true -> listed_peer (fallback_peer address).
Proof. intros Ha. by exists address, "100%"%string. Qed.

Lemma get_fallback_peers_listed :
  map_Forall (fun _ peers => peers <> [] /\ Forall listed_peer peers) get_fallback_peers.
Proof.
  unfold get_fallback_peers.
  repeat (apply map_Forall_insert_2;
          [split; [done|]; repeat constructor; by apply fallback_peer_listed|]).
  apply map_Forall_empty.
Qed.

Lemma fetch_peers_Forall https http country peers :
  fetch_peers https http !! country = Some peers ->
  peers <> [] /\ Forall listed_peer peers.
Proof.
  intros Hl. unfold fetch_peers in Hl.
  destruct (match https with Some page => Some page | None => http end) as [page|];
    [|by apply (get_fallback_peers_listed country)].
  destruct (feed page init) as [x|st] eqn:Hf;
    [by apply (get_fallback_peers_listed country)|].
  apply map_lookup_filter_Some in Hl as [Hl Hne]. split; [done|].
  destruct (feed_inv page init st invariant_init Hf) as [I1 _ _].
  destruct (I1 _ _ Hl) as [_ Hall].
  eapply Forall_impl; [done|]. apply good_peer_listed.
Qed.

Lemma listed_peer_of p :
  listed_peer p ->
  exists peer_data r,
    peer_of p = Some peer_data
    /\ known_scheme (Runner.peer_address peer_data) = true
    /\ Runner.peer_reliability peer_data = Some r /\ ends_with "%" r = true.
Proof.
  intros (a & r & Ha & Hk & Hr & He). unfold peer_of. rewrite Ha. simpl.
  eexists _, r. split; [done|]. simpl. by rewrite Hr.
Qed.

(** X18: whichever way the catalog is obtained, from the page or from the
    fallback, every region of it has at least one peer, and every peer has
    an address that begins with one of the five schemes and a reliability
    that ends with the percent sign: the lookup of the address by the probe
    cannot fail, and its default for the reliability is never needed. *)
Theorem fetch_peers_listed https http country peers :
  fetch_peers https http !! country = Some peers ->
  peers <> []
  /\ forall p, p ∈ peers ->
       listed_peer p
       /\ exists peer_data, peer_of p = Some peer_data
            /\ known_scheme (Runner.peer_address peer_data) = true
            /\ is_Some (Runner.peer_reliability peer_data).
Proof.
  intros [Hne Hall]%fetch_peers_Forall. split; [done|]. intros p Hp.
  rewrite Forall_forall in Hall. specialize (Hall p Hp). split; [done|].
  destruct (listed_peer_of p Hall) as (peer_data & r & ? & ? & Hr & _).
  exists peer_data. split_and!; [done..|]. by rewrite Hr.
Qed.

(** With no row marked [statusgood] nothing is stored. *)
Lemma handle_quiet e st st' :
  ~ good_row e -> handle e st = inr st' ->
  (forall c ps, peers_by_country st !! c = Some ps -> ps = []) ->
  (forall cl, current_peer st !! "status_class"%string = Some cl ->
     contains "statusgood" cl = false) ->
  (forall c ps, peers_by_country st' !! c = Some ps -> ps = [])
  /\ (forall cl, current_peer st' !! "status_class"%string = Some cl ->
        contains "statusgood" cl = false).
Proof.
  intros Hg He J1 J2. destruct e as [tag a|raw|tag]; simpl in He.
  - unfold handle_starttag in He.
    repeat (destruct (_ && _); [by injection He as <-|]).
    destruct (String.eqb_spec tag "tr") as [->|]; [|by injection He as <-].
    destruct (dict_get "class" a) as [[class_attr|]|] eqn:Hc;
      [|done|by injection He as <-].
    destruct (_ || _); injection He as <-; [|done].
    split; [done|]. simpl. intros cl. rewrite lookup_singleton_Some. intros [_ <-].
    destruct (contains "statusgood" class_attr) eqn:Hgood; [|done].
    destruct Hg. by exists a, class_attr.
  - unfold handle_data in He.
    destruct (Url.nonempty (strip raw)); simpl in He; [|by injection He as <-].
    destruct (in_country_header st).
    { injection He as <-. split; [|done]. simpl. intros c ps.
      destruct (peers_by_country st !! strip raw) eqn:Hd; [apply J1|].
      destruct (decide (strip raw = c)) as [<-|Hne].
      - rewrite lookup_insert_eq. by intros [= <-].
      - rewrite lookup_insert_ne by done. apply J1. }
    destruct (_ && _).
    { injection He as <-. split; [done|]. simpl. intros cl.
      rewrite lookup_insert_ne by done. apply J2. }
    destruct (in_status_cell st).
    { injection He as <-. split; [done|]. simpl. intros cl.
      rewrite lookup_insert_ne by done. apply J2. }
    destruct (_ && _); [|by injection He as <-].
    destruct (current_country st) as [country|]; [|by injection He as <-].
    rewrite !lookup_insert_ne in He by done.
    destruct (current_peer st !! "status_class"%string) as [cl|] eqn:Hcl; simpl in He.
    + rewrite (J2 cl eq_refl), !andb_false_r in He. by injection He as <-.
    + rewrite !andb_false_r in He. by injection He as <-.
  - injection He as <-. unfold handle_endtag.
    destruct (String.eqb tag "th"); [done|]. by destruct (String.eqb tag "td").
Qed.

Lemma feed_quiet events st st' :
  (forall e, e ∈ events -> ~ good_row e) -> feed events st = inr st' ->
  (forall c ps, peers_by_country st !! c = Some ps -> ps = []) ->
  (forall cl, current_peer st !! "status_class"%string = Some cl ->
     contains "statusgood" cl = false) ->
  forall c ps, peers_by_country st' !! c = Some ps -> ps = [].
Proof.
  revert st. induction events as [|e events IH]; intros st Hg; simpl.
  { by intros [= <-]. }
  destruct (handle e st) as [x|st1] eqn:He; [done|]. intros Hf J1 J2.
  destruct (handle_quiet e st st1 (Hg e ltac:(left)) He J1 J2) as [K1 K2].
  apply (IH st1); [|done..]. intros e' He'. apply Hg. by right.
Qed.

Lemma fetch_peers_quiet page http :
  (forall e, e ∈ page -> ~ bare_class_row e) ->
  (forall e, e ∈ page -> ~ good_row e) ->
  fetch_peers (Some page) http = ∅.
Proof.
  intros Hb Hg. unfold fetch_peers.
  destruct (feed_returns page init invariant_init Hb) as [st Hf]. rewrite Hf.
  apply map_empty. intros c. apply map_lookup_filter_None. right.
  intros ps Hl. simpl.
  rewrite (feed_quiet page init st Hg Hf) with (c := c) (ps := ps); [by intros []|..];
    try done; simpl; intros *; by rewrite lookup_empty.
Qed.

Lemma handle_row_start_other class_attr st :
  contains "statusgood" class_attr || contains "statusavg" class_attr = false ->
  handle (StartTag "tr" [("class"%string, Some class_attr)]) st = inr st.
Proof.
  intros Hc. cbn [handle]. unfold handle_starttag.
  change (String.eqb "tr" "th") with false. change (String.eqb "tr" "td") with false.
  change (String.eqb "tr" "tr") with true. cbn [andb].
  change (dict_get "class" [("class"%string, Some class_attr)])
    with (Some (Some class_attr)).
  cbv iota beta. by rewrite Hc.
Qed.

Lemma handle_no_percent raw st :
  in_country_header st = false -> in_address_cell st = false ->
  in_status_cell st = false -> ends_with "%" (strip raw) = false ->
  handle (Data raw) st = inr st.
Proof.
  intros Hh Ha Hs He. cbn [handle]. unfold handle_data.
  rewrite Hh, Ha, Hs, He, andb_false_r. cbn [andb]. by destruct (negb _).
Qed.

(** X19: the class of a row is kept until a reliability that ends with the
    percent sign is read.  After a row marked [statusgood] whose reliability
    does not end with the percent sign, the next row is stored as a peer
    online, under the class of the row before it, although its own class
    holds neither [statusgood] nor [statusavg]. *)
Theorem feed_row_inherits_class page st country class_attr address status reliability
    class_attr' address' status' reliability' :
  feed page init = inr st ->
  in_country_header st = false ->
  current_country st = Some country ->
  contains "statusgood" class_attr = true ->
  known_scheme (strip address) = true ->
  Url.nonempty (strip status) = true ->
  ends_with "%" (strip reliability) = false ->
  contains "statusgood" class_attr' || contains "statusavg" class_attr' = false ->
  known_scheme (strip address') = true ->
  Url.nonempty (strip status') = true ->
  ends_with "%" (strip reliability') = true ->
  exists peers,
    peers_by_country st !! country = Some peers
    /\ feed (page ++ row class_attr address status reliability
                  ++ row class_attr' address' status' reliability') init
       = inr {| peers_by_country :=
                  <[ country :=
                       peers ++ [row_peer class_attr address' status' reliability'] ]>
                    (peers_by_country st);
                current_country := Some country;
                in_country_header := false; in_address_cell := false;
                in_status_cell := false; in_reliability_cell := false;
                current_peer := ∅ |}.
Proof.
  intros Hf Hh Hc Hcls Ha Hs Hr Hcls' Ha' Hs' Hr'.
  destruct (feed_inv page init st invariant_init Hf) as [I1 I2 _].
  destruct (I2 country Hc) as [peers Hl]. exists peers. split; [done|].
  destruct (I1 country peers Hl) as [Hne _].
  assert (Hcn : Url.nonempty country = true) by (by destruct country).
  assert (Hstart : contains "statusgood" class_attr || contains "statusavg" class_attr
                   = true) by (by rewrite Hcls).
  rewrite feed_app, Hf. clear Hf I1 I2.
  destruct st as [catalog current header in_address in_status in_reliability peer].
  simpl in Hh, Hc, Hl. subst header current.
  unfold row, cell. cbn [app].
  rewrite feed_cons, (handle_row_start class_attr _ Hstart). reduce_state.
  rewrite feed_cons, handle_cell_start_address. reduce_state.
  rewrite feed_cons, handle_address by done. reduce_state.
  rewrite feed_cons, handle_cell_end. reduce_state.
  rewrite feed_cons, handle_cell_start_status. reduce_state.
  rewrite feed_cons, handle_status by done. reduce_state.
  rewrite feed_cons, handle_cell_end. reduce_state.
  rewrite feed_cons, handle_cell_start_reliability. reduce_state.
  rewrite feed_cons, handle_no_percent by done.
  rewrite feed_cons, handle_cell_end. reduce_state.
  rewrite feed_cons. change (handle (EndTag "tr") ?s) with (@inr exn parser s).
  cbv iota beta.
  rewrite feed_cons, (handle_row_start_other class_attr' _ Hcls').
  rewrite feed_cons, handle_cell_start_address. reduce_state.
  rewrite feed_cons, handle_address by done. reduce_state.
  rewrite feed_cons, handle_cell_end. reduce_state.
  rewrite feed_cons, handle_cell_start_status. reduce_state.
  rewrite feed_cons, handle_status by done. reduce_state.
  rewrite feed_cons, handle_cell_end. reduce_state.
  rewrite feed_cons, handle_cell_start_reliability. reduce_state.
  rewrite feed_cons, (handle_reliability reliability' _ country peers) by done.
  reduce_state.
  change (<[ "reliability"%string := strip reliability' ]>
            (<[ "status"%string := strip status' ]>
               (<[ "address"%string := strip address' ]>
                  (<[ "status"%string := strip status ]>
                     (<[ "address"%string := strip address ]>
                        {[ "status_class"%string := class_attr ]})))))
    with (row_peer class_attr address' status' reliability').
  rewrite row_peer_class. cbn [default from_option id]. rewrite Hcls. reduce_state.
  rewrite feed_cons, handle_cell_end. reduce_state. reflexivity.
Qed.

End HtmlFacts.

(** ** The whole run *)

Module MainFacts.
Import Runner Main.
Section MainFacts.

Context `{PyFloat} (world : Type) (sys : Prober.os world).

Local Abbreviation main_from := (main_from world sys).
Local Abbreviation main := (main world sys).
Local Abbreviation find_best_region := (find_best_region world sys).
Local Abbreviation test_all_peers_in_region := (test_all_peers_in_region world sys).
Local Abbreviation successful_probe := (successful_probe world sys).

(** A region that is selected is a key of the catalog with two peers or
    more. *)
Lemma find_best_region_Some samplings done peers_by_country best_region :
  find_best_region samplings done peers_by_country = Py.Ret (Some best_region) ->
  exists peers, peers_by_country !! best_region = Some peers /\ (2 <= length peers)%nat.
Proof.
  intros Hf.
  pose proof (RunnerMore.find_best_region_Ret world sys _ _ _ _ Hf) as Hu.
  destruct (RunnerFacts.find_best_region_finished world sys samplings done
              peers_by_country Hu) as [[_ Hn]|(best & Hb & _ & Hs)].
  - rewrite Hn in Hf. done.
  - rewrite Hs in Hf. injection Hf as <-.
    apply RunnerFacts.regional_scores_elem in Hb as (j & peers & _ & Hl & Hlen & _).
    by exists peers.
Qed.

Lemma find_best_region_Raise samplings done peers_by_country e :
  find_best_region samplings done peers_by_country = Py.Raise e ->
  e = Py.TimeoutError /\ unfinished (length (eligible peers_by_country)) done <> [].
Proof.
  unfold Runner.find_best_region, for_as_completed.
  unfold region_tasks. rewrite length_imap.
  destruct (unfinished _ done) as [|i l]; simpl.
  - by destruct (sort _ _).
  - by intros [= <-].
Qed.

Lemma test_all_peers_Raise worlds done country' peers e :
  test_all_peers_in_region worlds done country' peers = Py.Raise e ->
  e = Py.TimeoutError /\ unfinished (length peers) done <> [].
Proof.
  unfold Runner.test_all_peers_in_region, for_as_completed.
  rewrite RunnerFacts.probes_length.
  destruct (unfinished _ done) as [|i l]; [done|]. by intros [= <-].
Qed.

(** X20: the only exception that leaves [main] is the [TimeoutError] of a
    batch: the lookup of the selected region in the catalog never raises
    [KeyError], and the run ends with the exception exactly when a region
    task of the selection is unfinished, or a probe of the exhaustive phase
    in the region selected is. *)
Theorem main_from_uncaught peers_by_country samplings regions_done worlds peers_done :
  (forall f, main_from peers_by_country samplings regions_done worlds peers_done
             = Uncaught f -> f = Propagated Py.TimeoutError)
  /\ (main_from peers_by_country samplings regions_done worlds peers_done
      = Uncaught (Propagated Py.TimeoutError)
      <-> unfinished (length (eligible peers_by_country)) regions_done <> []
          \/ exists best_region peers,
               find_best_region samplings regions_done peers_by_country
               = Py.Ret (Some best_region)
               /\ best_region <> EmptyString
               /\ peers_by_country !! best_region = Some peers
               /\ unfinished (length peers) peers_done <> []).
Proof.
  unfold Main.main_from.
  destruct (find_best_region samplings regions_done peers_by_country)
    as [[best_region|]|e] eqn:Hf.
  - destruct (find_best_region_Some _ _ _ _ Hf) as (peers & Hl & _).
    pose proof (RunnerMore.find_best_region_Ret world sys _ _ _ _ Hf) as Hu.
    destruct best_region as [|c best_region]; simpl.
    { split; [done|]. split; [done|]. intros [?|(b & ps & [= <-] & ? & _)]; done. }
    rewrite Hl.
    destruct (test_all_peers_in_region worlds peers_done (String c best_region) peers)
      as [[|r rs]|e] eqn:Ht.
    + split; [done|]. split; [done|].
      intros [?|(b & ps & [= <-] & _ & Hl' & Hne)]; [done|].
      rewrite Hl in Hl'. injection Hl' as <-.
      apply RunnerFacts.for_as_completed_Ret in Ht as [Hd _].
      by rewrite RunnerFacts.probes_length in Hd.
    + split; [done|]. split; [done|].
      intros [?|(b & ps & [= <-] & _ & Hl' & Hne)]; [done|].
      rewrite Hl in Hl'. injection Hl' as <-.
      apply RunnerFacts.for_as_completed_Ret in Ht as [Hd _].
      by rewrite RunnerFacts.probes_length in Hd.
    + apply test_all_peers_Raise in Ht as [-> Hne].
      split; [by intros f [= <-]|]. split; [|done]. intros _. right.
      by exists (String c best_region), peers.
  - pose proof (RunnerMore.find_best_region_Ret world sys _ _ _ _ Hf) as Hu.
    split; [done|]. split; [done|]. by intros [?|(b & ps & [=] & _)].
  - apply find_best_region_Raise in Hf as [-> Hne].
    split; [by intros f [= <-]|]. split; [|done]. intros _. by left.
Qed.

Lemma main_from_Printed peers_by_country samplings regions_done worlds peers_done
    best_region shortlist line :
  main_from peers_by_country samplings regions_done worlds peers_done
  = Printed best_region shortlist line ->
  exists peers region_results,
    peers_by_country !! best_region = Some peers /\ (2 <= length peers)%nat
    /\ test_all_peers_in_region worlds peers_done best_region peers
       = Py.Ret region_results
    /\ region_results <> []
    /\ shortlist = filtered_results region_results
    /\ line = config_line (url <$> shortlist).
Proof.
  unfold Main.main_from.
  destruct (find_best_region samplings regions_done peers_by_country)
    as [[best|]|e] eqn:Hf; [|done..].
  destruct (find_best_region_Some _ _ _ _ Hf) as (peers & Hl & Hlen).
  destruct (negb (Url.nonempty best)); [done|]. rewrite Hl.
  destruct (test_all_peers_in_region worlds peers_done best peers)
    as [region_results|e] eqn:Ht; [|done].
  destruct region_results as [|r0 rs]; [done|].
  intros [= <- <- <-]. by exists peers, (r0 :: rs).
Qed.

Lemma shortlist_probes worlds peers_done best_region peers region_results r :
  test_all_peers_in_region worlds peers_done best_region peers = Py.Ret region_results ->
  r ∈ filtered_results region_results ->
  exists i peer_data, peers !! i = Some peer_data
    /\ successful_probe (worlds i) peer_data best_region r.
Proof.
  intros Ht Hr%RankerMore.filtered_results_elem.
  apply RunnerFacts.for_as_completed_Ret in Ht as [_ Heq]. rewrite Heq in Hr.
  apply RunnerFacts.appended_probes in Hr as (i & peer_data & _ & ? & ?).
  by exists i, peer_data.
Qed.

(** X21: what [main] prints is a shortlist of one to three different
    records, each the record of a successful probe of a peer of the region
    selected, a region of the catalog with two peers or more, and the
    configuration line lists their addresses in the order of the
    shortlist. *)
Theorem main_from_printed peers_by_country samplings regions_done worlds peers_done
    best_region shortlist line :
  main_from peers_by_country samplings regions_done worlds peers_done
  = Printed best_region shortlist line ->
  exists peers,
    peers_by_country !! best_region = Some peers /\ (2 <= length peers)%nat
    /\ (1 <= length shortlist <= 3)%nat
    /\ NoDup shortlist
    /\ (forall r, r ∈ shortlist ->
          exists i peer_data, peers !! i = Some peer_data
            /\ successful_probe (worlds i) peer_data best_region r)
    /\ line = config_line (url <$> shortlist).
Proof.
  intros (peers & region_results & Hl & Hlen & Ht & Hne & -> & ->)%main_from_Printed.
  exists peers. split_and!; try done.
  - rewrite RankerMore.filtered_results_count.
    destruct region_results as [|r0 rs]; [done|].
    assert (Hin : r0 ∈ remove_dups (r0 :: rs)) by (rewrite elem_of_remove_dups; left).
    destruct (remove_dups (r0 :: rs)); [by apply elem_of_nil in Hin|simpl; lia].
  - rewrite RankerMore.filtered_results_count. lia.
  - apply RankerMore.filtered_results_NoDup.
  - intros r Hr. by apply (shortlist_probes _ _ _ _ _ _ Ht Hr).
Qed.

(** X22: with no region of two peers the run ends with status 1 and the
    message that no region is suitable, whatever the schedule; so it does
    for a page that is fetched and parsed but has no row marked
    [statusgood], whose catalog is empty: the fallback list is for
    exceptions only. *)
Theorem main_no_region :
  (forall peers_by_country samplings regions_done worlds peers_done,
     (forall c ps, peers_by_country !! c = Some ps -> (length ps < 2)%nat) ->
     main_from peers_by_country samplings regions_done worlds peers_done
     = Exit 1 "No suitable regions found.")
  /\ (forall page http samplings regions_done worlds peers_done,
        (forall e, e ∈ page -> ~ Html.bare_class_row e) ->
        (forall e, e ∈ page -> ~ Html.good_row e) ->
        Html.fetch_peers (Some page) http = ∅
        /\ main (Some page) http samplings regions_done worlds peers_done
           = Exit 1 "No suitable regions found.").
Proof.
  assert (Hsmall : forall peers_by_country samplings regions_done worlds peers_done,
     (forall c ps, peers_by_country !! c = Some ps -> (length ps < 2)%nat) ->
     main_from peers_by_country samplings regions_done worlds peers_done
     = Exit 1 "No suitable regions found.").
  { intros * Hs. unfold Main.main_from.
    by rewrite (RunnerMore.find_best_region_small world sys _ _ _ Hs). }
  split; [done|]. intros * Hb Hg.
  pose proof (HtmlFacts.fetch_peers_quiet page http Hb Hg) as He.
  split; [done|]. unfold Main.main. rewrite He. apply Hsmall.
  intros c ps. unfold catalog. by rewrite fmap_empty, lookup_empty.
Qed.

Lemma known_scheme_protocol address p h n :
  Url.parse_peer_url address = Py.Ret (Some (p, h, n)) ->
  Html.known_scheme address = true ->
  p = "tcp"%string \/ p = "tls"%string \/ p = "ws"%string \/ p = "wss"%string
  \/ p = "quic"%string.
Proof.
  intros Hp Hk.
  apply UrlFacts.parse_Some_inv in Hp
    as (port & rest & _ & _ & [_ Hw] & _ & _ & Hshape).
  assert (Htail : exists tail, address = p +:+ "://" +:+ tail).
  { destruct Hshape as [[-> _]|[-> _]]; by eexists. }
  destruct Htail as [tail ->].
  assert (Hstep : forall scheme,
            Html.starts_with (scheme +:+ "://") (p +:+ "://" +:+ tail) = true ->
            Url.every Py.is_word scheme = true -> p = scheme).
  { intros scheme Hs Hword. unfold Html.starts_with in Hs.
    destruct (Url.lit (scheme +:+ "://") (p +:+ "://" +:+ tail)) as [r|] eqn:Hl; [|done].
    apply UrlFacts.lit_spec in Hl. rewrite UrlFacts.append_assoc in Hl.
    symmetry. by eapply UrlFacts.scheme_unique. }
  unfold Html.known_scheme in Hk.
  repeat (apply orb_true_iff in Hk as [Hk|Hk]).
  - left. by apply (Hstep "tcp"%string).
  - right; left. by apply (Hstep "tls"%string).
  - right; right; left. by apply (Hstep "ws"%string).
  - right; right; right; left. by apply (Hstep "wss"%string).
  - right; right; right; right. by apply (Hstep "quic"%string).
Qed.

(** X23: from the page or the fallback to the shortlist: every entry that
    [main] prints is a peer of the region selected whose address begins
    with one of the five schemes of the catalog, with tcp, tls, ws or wss as
    its protocol and never quic, and with the reliability the catalog gives,
    which ends with the percent sign and is never the default N/A. *)
Theorem main_printed_listed https http samplings regions_done worlds peers_done
    best_region shortlist line :
  main https http samplings regions_done worlds peers_done
  = Printed best_region shortlist line ->
  forall r, r ∈ shortlist ->
    country r = best_region
    /\ Html.known_scheme (url r) = true
    /\ probed_scheme (protocol r)
    /\ Html.ends_with "%" (reliability r) = true.
Proof.
  intros (peers & region_results & Hl & _ & Ht & _ & -> & _)%main_from_Printed r Hr.
  destruct (shortlist_probes _ _ _ _ _ _ Ht Hr)
    as (i & peer_data & Hi & host & port & Hp & Hq & _ & _ & Hu & Hc & Hrel).
  unfold catalog in Hl. rewrite lookup_fmap in Hl.
  destruct (Html.fetch_peers https http !! best_region) as [ps|] eqn:Hf; [|done].
  injection Hl as <-.
  apply list_elem_of_lookup_2, list_elem_of_omap in Hi as (p & Hin & Hof).
  apply HtmlFacts.fetch_peers_Forall in Hf as [_ Hall].
  rewrite Forall_forall in Hall.
  destruct (HtmlFacts.listed_peer_of p (Hall p Hin)) as (pd & rel & Hof' & Hk & Hr' & He).
  rewrite Hof in Hof'. injection Hof' as <-.
  rewrite Hr' in Hrel. simpl in Hrel. rewrite Hu, Hrel. split_and!; try done.
  destruct (known_scheme_protocol _ _ _ _ Hp Hk) as [?|[?|[?|[?|?]]]];
    unfold probed_scheme; auto. done.
Qed.

End MainFacts.
End MainFacts.

(** ** The properties at work *)

Module MoreExamples.
Import Runner Sim Cases Main.

Lemma filtered_results_head_fastest_witness :
  exists first rest,
    @filtered_results sim_float [tcp_at "b.example" 20; tcp_at "a.example" 10]
    = first :: rest
    /\ forall x, x ∈ [tcp_at "b.example" 20; tcp_at "a.example" 10] ->
         flt (latency x) (latency first) = false.
Proof.
  apply (RankerMore.filtered_results_head_fastest (H := sim_float)
           [tcp_at "b.example" 20; tcp_at "a.example" 10]).
  by vm_compute.
Defined.

Lemma filtered_results_diverse_witness :
  length (@filtered_results sim_float
            [result_at "tcp" "a.example" 10; result_at "tcp" "b.example" 5;
             result_at "tls" "a.example" 30; result_at "ws" "a.example" 20])
  = 3%nat
  /\ NoDup (protocol <$> @filtered_results sim_float
              [result_at "tcp" "a.example" 10; result_at "tcp" "b.example" 5;
               result_at "tls" "a.example" 30; result_at "ws" "a.example" 20])
  /\ forall r x,
       r ∈ @filtered_results sim_float
             [result_at "tcp" "a.example" 10; result_at "tcp" "b.example" 5;
              result_at "tls" "a.example" 30; result_at "ws" "a.example" 20] ->
       x ∈ [result_at "tcp" "a.example" 10; result_at "tcp" "b.example" 5;
            result_at "tls" "a.example" 30; result_at "ws" "a.example" 20] ->
       protocol x = protocol r -> flt (latency x) (latency r) = false.
Proof.
  apply (RankerMore.filtered_results_diverse (H := sim_float)
           [result_at "tcp" "a.example" 10; result_at "tcp" "b.example" 5;
            result_at "tls" "a.example" 30; result_at "ws" "a.example" 20]
           (result_at "tcp" "a.example" 10) (result_at "tls" "a.example" 30)
           (result_at "ws" "a.example" 20));
    try (apply (bool_decide_unpack _); by vm_compute); by vm_compute.
Defined.

Lemma filtered_results_order_free_witness :
  @filtered_results sim_float [tcp_at "b.example" 20; tcp_at "a.example" 10]
  = @filtered_results sim_float [tcp_at "a.example" 10; tcp_at "b.example" 20].
Proof.
  apply (RankerMore.filtered_results_order_free (H := sim_float)).
  - apply perm_swap.
  - apply (bool_decide_unpack _). by vm_compute.
Defined.

Lemma test_single_peer_records_witness :
  test_single_peer Z sim_os 0 up1 "germany" = Py.Ret (Some record_up1).
Proof.
  apply (RunnerMore.test_single_peer_records Z sim_os 0 up1 "germany"
           "tcp" "up.example" 9000 (Fin 6000)).
  - reflexivity.
  - by vm_compute.
  - lia.
  - reflexivity.
Defined.

Lemma test_all_peers_skips_raising_witness :
  Url.parse_peer_url (peer_address overlong) = Py.Raise Py.ValueError
  /\ test_all_peers_in_region Z sim_os at_zero [1; 0]%nat "germany" [up1; overlong]
     = Py.Ret [record_up1]
  /\ url record_up1 <> peer_address overlong.
Proof.
  assert (Hraise : Url.parse_peer_url (peer_address overlong) = Py.Raise Py.ValueError)
    by (by vm_compute).
  destruct (RunnerMore.test_all_peers_skips_raising Z sim_os at_zero [1; 0]%nat
              "germany" [up1; overlong] ltac:(by vm_compute))
    as (results & Hret & Hskip).
  assert (Hresults : results = [record_up1]).
  { vm_compute in Hret. by injection Hret as <-. }
  subst results. split_and!; [done|done|].
  apply (Hskip overlong Py.ValueError record_up1); [|done|left].
  right. left.
Defined.

Lemma empty_batches_witness :
  find_best_region Z sim_os both_done [] lonely = Py.Ret None.
Proof.
  apply (proj2 (proj2 (proj2 (RunnerMore.empty_batches Z sim_os)))).
  unfold lonely. intros c ps [_ <-]%lookup_singleton_Some. simpl. lia.
Defined.

Lemma batch_counts_bounded_witness :
  (forall results,
     test_all_peers_in_region Z sim_os at_zero [1; 0]%nat "germany" [up1; down1]
     = Py.Ret results ->
     (length results <= length [up1; down1])%nat)
  /\ (forall sample_size avg mn n,
        test_region_fast Z sim_os at_zero [1; 0]%nat "germany" [up1; down1] sample_size
        = Py.Ret (avg, mn, n) ->
        (n <= sample_size `min` length [up1; down1])%nat).
Proof.
  apply (RunnerMore.batch_counts_bounded Z sim_os at_zero [1; 0]%nat "germany"
           [up1; down1]).
  apply (bool_decide_unpack _). by vm_compute.
Defined.


Lemma find_best_region_order_witness :
  match find_best_region Z sim_os both_done [0; 1]%nat twins,
        find_best_region Z sim_os both_done [1; 0]%nat twins with
  | Py.Ret (Some a), Py.Ret (Some b) =>
      exists sa sb,
        sa ∈ regional_scores Z sim_os both_done [0; 1]%nat twins
        /\ sb ∈ regional_scores Z sim_os both_done [0; 1]%nat twins
        /\ score_country sa = a /\ score_country sb = b
        /\ score_key sa = score_key sb
  | Py.Ret None, Py.Ret None => True
  | Py.Raise e, Py.Raise e' => e = e'
  | _, _ => False
  end.
Proof.
  apply (RunnerMore.find_best_region_order Z sim_os both_done [0; 1]%nat [1; 0]%nat twins).
  apply perm_swap.
Defined.

Lemma literal_host_not_resolved_witness :
  Prober.test_connection Z (ProberVariants.with_getaddrinfo Z sim_os slow_resolver)
    "2001:db8::1" 443 "tls" 1 0
  = Prober.test_connection Z sim_os "2001:db8::1" 443 "tls" 1 0.
Proof.
  apply (ProberMore.literal_host_not_resolved Z sim_os slow_resolver). reflexivity.
Defined.



Lemma feed_stores_good_peers_witness :
  "germany"%string <> EmptyString
  /\ forall p,
       p ∈ [Html.row_peer "statusgood" " tcp://up.example:9000 " "online" "100%";
            Html.row_peer "statusgood" "tcp://down.example:9000" "online" "100%"] ->
       Html.good_peer p.
Proof.
  apply (HtmlFacts.feed_stores_good_peers page (parsed page) ltac:(by vm_compute)
           "germany"
           [Html.row_peer "statusgood" " tcp://up.example:9000 " "online" "100%";
            Html.row_peer "statusgood" "tcp://down.example:9000" "online" "100%"]).
  by vm_compute.
Defined.

Lemma feed_raises_on_bare_class_witness :
  Html.feed_text {| Html.calls := page_bare; Html.tokenizer_raises := true |} Html.init
  = inl (Html.Handler Html.TypeError).
Proof.
  apply (proj1 (proj2 (HtmlFacts.feed_raises_on_bare_class
                         {| Html.calls := page_bare; Html.tokenizer_raises := true |}))).
  exists (Html.StartTag "tr" [("class"%string, None)]). split.
  - unfold page_bare, country_header. simpl. do 3 right. left.
  - by exists [("class"%string, None)].
Defined.

Lemma feed_append_only_witness :
  exists st1,
    Html.feed (country_header "germany") Html.init = inr st1
    /\ forall country peers,
         Html.peers_by_country st1 !! country = Some peers ->
         exists more,
           Html.peers_by_country
             (parsed (country_header "germany"
                      ++ Html.row "statusgood" "tcp://up.example:9000" "online" "100%"))
           !! country = Some (peers ++ more).
Proof.
  apply (HtmlFacts.feed_append_only (country_header "germany")
           (Html.row "statusgood" "tcp://up.example:9000" "online" "100%")).
  by vm_compute.
Defined.

Lemma feed_row_witness :
  exists peers,
    Html.peers_by_country (parsed (country_header "germany")) !! "germany"%string
    = Some peers
    /\ Html.feed (country_header "germany"
                  ++ Html.row "statusgood" " tcp://up.example:9000 " "online" "100%")
                 Html.init
       = inr {| Html.peers_by_country :=
                  if Html.contains "statusgood" "statusgood"
                  then <[ "germany"%string :=
                            peers ++ [Html.row_peer "statusgood" " tcp://up.example:9000 "
                                        "online" "100%"] ]>
                         (Html.peers_by_country (parsed (country_header "germany")))
                  else Html.peers_by_country (parsed (country_header "germany"));
                Html.current_country := Some "germany"%string;
                Html.in_country_header := false; Html.in_address_cell := false;
                Html.in_status_cell := false; Html.in_reliability_cell := false;
                Html.current_peer := ∅ |}.
Proof.
  apply (HtmlFacts.feed_row (country_header "germany")
           (parsed (country_header "germany")) "germany" "statusgood"
           " tcp://up.example:9000 " "online" "100%"); by vm_compute.
Defined.

Lemma fetch_peers_listed_witness :
  [Html.fallback_peer "tls://vpn.itrus.su:7992";
   Html.fallback_peer "tcp://vpn.itrus.su:7991";
   Html.fallback_peer "tls://23.137.249.65:444"] <> []
  /\ forall p,
       p ∈ [Html.fallback_peer "tls://vpn.itrus.su:7992";
            Html.fallback_peer "tcp://vpn.itrus.su:7991";
            Html.fallback_peer "tls://23.137.249.65:444"] ->
       Html.listed_peer p
       /\ exists peer_data, Html.peer_of p = Some peer_data
            /\ Html.known_scheme (peer_address peer_data) = true
            /\ is_Some (peer_reliability peer_data).
Proof.
  apply (HtmlFacts.fetch_peers_listed None None "netherlands"). by vm_compute.
Defined.

Lemma feed_row_inherits_class_witness :
  exists peers,
    Html.peers_by_country (parsed (country_header "germany")) !! "germany"%string
    = Some peers
    /\ Html.feed (country_header "germany"
                  ++ Html.row "statusgood" "tcp://up.example:9000" "online" "n/a"
                  ++ Html.row "statusbad" "tcp://down.example:9000" "offline" "0%")
                 Html.init
       = inr {| Html.peers_by_country :=
                  <[ "germany"%string :=
                       peers ++ [Html.row_peer "statusgood" "tcp://down.example:9000"
                                   "offline" "0%"] ]>
                    (Html.peers_by_country (parsed (country_header "germany")));
                Html.current_country := Some "germany"%string;
                Html.in_country_header := false; Html.in_address_cell := false;
                Html.in_status_cell := false; Html.in_reliability_cell := false;
                Html.current_peer := ∅ |}.
Proof.
  apply (HtmlFacts.feed_row_inherits_class (country_header "germany")
           (parsed (country_header "germany")) "germany"
           "statusgood" "tcp://up.example:9000" "online" "n/a"
           "statusbad" "tcp://down.example:9000" "offline" "0%"); by vm_compute.
Defined.

Lemma main_from_uncaught_witness :
  main_from Z sim_os germany both_done [] at_zero [1; 0]%nat
  = Uncaught (Propagated Py.TimeoutError).
Proof.
  apply (proj2 (MainFacts.main_from_uncaught Z sim_os germany both_done []
                  at_zero [1; 0]%nat)).
  left. by vm_compute.
Defined.

Lemma main_from_printed_witness :
  exists peers,
    germany !! "germany"%string = Some peers /\ (2 <= length peers)%nat
    /\ (1 <= length [record_up1] <= 3)%nat
    /\ NoDup [record_up1]
    /\ (forall r, r ∈ [record_up1] ->
          exists i peer_data, peers !! i = Some peer_data
            /\ successful_probe Z sim_os (at_zero i) peer_data "germany" r)
    /\ config_line ["tcp://up.example:9000"%string] = config_line (url <$> [record_up1]).
Proof.
  apply (MainFacts.main_from_printed Z sim_os germany both_done [0]%nat
           at_zero [1; 0]%nat). by vm_compute.
Defined.

Lemma main_no_region_witness :
  Html.fetch_peers (Some page_offline) None = ∅
  /\ main Z sim_os (Some page_offline) None both_done [0]%nat at_zero [1; 0]%nat
     = Exit 1 "No suitable regions found.".
Proof.
  apply (proj2 (MainFacts.main_no_region Z sim_os)).
  - intros e He (a & -> & Hc).
    unfold page_offline, country_header, Html.row, Html.cell in He. simpl in He.
    repeat (apply elem_of_cons in He as [He|He]; [try discriminate He|]).
    + injection He as ->. vm_compute in Hc. discriminate Hc.
    + by apply elem_of_nil in He.
  - intros e He (a & class_attr & -> & Hc & Hg).
    unfold page_offline, country_header, Html.row, Html.cell in He. simpl in He.
    repeat (apply elem_of_cons in He as [He|He]; [try discriminate He|]).
    + injection He as ->. vm_compute in Hc. injection Hc as <-.
      vm_compute in Hg. discriminate Hg.
    + by apply elem_of_nil in He.
Defined.

Lemma main_printed_listed_witness :
  country record_up1 = "germany"%string
  /\ Html.known_scheme (url record_up1) = true
  /\ probed_scheme (protocol record_up1)
  /\ Html.ends_with "%" (reliability record_up1) = true.
Proof.
  apply (MainFacts.main_printed_listed Z sim_os (Some page) None both_done [0]%nat
           at_zero [1; 0]%nat "germany" [record_up1]
           (config_line ["tcp://up.example:9000"%string])).
  - by vm_compute.
  - left.
Defined.

End MoreExamples.
